(** * ng-create-with-config: the project-initialisation script [init.js]

  A shallow embedding of [src/init.js] and of the part of the JavaScript
  platform it calls ([JSON.stringify], property assignment, object spread,
  [fs], [process]), followed by the properties of the script.  What the
  script cannot decide is left to the environment: what a command does,
  whether a permission change is let through, the platform name, and what
  [JSON.parse] returns for a file.

  Layout:
  - [Chars], [Json]      : characters, JSON values, property order;
  - [Stringify]          : [JSON.stringify (v, null, 2)];
  - [Parse]              : a reader of plain JSON texts, for the sample
                           environments;
  - [Node]               : the file tree, the process state, the event trace
                           and the small monad the script runs in;
  - [Init]               : the script itself, statement by statement;
  - [Spec]               : the predicates the theorems are stated with;
  - [Sample]             : a stub project generator for concrete runs;
  - the lemmas and theorems, stage by stage. *)

From Stdlib Require Import ZArith NArith Ascii String List Bool Lia.
From stdpp Require Import gmap strings list.

Set Default Proof Using "Type".

(* ===================================================================== *)
(** ** Characters *)
(* ===================================================================== *)

Module Chars.

Definition chr (n : nat) : ascii := ascii_of_nat n.
Definition str1 (c : ascii) : string := String c EmptyString.

(** Characters that cannot be written inside a literal. *)
Definition dquote : ascii := Eval cbv in chr 34.
Definition bslash : ascii := Eval cbv in chr 92.
Definition newline : ascii := Eval cbv in chr 10.
Definition escape : ascii := Eval cbv in chr 27.

Definition dq : string := str1 dquote.
Definition nl : string := str1 newline.
Definition esc : string := str1 escape.

Definition code (c : ascii) : N := N_of_ascii c.

Definition is_ws (c : ascii) : bool :=
  let n := code c in
  (n =? 32)%N || (n =? 10)%N || (n =? 13)%N || (n =? 9)%N.

Definition digit_of (c : ascii) : option N :=
  let n := code c in
  if (48 <=? n)%N && (n <=? 57)%N then Some (n - 48)%N else None.

Definition digit_char (d : N) : ascii := ascii_of_N (48 + d).

Definition hex_char (d : N) : ascii :=
  if (d <? 10)%N then ascii_of_N (48 + d) else ascii_of_N (87 + d).

Definition hex_of (c : ascii) : option N :=
  let n := code c in
  if (48 <=? n)%N && (n <=? 57)%N then Some (n - 48)%N
  else if (97 <=? n)%N && (n <=? 102)%N then Some (n - 87)%N
  else if (65 <=? n)%N && (n <=? 70)%N then Some (n - 55)%N
  else None.

Fixpoint spaces (n : nat) : string :=
  match n with
  | O => EmptyString
  | S n' => String " " (spaces n')
  end.

Fixpoint join (sep : string) (xs : list string) : string :=
  match xs with
  | [] => EmptyString
  | [x] => x
  | x :: rest => x +:+ sep +:+ join sep rest
  end.

(** Accumulating decimal reader: the longest prefix of digits. *)
Fixpoint read_digits (s : string) (acc : N) : N * string :=
  match s with
  | EmptyString => (acc, EmptyString)
  | String c s' =>
      match digit_of c with
      | Some d => read_digits s' (acc * 10 + d)%N
      | None => (acc, s)
      end
  end.

(** Decimal printer, most significant digit first. *)
Fixpoint show_digits (fuel : nat) (n : N) (acc : string) : string :=
  match fuel with
  | O => acc
  | S fuel' =>
      let acc' := String (digit_char (n mod 10)) acc in
      if (n <? 10)%N then acc' else show_digits fuel' (n / 10) acc'
  end.

Definition show_N (n : N) : string :=
  show_digits (S (N.to_nat (N.size n))) n EmptyString.

Definition show_nat (n : nat) : string := show_N (N.of_nat n).

End Chars.
Import Chars.

(* ===================================================================== *)
(** ** JSON values and JavaScript property order *)
(* ===================================================================== *)

Module Json.

(** A number as [JSON.parse] returns it.  The script never computes with
    a number: all it does is hand it back to [JSON.stringify].  A double is
    therefore given by what decides its serialisation: an integer that a
    double holds exactly (see [safe]); minus zero; any other finite double,
    by the decimal text [Number.prototype.toString] gives for it; or a
    double that is not finite (the literal [1e400] is read as
    [Infinity]). *)
Inductive number : Type :=
| Int (n : Z)
| NegZero
| Float (printed : string)
| NonFinite.

Coercion Int : Z >-> number.
Bind Scope Z_scope with number.

(** The values [JSON.parse] returns.  A string is the UTF-8 text of the
    JavaScript string, a lone surrogate written like any other code point
    of three bytes; an object is its list of own properties in enumeration
    order. *)
#[local] Unset Elimination Schemes.
Inductive json : Type :=
| JNull
| JBool (b : bool)
| JNum (x : number)
| JStr (s : string)
| JArr (xs : list json)
| JObj (ps : list (string * json)).
#[local] Set Elimination Schemes.

Abbreviation props := (list (string * json)) (only parsing).

Definition max_safe : Z := 9007199254740991.
Definition safe (n : Z) : bool := (- max_safe <=? n)%Z && (n <=? max_safe)%Z.

(** An array index is the canonical decimal spelling of an integer below
    [2^32 - 1]; such keys are enumerated first, in numeric order. *)
Definition index_of_key (k : string) : option N :=
  match k with
  | EmptyString => None
  | String c rest =>
      match digit_of c with
      | None => None
      | Some d =>
          if (d =? 0)%N then
            match rest with EmptyString => Some 0%N | _ => None end
          else
            let '(n, tl) := read_digits rest d in
            match tl with
            | EmptyString => if (n <? 4294967295)%N then Some n else None
            | _ => None
            end
      end
  end.

Definition keys (ps : props) : list string := map fst ps.

Fixpoint obj_get (k : string) (ps : props) : option json :=
  match ps with
  | [] => None
  | (k', v) :: rest => if String.eqb k k' then Some v else obj_get k rest
  end.

Definition has_key (k : string) (ps : props) : bool :=
  match obj_get k ps with Some _ => true | None => false end.

Fixpoint obj_replace (k : string) (v : json) (ps : props) : props :=
  match ps with
  | [] => []
  | (k', v') :: rest =>
      if String.eqb k k' then (k', v) :: rest
      else (k', v') :: obj_replace k v rest
  end.

Fixpoint obj_insert_index (i : N) (k : string) (v : json) (ps : props)
  : props :=
  match ps with
  | [] => [(k, v)]
  | (k', v') :: rest =>
      match index_of_key k' with
      | Some j =>
          if (j <=? i)%N then (k', v') :: obj_insert_index i k v rest
          else (k, v) :: ps
      | None => (k, v) :: ps
      end
  end.

(** [o[k] = v] on an ordinary object: an existing property keeps its
    place; a new array-index key goes among the index keys, before the
    first greater one; any other new key goes last. *)
Definition obj_set (k : string) (v : json) (ps : props) : props :=
  if has_key k ps then obj_replace k v ps
  else match index_of_key k with
       | Some i => obj_insert_index i k v ps
       | None => ps ++ [(k, v)]
       end.

(** The object built from a member list, as [JSON.parse] and an object
    literal build it: one property definition after the other. *)
Definition obj_of_members (ms : props) : props :=
  fold_left (fun o m => obj_set (fst m) (snd m) o) ms [].

(** [k] may stand before [k'] in an enumeration. *)
Definition precedes (k k' : string) : bool :=
  negb (String.eqb k k') &&
  match index_of_key k, index_of_key k' with
  | Some i, Some j => (i <=? j)%N
  | Some _, None => true
  | None, Some _ => false
  | None, None => true
  end.

Fixpoint enumerated (ks : list string) : bool :=
  match ks with
  | [] => true
  | k :: rest => forallb (precedes k) rest && enumerated rest
  end.

(** What [JSON.parse] reads from the text [JSON.stringify] writes for a
    value: the value itself, except that a number that is not finite is
    written as [null], and minus zero as [0]. *)
Fixpoint norm (v : json) : json :=
  match v with
  | JNum NonFinite => JNull
  | JNum NegZero => JNum 0
  | JArr xs => JArr (map norm xs)
  | JObj ps => JObj (map (fun p => (fst p, norm (snd p))) ps)
  | other => other
  end.

Definition norm_props (ps : props) : props :=
  map (fun p => (fst p, norm (snd p))) ps.

End Json.
Import Json.

(* ===================================================================== *)
(** ** [JSON.stringify (value, null, 2)] *)
(* ===================================================================== *)

Module Stringify.

(** QuoteJSONString: the two-character escapes, [\u00xx] for the other
    control characters, [\udxxx] for a lone surrogate, every other
    character as it is. *)
Definition escape_char (c : ascii) : string :=
  let n := code c in
  if (n =? 34)%N then String bslash dq
  else if (n =? 92)%N then String bslash (str1 bslash)
  else if (n =? 8)%N then String bslash "b"
  else if (n =? 12)%N then String bslash "f"
  else if (n =? 10)%N then String bslash "n"
  else if (n =? 13)%N then String bslash "r"
  else if (n =? 9)%N then String bslash "t"
  else if (n <? 32)%N then
    String bslash
      (String "u" (String "0" (String "0"
         (String (hex_char (n / 16)) (str1 (hex_char (n mod 16)))))))
  else str1 c.

(** The code unit of a lone surrogate, written as the three bytes
    [ED A0..BF 80..BF]. *)
Definition surrogate (c1 c2 c3 : ascii) : option N :=
  if (code c1 =? 237)%N && (160 <=? code c2)%N && (code c2 <=? 191)%N
     && (128 <=? code c3)%N && (code c3 <=? 191)%N
  then Some (55296 + (code c2 - 160) * 64 + (code c3 - 128))%N
  else None.

Definition unicode_escape (u : N) : string :=
  String bslash
    (String "u"
       (String (hex_char (u / 4096))
          (String (hex_char ((u / 256) mod 16))
             (String (hex_char ((u / 16) mod 16)) (str1 (hex_char (u mod 16))))))).

Fixpoint quote_body (s : string) : string :=
  match s with
  | EmptyString => EmptyString
  | String c s' =>
      match s' with
      | String c2 (String c3 s3) =>
          match surrogate c c2 c3 with
          | Some u => unicode_escape u +:+ quote_body s3
          | None => escape_char c +:+ quote_body s'
          end
      | _ => escape_char c +:+ quote_body s'
      end
  end.

Definition quote (s : string) : string := String dquote (quote_body s +:+ dq).

Definition show_Z (n : Z) : string :=
  match n with
  | Z0 => "0"
  | Zpos p => show_N (Npos p)
  | Zneg p => String "-" (show_N (Npos p))
  end.

(** SerializeJSONProperty on a number: its decimal text when it is finite
    (minus zero prints as [0]), [null] otherwise. *)
Definition show_number (x : number) : string :=
  match x with
  | Int n => show_Z n
  | NegZero => "0"
  | Float printed => printed
  | NonFinite => "null"
  end.

(** The items after the first one: each is preceded by a comma, a line break
    and the indentation. *)
Fixpoint ser_more {A : Type} (f : A -> string) (ind : nat) (xs : list A)
  : string :=
  match xs with
  | [] => EmptyString
  | x :: rest => String "," (nl +:+ spaces ind +:+ f x +:+ ser_more f ind rest)
  end.

Definition ser_block {A : Type} (open close : ascii) (f : A -> string)
    (ind : nat) (xs : list A) : string :=
  match xs with
  | [] => String open (str1 close)
  | x :: rest =>
      String open
        (nl +:+ spaces (ind + 2) +:+ f x +:+ ser_more f (ind + 2) rest
         +:+ nl +:+ spaces ind +:+ str1 close)
  end.

(** SerializeJSONProperty with a gap of two spaces; [ind] is the width of
    the current indentation. *)
Fixpoint ser (ind : nat) (v : json) : string :=
  match v with
  | JNull => "null"
  | JBool b => if b then "true" else "false"
  | JNum x => show_number x
  | JStr s => quote s
  | JArr xs => ser_block "[" "]" (ser (ind + 2)) ind xs
  | JObj ps =>
      ser_block "{" "}"
        (fun p => quote (fst p) +:+ String ":" (String " " (ser (ind + 2) (snd p))))
        ind ps
  end.

Definition JSON_stringify (v : json) : string := ser 0 v.

End Stringify.
Import Stringify.

(* ===================================================================== *)
(** ** A reader of plain JSON texts *)
(* ===================================================================== *)

(** The sample environments need a [JSON.parse] that computes.  This one
    reads the JSON texts whose numbers are integers without fraction or
    exponent that a double holds exactly, and whose [\u] escapes name ASCII
    characters; on such a text it returns what [JSON.parse] returns.  It
    reads no other text, be it JSON or not: what the script does on any
    manifest is stated with the environment's [parse], not with this
    reader. *)
Module Parse.

Fixpoint skip_ws (s : string) : string :=
  match s with
  | EmptyString => EmptyString
  | String c s' => if is_ws c then skip_ws s' else s
  end.

Fixpoint strip_prefix (p s : string) : option string :=
  match p with
  | EmptyString => Some s
  | String c p' =>
      match s with
      | EmptyString => None
      | String d s' => if Ascii.eqb c d then strip_prefix p' s' else None
      end
  end.

(** The character a two-character escape stands for. *)
Definition unescape (e : ascii) : option ascii :=
  let n := code e in
  if (n =? 34)%N then Some dquote
  else if (n =? 92)%N then Some bslash
  else if (n =? 47)%N then Some "/"%char
  else if (n =? 98)%N then Some (ascii_of_N 8)
  else if (n =? 102)%N then Some (ascii_of_N 12)
  else if (n =? 110)%N then Some (ascii_of_N 10)
  else if (n =? 114)%N then Some (ascii_of_N 13)
  else if (n =? 116)%N then Some (ascii_of_N 9)
  else None.

Definition hex4 (a b c d : ascii) : option N :=
  match hex_of a, hex_of b, hex_of c, hex_of d with
  | Some x, Some y, Some z, Some w => Some (((x * 16 + y) * 16 + z) * 16 + w)%N
  | _, _, _, _ => None
  end.

Definition cons_char (c : ascii) (r : option (string * string))
  : option (string * string) :=
  match r with
  | Some (s, rest) => Some (String c s, rest)
  | None => None
  end.

(** The characters of a string literal after its opening quote, up to the
    closing one.  A [\uXXXX] escape is read when it names an ASCII
    character; a literal with another one is not read. *)
Fixpoint parse_string (s : string) : option (string * string) :=
  match s with
  | EmptyString => None
  | String c s' =>
      if Ascii.eqb c dquote then Some (EmptyString, s')
      else if Ascii.eqb c bslash then
        match s' with
        | EmptyString => None
        | String e s'' =>
            match unescape e with
            | Some ch => cons_char ch (parse_string s'')
            | None =>
                if Ascii.eqb e "u" then
                  match s'' with
                  | String h1 (String h2 (String h3 (String h4 s3))) =>
                      match hex4 h1 h2 h3 h4 with
                      | Some n =>
                          if (n <? 128)%N
                          then cons_char (ascii_of_N n) (parse_string s3)
                          else None
                      | None => None
                      end
                  | _ => None
                  end
                else None
            end
        end
      else if (code c <? 32)%N then None
      else cons_char c (parse_string s')
  end.

(** The number tokens read: an integer literal without fraction or
    exponent whose value a double holds exactly; [-0] is minus zero. *)
Definition number_goes_on (rest : string) : bool :=
  match rest with
  | EmptyString => false
  | String c _ =>
      match digit_of c with
      | Some _ => true
      | None => Ascii.eqb c "." || Ascii.eqb c "e" || Ascii.eqb c "E"
      end
  end.

Definition parse_magnitude (s : string) : option (N * string) :=
  match s with
  | EmptyString => None
  | String c s' =>
      match digit_of c with
      | None => None
      | Some d =>
          let '(n, rest) := if (d =? 0)%N then (0%N, s') else read_digits s' d in
          if number_goes_on rest then None else Some (n, rest)
      end
  end.

Definition parse_number (s : string) : option (json * string) :=
  let '(neg, s1) :=
    match s with
    | String c s' => if Ascii.eqb c "-" then (true, s') else (false, s)
    | EmptyString => (false, s)
    end in
  match parse_magnitude s1 with
  | Some (n, rest) =>
      let z := if neg then (- Z.of_N n)%Z else Z.of_N n in
      if neg && (n =? 0)%N then Some (JNum NegZero, rest)
      else if safe z then Some (JNum z, rest) else None
  | None => None
  end.

Definition parse_literal (lit : string) (v : json) (s : string)
  : option (json * string) :=
  match strip_prefix lit s with
  | Some rest => Some (v, rest)
  | None => None
  end.

Fixpoint parse_value (fuel : nat) (s : string) : option (json * string) :=
  match fuel with
  | O => None
  | S fuel' =>
      match skip_ws s with
      | EmptyString => None
      | String c s' =>
          if Ascii.eqb c "{" then
            match skip_ws s' with
            | EmptyString => None
            | String c' s'' =>
                if Ascii.eqb c' "}" then Some (JObj [], s'')
                else
                  match parse_members fuel' s' with
                  | Some (ms, rest) => Some (JObj (obj_of_members ms), rest)
                  | None => None
                  end
            end
          else if Ascii.eqb c "[" then
            match skip_ws s' with
            | EmptyString => None
            | String c' s'' =>
                if Ascii.eqb c' "]" then Some (JArr [], s'')
                else
                  match parse_elements fuel' s' with
                  | Some (xs, rest) => Some (JArr xs, rest)
                  | None => None
                  end
            end
          else if Ascii.eqb c dquote then
            match parse_string s' with
            | Some (str, rest) => Some (JStr str, rest)
            | None => None
            end
          else if Ascii.eqb c "n" then parse_literal "ull" JNull s'
          else if Ascii.eqb c "t" then parse_literal "rue" (JBool true) s'
          else if Ascii.eqb c "f" then parse_literal "alse" (JBool false) s'
          else parse_number (String c s')
      end
  end

with parse_elements (fuel : nat) (s : string) : option (list json * string) :=
  match fuel with
  | O => None
  | S fuel' =>
      match parse_value fuel' s with
      | None => None
      | Some (v, rest) =>
          match skip_ws rest with
          | EmptyString => None
          | String c rest' =>
              if Ascii.eqb c "," then
                match parse_elements fuel' rest' with
                | Some (vs, rest'') => Some (v :: vs, rest'')
                | None => None
                end
              else if Ascii.eqb c "]" then Some ([v], rest')
              else None
          end
      end
  end

with parse_members (fuel : nat) (s : string) : option (props * string) :=
  match fuel with
  | O => None
  | S fuel' =>
      match skip_ws s with
      | EmptyString => None
      | String q s1 =>
          if Ascii.eqb q dquote then
            match parse_string s1 with
            | None => None
            | Some (k, s2) =>
                match skip_ws s2 with
                | EmptyString => None
                | String colon s3 =>
                    if Ascii.eqb colon ":" then
                      match parse_value fuel' s3 with
                      | None => None
                      | Some (v, rest) =>
                          match skip_ws rest with
                          | EmptyString => None
                          | String c rest' =>
                              if Ascii.eqb c "," then
                                match parse_members fuel' rest' with
                                | Some (ms, rest'') => Some ((k, v) :: ms, rest'')
                                | None => None
                                end
                              else if Ascii.eqb c "}" then Some ([(k, v)], rest')
                              else None
                          end
                      end
                    else None
                end
            end
          else None
      end
  end.

(** One value, then nothing but white space: what [JSON.parse text]
    returns, when [text] is one of the texts this reader reads; [None] on
    every other text. *)
Definition JSON_parse (text : string) : option json :=
  match parse_value (S (String.length text)) text with
  | Some (v, rest) =>
      match skip_ws rest with
      | EmptyString => Some v
      | String _ _ => None
      end
  | None => None
  end.

End Parse.
Import Parse.

(* ===================================================================== *)
(** ** The Node.js platform: files, process state, events *)
(* ===================================================================== *)

Module Node.

(** A location names a file or directory by the segments that lead to it
    from the directory the process starts in: the arguments given to
    [process.chdir] so far, then the components of the path handed to the
    [fs] call.  Paths are not normalised: the script spells every file in one
    way only.  The project name is one segment, whatever it holds: for a
    name with a separator, or [.] or [..], the segment stands for the place
    the operating system resolves it to. *)
Abbreviation loc := (list string) (only parsing).

(** A file has its text and the mode last given to [chmod], if any. *)
Inductive node : Type :=
| File (content : string) (mode : option string)
| Dir.

Abbreviation tree := (gmap (list string) node).

Abbreviation error := string (only parsing).

(** What a run does, in order: the lines printed, the commands run (with
    the directory they ran in and how they exited), and every change the
    script itself makes to the process or the tree.  A permission change is
    recorded whether it is done or refused. *)
Inductive event : Type :=
| Stdout (line : string)
| Stderr (line : string)
| Exec (command : string) (cwd : loc) (status : option Z)
| Chdir (directory : string)
| Mkdir (l : loc)
| WriteFile (l : loc) (content : string)
| Chmod (l : loc) (mode : string) (done : bool).

(** What the script cannot decide: the platform name, what a command does
    to the file tree and how it exits, whether a permission change is let
    through, and what [JSON.parse (fs.readFileSync (p, 'utf8'))] returns for
    a file with the given bytes ([None] when it throws [SyntaxError]). *)
Record env : Type := {
  platform : string;
  command : string -> loc -> tree -> option Z * tree;
  chmod_permitted : loc -> bool;
  parse : string -> option json
}.

Record state : Type := {
  cwd : loc;
  files : tree;
  trace : list event
}.

Definition emit (e : event) (st : state) : state :=
  {| cwd := cwd st; files := files st; trace := trace st ++ [e] |}.

Definition with_files (t : tree) (st : state) : state :=
  {| cwd := cwd st; files := t; trace := trace st |}.

(** A statement either completes, throws, or ends the process. *)
Inductive result (A : Type) : Type :=
| Next (a : A) (st : state)
| Thrown (e : error) (st : state)
| Exited (code : Z) (st : state).
Arguments Next {A} a st.
Arguments Thrown {A} e st.
Arguments Exited {A} code st.

Definition M (A : Type) : Type := state -> result A.

Definition ret {A : Type} (a : A) : M A := fun st => Next a st.

Definition bind {A B : Type} (m : M A) (k : A -> M B) : M B :=
  fun st =>
    match m st with
    | Next a st' => k a st'
    | Thrown e st' => Thrown e st'
    | Exited c st' => Exited c st'
    end.

Definition throw {A : Type} (e : error) : M A := fun st => Thrown e st.

Definition try_catch {A : Type} (body : M A) (handler : error -> M A) : M A :=
  fun st =>
    match body st with
    | Thrown e st' => handler e st'
    | r => r
    end.

Definition when (b : bool) (m : M unit) : M unit := if b then m else ret tt.

Declare Scope js_scope.
Delimit Scope js_scope with js.
Notation "x <- m ;; k" := (bind m (fun x => k))
  (at level 100, m at next level, right associativity) : js_scope.
Notation "m ;; k" := (bind m (fun _ => k))
  (at level 100, right associativity) : js_scope.
Local Open Scope js_scope.

(** *** console and process *)

Definition console_log (line : string) : M unit :=
  fun st => Next tt (emit (Stdout line) st).

Definition console_error (line : string) : M unit :=
  fun st => Next tt (emit (Stderr line) st).

Definition process_exit {A : Type} (code : Z) : M A :=
  fun st => Exited code st.

Definition is_dir (t : tree) (l : loc) : bool :=
  match t !! l with Some Dir => true | _ => false end.

(** The error of a call that needs a directory at [l]. *)
Definition no_directory (t : tree) (l : loc) : error :=
  match t !! l with
  | Some _ => "ENOTDIR"
  | None => "ENOENT"
  end.

Definition process_chdir (directory : string) : M unit :=
  fun st =>
    let l := cwd st ++ [directory] in
    if is_dir (files st) l
    then Next tt {| cwd := l; files := files st;
                    trace := trace st ++ [Chdir directory] |}
    else Thrown (no_directory (files st) l) st.

(** *** path *)

Abbreviation path := (list string) (only parsing).
Definition path_join (parts : list path) : path := concat parts.
Definition file_name (name : string) : path := [name].

(** *** fs *)

(** What these calls do is decided by the tree: a write fails when the
    parent is not a directory or the target is one, a read when there is no
    such file.  Failures that come from outside the tree (a full disk, a
    read-only volume) are not modelled, except for the permission change,
    which the environment may refuse; and between two statements of the
    script nothing touches the tree but the commands the script runs. *)

Definition parent (l : loc) : loc := removelast l.

Definition fs_writeFileSync (p : path) (content : string) : M unit :=
  fun st =>
    let l := cwd st ++ p in
    if is_dir (files st) (parent l) then
      match files st !! l with
      | Some Dir => Thrown "EISDIR" st
      | Some (File _ mode) =>
          Next tt (emit (WriteFile l content)
                     (with_files (<[l := File content mode]> (files st)) st))
      | None =>
          Next tt (emit (WriteFile l content)
                     (with_files (<[l := File content None]> (files st)) st))
      end
    else Thrown (no_directory (files st) (parent l)) st.

Definition fs_readFileSync (p : path) : M string :=
  fun st =>
    match files st !! (cwd st ++ p) with
    | Some (File content _) => Next content st
    | Some Dir => Thrown "EISDIR" st
    | None => Thrown "ENOENT" st
    end.

Definition fs_existsSync (p : path) : M bool :=
  fun st =>
    Next (match files st !! (cwd st ++ p) with Some _ => true | None => false end) st.

(** [mkdir -p]: every missing directory on the way is created; a file in
    the way is an error. *)
Fixpoint mkdir_p (here : loc) (todo : list string) (t : tree) : option tree :=
  match t !! here with
  | Some (File _ _) => None
  | found =>
      let t' := match found with None => <[here := Dir]> t | _ => t end in
      match todo with
      | [] => Some t'
      | next :: todo' => mkdir_p (here ++ [next]) todo' t'
      end
  end.

Definition fs_mkdirSync_recursive (p : path) : M unit :=
  fun st =>
    let l := cwd st ++ p in
    match mkdir_p [] l (files st) with
    | Some t => Next tt (emit (Mkdir l) (with_files t st))
    | None => Thrown "EEXIST" st
    end.

Section WithEnv.
Variable E : env.

(** [execSync (command, { stdio: 'inherit' })]: the command runs in the
    current working directory and throws unless it exits with status 0. *)
Definition execSync (cmd : string) : M unit :=
  fun st =>
    let '(status, t) := command E cmd (cwd st) (files st) in
    let st' := emit (Exec cmd (cwd st) status) (with_files t st) in
    match status with
    | Some 0%Z => Next tt st'
    | _ => Thrown "Command failed" st'
    end.

Definition fs_chmodSync (p : path) (mode : string) : M unit :=
  fun st =>
    let l := cwd st ++ p in
    match files st !! l with
    | Some (File content _) =>
        if chmod_permitted E l
        then Next tt (emit (Chmod l mode true)
                        (with_files (<[l := File content (Some mode)]> (files st)) st))
        else Thrown "EPERM" (emit (Chmod l mode false) st)
    | Some Dir =>
        if chmod_permitted E l
        then Next tt (emit (Chmod l mode true) st)
        else Thrown "EPERM" (emit (Chmod l mode false) st)
    | None => Thrown "ENOENT" (emit (Chmod l mode false) st)
    end.

(** [JSON.parse (text)] for the text of a file: the value the platform
    returns, or its [SyntaxError]. *)
Definition JSON_parse_or_throw (text : string) : M json :=
  match parse E text with
  | Some v => ret v
  | None => throw "SyntaxError"
  end.

End WithEnv.

(** *** Values *)

(** An object literal defines its properties one after the other. *)
Definition object_literal (members : props) : json :=
  JObj (obj_of_members members).

(** [target[key] = value] for a key that is not an array index, in sloppy
    mode: [null] has no properties ([TypeError]); on a primitive the
    assignment is dropped; on an array it adds a property that
    [JSON.stringify] does not print. *)
Definition assign (target : json) (key : string) (value : json) : M json :=
  match target with
  | JNull => throw "TypeError"
  | JObj ps => ret (JObj (obj_set key value ps))
  | other => ret other
  end.

(** [target.key] for a key that no prototype defines: the own property, or
    [undefined] ([None]). *)
Definition member (target : json) (key : string) : M (option json) :=
  match target with
  | JNull => throw "TypeError"
  | JObj ps => ret (obj_get key ps)
  | _ => ret None
  end.

(** A surrogate code unit, written as three bytes. *)
Definition surrogate_bytes (u : N) : string :=
  String (ascii_of_N 237)
    (String (ascii_of_N (128 + (u / 64) mod 64))
       (str1 (ascii_of_N (128 + u mod 64)))).

(** The code point of a character of four bytes, less [0x10000]. *)
Definition astral (c1 c2 c3 c4 : ascii) : N :=
  ((code c1 mod 8) * 262144 + (code c2 mod 64) * 4096
   + (code c3 mod 64) * 64 + code c4 mod 64 - 65536)%N.

(** The UTF-16 code units of a text, one string each: a character of one,
    two or three bytes is one code unit; a character of four bytes is a
    pair of surrogates. *)
Fixpoint code_units (s : string) : list string :=
  match s with
  | EmptyString => []
  | String c1 s1 =>
      if (code c1 <? 192)%N then str1 c1 :: code_units s1
      else if (code c1 <? 224)%N then
        match s1 with
        | String c2 s2 => String c1 (str1 c2) :: code_units s2
        | EmptyString => [str1 c1]
        end
      else if (code c1 <? 240)%N then
        match s1 with
        | String c2 (String c3 s3) =>
            String c1 (String c2 (str1 c3)) :: code_units s3
        | _ => [s]
        end
      else
        match s1 with
        | String c2 (String c3 (String c4 s4)) =>
            let w := astral c1 c2 c3 c4 in
            surrogate_bytes (55296 + w / 1024)
            :: surrogate_bytes (56320 + w mod 1024) :: code_units s4
        | _ => [s]
        end
  end.

Definition indexed {A : Type} (f : A -> json) (xs : list A) : props :=
  imap (fun i x => (show_nat i, f x)) xs.

(** The properties [{ ...source }] copies: the own enumerable properties of
    an object, the elements of an array and the code units of a string under
    their indices, nothing for [undefined], [null], numbers and booleans. *)
Definition spread (source : option json) : props :=
  match source with
  | Some (JObj ps) => ps
  | Some (JArr xs) => indexed (fun x => x) xs
  | Some (JStr s) => indexed JStr (code_units s)
  | _ => []
  end.

End Node.
Import Node.
Local Open Scope js_scope.

(* ===================================================================== *)
(** ** The script [init.js] *)
(* ===================================================================== *)

Module Init.

Definition lines (ls : list string) : string := join nl ls.

(** *** Colors for console output *)

Definition colors_reset : string := esc +:+ "[0m".
Definition colors_green : string := esc +:+ "[32m".
Definition colors_blue : string := esc +:+ "[34m".
Definition colors_yellow : string := esc +:+ "[33m".

Definition printMessage (message : string) : M unit :=
  console_log (colors_blue +:+ "==>" +:+ colors_reset +:+ " " +:+
               colors_green +:+ message +:+ colors_reset).

Definition printWarning (message : string) : M unit :=
  console_log (colors_yellow +:+ "Warning:" +:+ colors_reset +:+ " " +:+ message).

(** *** The fixed payloads *)

Definition tailwindConfig : string :=
  lines [ "";
          "    {";
          "        " +:+ dq +:+ "plugins" +:+ dq +:+ ": {";
          "            " +:+ dq +:+ "@tailwindcss/postcss" +:+ dq +:+ ": {}";
          "        }";
          "    }";
          "" ].

Definition stylesScss : string :=
  lines [ "";
          "    /* Tailwind CSS */";
          "    @use " +:+ dq +:+ "tailwindcss" +:+ dq +:+ ";";
          "" ].

Definition prettierConfig : json :=
  object_literal
    [ ("tabWidth", JNum 2);
      ("endOfLine", JStr "auto");
      ("proseWrap", JStr "preserve");
      ("useTabs", JBool false);
      ("singleQuote", JBool true);
      ("semi", JBool true);
      ("bracketSpacing", JBool true);
      ("arrowParens", JStr "avoid");
      ("trailingComma", JStr "es5");
      ("bracketSameLine", JBool true);
      ("printWidth", JNum 80);
      ("overrides",
        JArr [ object_literal
                 [ ("files", JStr "*.html");
                   ("options", object_literal [ ("parser", JStr "angular") ]) ] ]) ].

Definition prettierIgnore : string :=
  lines [ "node_modules"; "dist"; "coverage"; ".angular"; "*.min.js";
          "*.min.css"; "package-lock.json"; "" ].

Definition eslintConfig : string :=
  lines [ "";
    "  // @ts-check";
    "  const eslint = require('@eslint/js');";
    "  const tseslint = require('typescript-eslint');";
    "  const angular = require('angular-eslint');";
    "  const eslintPluginPrettierRecommended = require('eslint-plugin-prettier/recommended');";
    "  const eslintPluginUnusedImport = require('eslint-plugin-unused-imports');";
    "  const eslintPluginSimpleImportSort = require('eslint-plugin-simple-import-sort');";
    "  module.exports = tseslint.config(";
    "    {";
    "      files: ['**/*.ts'],";
    "      extends: [";
    "        eslint.configs.recommended,";
    "        ...tseslint.configs.recommended,";
    "        ...tseslint.configs.stylistic,";
    "        ...angular.configs.tsRecommended,";
    "        eslintPluginPrettierRecommended,";
    "      ],";
    "      plugins: {";
    "        'unused-imports': eslintPluginUnusedImport,";
    "        'simple-import-sort': eslintPluginSimpleImportSort,";
    "      },";
    "      processor: angular.processInlineTemplates,";
    "      rules: {";
    "        '@angular-eslint/directive-selector': [";
    "          'error',";
    "          {";
    "            type: 'attribute',";
    "            prefix: 'app',";
    "            style: 'camelCase',";
    "          },";
    "        ],";
    "        '@angular-eslint/component-selector': [";
    "          'error',";
    "          {";
    "            type: 'element',";
    "            prefix: 'app',";
    "            style: 'kebab-case',";
    "          },";
    "        ],";
    "        'prettier/prettier': [";
    "          'error',";
    "          {";
    "            endOfLine: 'auto', // Automatically handles line endings";
    "          },";
    "        ],";
    "        '@typescript-eslint/no-unused-vars': 'off',";
    "        'unused-imports/no-unused-imports': 'error',";
    "        'unused-imports/no-unused-vars': [";
    "          'warn',";
    "          {";
    "            vars: 'all',";
    "            varsIgnorePattern: '^_',";
    "            args: 'after-used',";
    "            argsIgnorePattern: '^_',";
    "          },";
    "        ],";
    "        'simple-import-sort/imports': 'warn',";
    "        'simple-import-sort/exports': 'warn',";
    "      },";
    "    },";
    "    {";
    "      files: ['**/*.html'],";
    "      extends: [";
    "        ...angular.configs.templateRecommended,";
    "        ...angular.configs.templateAccessibility,";
    "      ],";
    "      rules: {},";
    "    }";
    "  );";
    "" ].

Definition lintStaged : json :=
  object_literal
    [ ("*.ts", JArr [ JStr "eslint --fix"; JStr "prettier --write" ]);
      ("*.html", JArr [ JStr "prettier --write" ]);
      ("*.scss", JArr [ JStr "prettier --write" ]) ].

Definition preCommitHook : string := lines [ "npx lint-staged"; "" ].

Definition formatScript : string :=
  "prettier --write " +:+ dq +:+ "src/**/*.{ts,html,scss}" +:+ dq.

(** The object literal assigned to [updatedPackageJson.scripts]. *)
Definition scriptsLiteral (existing : option json) : json :=
  object_literal
    (spread existing ++
     [ ("lint", JStr "ng lint");
       ("lint:fix", JStr "ng lint --fix");
       ("format", JStr formatScript) ]).

Definition usage : list string :=
  [ "Usage: npx ng-create-with-config <project-name>";
    "   or: node init.js <project-name>" ].

Definition summary (projectName : string) : list string :=
  [ "";
    "Your Angular project is ready with:";
    "  ✓ Angular with routing and SCSS";
    "  ✓ Tailwind CSS";
    "  ✓ ESLint with Angular rules";
    "  ✓ Prettier";
    "  ✓ lint-staged with Husky pre-commit hooks";
    "";
    "Available commands:";
    "  npm start          - Start development server";
    "  npm run lint       - Run ESLint";
    "  npm run lint:fix   - Fix ESLint issues";
    "  npm run format     - Format code with Prettier";
    "  npm run format:check - Check code formatting";
    "";
    "Get started:";
    "  cd " +:+ projectName;
    "  npm start" ].

(** [!value] for a value that is a string or [undefined]. *)
Definition falsy (value : option string) : bool :=
  match value with
  | None => true
  | Some s => String.eqb s ""
  end.

(** A string or [undefined] inside a template literal. *)
Definition interpolate (value : option string) : string :=
  match value with
  | Some s => s
  | None => "undefined"
  end.

Fixpoint log_all (ls : list string) : M unit :=
  match ls with
  | [] => ret tt
  | l :: rest => console_log l ;; log_all rest
  end.

Section Script.
Variable E : env.

(** Every call site passes the command alone, so [options] is [{}]. *)
Definition executeCommand (cmd : string) : M unit :=
  try_catch (execSync E cmd)
    (fun _ => console_error ("Failed to execute: " +:+ cmd) ;; process_exit 1).

(** Lines 32-39. *)
Definition checkProjectName (projectName : option string) : M unit :=
  when (falsy projectName)
    (console_error "Usage: npx ng-create-with-config <project-name>" ;;
     console_error "   or: node init.js <project-name>" ;;
     process_exit 1).

(** Lines 41-69: the generator, the directory change, the installs. *)
Definition installAll (projectName : string) : M unit :=
  printMessage ("Creating Angular project: " +:+ projectName) ;;
  executeCommand ("ng new " +:+ projectName +:+ " --routing --style=scss --skip-git") ;;
  process_chdir projectName ;;
  printMessage "Installing dependencies..." ;;
  executeCommand "npm install tailwindcss @tailwindcss/postcss postcss" ;;
  executeCommand "npm install -D @angular-eslint/schematics" ;;
  executeCommand "ng add @angular-eslint/schematics --skip-confirmation" ;;
  executeCommand "npm install prettier prettier-eslint eslint-config-prettier eslint-plugin-prettier --save-dev" ;;
  executeCommand "npm install eslint-plugin-unused-imports --save-dev" ;;
  executeCommand "npm install eslint-plugin-simple-import-sort --save-dev" ;;
  executeCommand "npm install -D lint-staged husky" ;;
  executeCommand "npx husky init".

(** Lines 71-201: the configuration files with fixed content. *)
Definition writeConfigFiles : M unit :=
  printMessage "Configuring Tailwind CSS..." ;;
  fs_writeFileSync (file_name ".postcssrc.json") tailwindConfig ;;
  fs_writeFileSync (path_join [file_name "src"; file_name "styles.scss"]) stylesScss ;;
  printMessage "Configuring Prettier..." ;;
  fs_writeFileSync (file_name ".prettierrc") (JSON_stringify prettierConfig) ;;
  fs_writeFileSync (file_name ".prettierignore") prettierIgnore ;;
  printMessage "Configuring ESLint, Prettier, Unused Imports and Simple Sort Imports..." ;;
  fs_writeFileSync (file_name "eslint.config.js") eslintConfig.

(** Lines 203-212: the [lint-staged] key of the package manifest. *)
Definition configureLintStaged : M unit :=
  printMessage "Configuring lint-staged..." ;;
  text <- fs_readFileSync (file_name "package.json") ;;
  packageJson <- JSON_parse_or_throw E text ;;
  packageJson <- assign packageJson "lint-staged" lintStaged ;;
  fs_writeFileSync (file_name "package.json") (JSON_stringify packageJson).

(** Lines 214-232: the pre-commit hook. *)
Definition setupHuskyHook : M unit :=
  printMessage "Setting up Husky pre-commit hook..." ;;
  let huskyDir := path_join [file_name ".husky"] in
  present <- fs_existsSync huskyDir ;;
  when (negb present) (fs_mkdirSync_recursive huskyDir) ;;
  fs_writeFileSync (path_join [huskyDir; file_name "pre-commit"]) preCommitHook ;;
  when (negb (String.eqb (platform E) "win32"))
    (try_catch
       (fs_chmodSync E (path_join [huskyDir; file_name "pre-commit"]) "755")
       (fun _ => printWarning "Could not make pre-commit hook executable")).

(** Lines 234-244: the npm scripts of the package manifest. *)
Definition addNpmScripts : M unit :=
  printMessage "Adding npm scripts..." ;;
  text <- fs_readFileSync (file_name "package.json") ;;
  updatedPackageJson <- JSON_parse_or_throw E text ;;
  existing <- member updatedPackageJson "scripts" ;;
  updatedPackageJson <- assign updatedPackageJson "scripts" (scriptsLiteral existing) ;;
  fs_writeFileSync (file_name "package.json") (JSON_stringify updatedPackageJson).

(** Lines 246-264. *)
Definition printSummary (projectName : string) : M unit :=
  printMessage "✨ Project setup complete! ✨" ;;
  log_all (summary projectName).

(** The whole script; [argv] is [process.argv]. *)
Definition main (argv : list string) : M unit :=
  let projectName := argv !! 2%nat in
  checkProjectName projectName ;;
  installAll (interpolate projectName) ;;
  writeConfigFiles ;;
  configureLintStaged ;;
  setupHuskyHook ;;
  addNpmScripts ;;
  printSummary (interpolate projectName).

End Script.

(** How a run ends: reaching the end of the script is exit status 0. *)
Inductive outcome : Type :=
| Exit (code : Z)
| Uncaught (e : error).

Record report : Type := {
  ending : outcome;
  final : state
}.

Definition start (t : tree) : state := {| cwd := []; files := t; trace := [] |}.

Definition finish (r : result unit) : report :=
  match r with
  | Next _ st => {| ending := Exit 0; final := st |}
  | Thrown e st => {| ending := Uncaught e; final := st |}
  | Exited c st => {| ending := Exit c; final := st |}
  end.

(** [node init.js args...] started on the file tree [t]. *)
Definition run (E : env) (t : tree) (args : list string) : report :=
  finish (main E ("node" :: "init.js" :: args) (start t)).

End Init.
Import Init.

(* ===================================================================== *)
(** ** Vocabulary of the specification *)
(* ===================================================================== *)

Module Spec.

(** *** Values *)

(** The own property [k] of an object; nothing for any other value. *)
Definition field (k : string) (v : json) : option json :=
  match v with
  | JObj ps => obj_get k ps
  | _ => None
  end.

(** *** Statements about statements *)

(** [triple P m Q T X]: started in a state satisfying [P], the statement
    [m] completes in a state satisfying [Q], throws in one satisfying [T],
    or ends the process in one satisfying [X]. *)
Definition triple {A : Type} (P : state -> Prop) (m : M A)
    (Q : A -> state -> Prop) (T : error -> state -> Prop)
    (X : Z -> state -> Prop) : Prop :=
  forall st, P st ->
    match m st with
    | Next a st' => Q a st'
    | Thrown e st' => T e st'
    | Exited c st' => X c st'
    end.

Definition state_of {A : Type} (r : result A) : state :=
  match r with
  | Next _ st => st
  | Thrown _ st => st
  | Exited _ st => st
  end.

(** *** Fail-fast *)

Definition succeeded (status : option Z) : bool :=
  match status with
  | Some 0%Z => true
  | _ => false
  end.

(** An event that is not a failed command. *)
Definition exec_ok (e : event) : bool :=
  match e with
  | Exec _ _ status => succeeded status
  | _ => true
  end.

(** No command has failed so far. *)
Definition clean (tr : list event) : Prop := Forall (fun e => exec_ok e = true) tr.

Definition diagnostic (cmd : string) : event :=
  Stderr ("Failed to execute: " +:+ cmd).

(** A command failed, its diagnostic was printed, and that was all. *)
Definition failed (tr : list event) : Prop :=
  exists pre cmd dir status,
    tr = pre ++ [Exec cmd dir status; diagnostic cmd]
    /\ clean pre /\ succeeded status = false.

Definition fail_fast {A : Type} (m : M A) : Prop :=
  triple (fun st => clean (trace st)) m
    (fun _ st => clean (trace st))
    (fun _ st => clean (trace st))
    (fun c st => clean (trace st) \/ (c = 1%Z /\ failed (trace st))).

(** *** Invariants *)

(** [keeps I m]: started in a state satisfying [I], the statement [m]
    ends in one, however it ends; and if it ends the process, the exit
    status is 1. *)
Definition keeps {A : Type} (I : state -> Prop) (m : M A) : Prop :=
  triple I m (fun _ => I) (fun _ => I) (fun c st => c = 1%Z /\ I st).

(** Every event so far satisfies [ok]. *)
Definition all_events (ok : event -> bool) (st : state) : Prop :=
  Forall (fun e => ok e = true) (trace st).

(** *** Sequencing *)

(** The command line of the project generator (line 44). *)
Definition generation (projectName : string) : string :=
  "ng new " +:+ projectName +:+ " --routing --style=scss --skip-git".

Definition is_chdir (e : event) : bool :=
  match e with
  | Chdir _ => true
  | _ => false
  end.

(** An event that is not a directory change and, if it is a command, runs
    in the directory [d] under the initial one. *)
Definition in_dir (d : string) (e : event) : bool :=
  match e with
  | Exec _ dir _ => bool_decide (dir = [d])
  | Chdir _ => false
  | _ => true
  end.

(** The generator has succeeded, then the process has entered [d], and
    everything since has happened there. *)
Definition settled (d : string) (st : state) : Prop :=
  cwd st = [d]
  /\ exists banner rest,
       trace st = Stdout banner :: Exec (generation d) [] (Some 0%Z)
                    :: Chdir d :: rest
       /\ Forall (fun e => in_dir d e = true) rest.

Definition no_chdir (st : state) : Prop :=
  Forall (fun e => is_chdir e = false) (trace st).

(** A line as [printMessage] prints it. *)
Definition decorated (message : string) : string :=
  colors_blue +:+ "==>" +:+ colors_reset +:+ " " +:+ colors_green +:+
  message +:+ colors_reset.

(** The first line the script prints. *)
Definition banner (d : string) : string :=
  decorated ("Creating Angular project: " +:+ d).

(** *** Files *)

Definition content (n : node) : option string :=
  match n with
  | File text _ => Some text
  | Dir => None
  end.

(** The process is in [d], and [l] is a file with the text [c] when [c] is
    [Some text], a directory when [c] is [None]. *)
Definition holds (d : string) (l : loc) (c : option string) (st : state) : Prop :=
  cwd st = [d] /\ content <$> (files st !! l) = Some c.

(** Lines 71-264: everything after the installs. *)
Definition configuration (E : env) (projectName : string) : M unit :=
  writeConfigFiles ;; configureLintStaged E ;; setupHuskyHook E ;;
  addNpmScripts E ;; printSummary projectName.

(** *** The executable bit *)




(** The final success printout (lines 246-264). *)
Definition closing (d : string) : list event :=
  Stdout (decorated "✨ Project setup complete! ✨") :: map Stdout (summary d).






(** What the two manifest updates write, as functions of the manifest
    read. *)
Definition with_lint_staged (v : json) : json :=
  match v with
  | JObj ps => JObj (obj_set "lint-staged" lintStaged ps)
  | other => other
  end.

Definition with_scripts (v : json) : json :=
  match v with
  | JObj ps => JObj (obj_set "scripts" (scriptsLiteral (obj_get "scripts" ps)) ps)
  | other => other
  end.

(** The text of the manifest in the working directory. *)
Definition package_text (st : state) : option string :=
  match files st !! (cwd st ++ ["package.json"]) with
  | Some (File text _) => Some text
  | _ => None
  end.

(** What [JSON.parse] returns for the manifest in the working directory. *)
Definition parsed (E : env) (st : state) : option json :=
  match package_text st with
  | Some text => parse E text
  | None => None
  end.

(** The manifest a state holds in its working directory, for a manifest
    that is a plain JSON text. *)
Definition manifest (st : state) : option json :=
  match files st !! (cwd st ++ ["package.json"]) with
  | Some (File text _) => JSON_parse text
  | _ => None
  end.

(** The three rules of the staged-file runner (lines 207-211). *)
Definition three_rules : json :=
  JObj [ ("*.ts", JArr [ JStr "eslint --fix"; JStr "prettier --write" ]);
         ("*.html", JArr [ JStr "prettier --write" ]);
         ("*.scss", JArr [ JStr "prettier --write" ]) ].

(** The names the scripts update defines (lines 240-242). *)
Definition merged_names : list string := [ "lint"; "lint:fix"; "format" ].

End Spec.
Import Spec.

(* ===================================================================== *)
(** ** A stub project generator, for concrete runs *)
(* ===================================================================== *)

Module Sample.

(** The manifest the stub generator writes. *)
Definition scripts : props :=
  [ ("ng", JStr "ng");
    ("start", JStr "ng serve");
    ("build", JStr "ng build");
    ("lint", JStr "eslint .") ].

Definition members : props :=
  [ ("name", JStr "demo");
    ("version", JStr "0.0.0");
    ("scripts", JObj scripts);
    ("private", JBool true);
    ("lint-staged", JObj [ ("*.js", JStr "eslint") ]) ].

Definition generated : json := JObj members.

(** The tree the stub generator leaves: the project directory, its [src]
    directory and its manifest. *)
Definition scaffold (t : tree) : tree :=
  <[ ["demo"; "package.json"] := File (JSON_stringify generated) None ]>
    (<[ ["demo"; "src"] := Dir ]> (<[ ["demo"] := Dir ]> t)).

(** Every command exits with status 0, except [failing], which exits with
    status 1; the generator command creates the scaffold.  Permission
    changes are let through or not as [permitted] says. *)
Definition stub (failing : string) (permitted : bool) : env :=
  {| platform := "linux";
     command := fun cmd dir t =>
       if String.eqb cmd failing then (Some 1%Z, t)
       else if String.eqb cmd (generation "demo") then (Some 0%Z, scaffold t)
       else (Some 0%Z, t);
     chmod_permitted := fun _ => permitted;
     parse := JSON_parse |}.

(** Everything succeeds. *)
Definition smooth : report := run (stub "" true) ∅ ["demo"].

(** The second install fails. *)
Definition second_install : string := "npm install -D @angular-eslint/schematics".
Definition broken : report := run (stub second_install true) ∅ ["demo"].

(** The permission change is refused. *)
Definition refused : report := run (stub "" false) ∅ ["demo"].

(** A state inside a freshly generated project. *)
Definition fresh : state :=
  {| cwd := ["demo"]; files := scaffold ∅; trace := [] |}.

(** *** A manifest with a number that overflows *)

(** The tree the generator leaves when it writes [text] as the manifest. *)
Definition scaffold_with (text : string) (t : tree) : tree :=
  <[ ["demo"; "package.json"] := File text None ]>
    (<[ ["demo"; "src"] := Dir ]> (<[ ["demo"] := Dir ]> t)).

(** A platform on which every command exits with status 0, the generator
    writes [text] as the manifest, and [JSON.parse] reads [text] as [v]
    and every plain text as what it says. *)
Definition stub_with (text : string) (v : json) (permitted : bool) : env :=
  {| platform := "linux";
     command := fun cmd dir t =>
       if String.eqb cmd (generation "demo") then (Some 0%Z, scaffold_with text t)
       else (Some 0%Z, t);
     chmod_permitted := fun _ => permitted;
     parse := fun s => if String.eqb s text then Some v else JSON_parse s |}.


(** A manifest whose scripts hold an entry [x] with the value [1e400]. *)
Definition lossy_text : string :=
  "{" +:+ dq +:+ "scripts" +:+ dq +:+ ":{" +:+ dq +:+ "lint" +:+ dq +:+ ":"
  +:+ dq +:+ "eslint ." +:+ dq +:+ "," +:+ dq +:+ "x" +:+ dq +:+ ":1e400}}".

Definition lossy_scripts : props :=
  [ ("lint", JStr "eslint ."); ("x", JNum NonFinite) ].

Definition lossy_members : props := [ ("scripts", JObj lossy_scripts) ].

Definition lossy_env : env := stub_with lossy_text (JObj lossy_members) true.

Definition lossy : state :=
  {| cwd := ["demo"]; files := scaffold_with lossy_text ∅; trace := [] |}.

End Sample.

(* ===================================================================== *)
(** ** The run as a whole: vocabulary *)
(* ===================================================================== *)

Module Pipeline.

(** The commands run inside the project directory, in the order of the
    source (lines 52-69). *)
Definition installs : list string :=
  [ "npm install tailwindcss @tailwindcss/postcss postcss";
    "npm install -D @angular-eslint/schematics";
    "ng add @angular-eslint/schematics --skip-confirmation";
    "npm install prettier prettier-eslint eslint-config-prettier eslint-plugin-prettier --save-dev";
    "npm install eslint-plugin-unused-imports --save-dev";
    "npm install eslint-plugin-simple-import-sort --save-dev";
    "npm install -D lint-staged husky";
    "npx husky init" ].

(** Every command of the script: the generator (line 44), then the
    installs. *)
Definition commands (d : string) : list string := generation d :: installs.

(** The commands of a trace: command line, directory and exit status. *)
Definition execution (e : event) : option (string * list string * option Z) :=
  match e with
  | Exec cmd dir status => Some (cmd, dir, status)
  | _ => None
  end.

Definition execs (tr : list event) : list (string * list string * option Z) :=
  omap execution tr.

Definition command_line (x : string * list string * option Z) : string := x.1.1.

(** Every command, run where the script runs it, with exit status 0. *)
Definition passed (d : string) : list (string * list string * option Z) :=
  (generation d, [], Some 0%Z) :: map (fun cmd => (cmd, [d], Some 0%Z)) installs.

(** The trace of lines 41-69 when every command exits with status 0. *)
Definition installed (d : string) : list event :=
  Stdout (banner d) :: Exec (generation d) [] (Some 0%Z) :: Chdir d
  :: Stdout (decorated "Installing dependencies...")
  :: map (fun cmd => Exec cmd [d] (Some 0%Z)) installs.

(** The trace of a run whose command number [n] exits with [status], and
    which [executeCommand] then ends. *)
Definition stopped (d : string) (n : nat) (status : option Z) : list event :=
  match n with
  | 0 => [ Stdout (banner d); Exec (generation d) [] status;
           diagnostic (generation d) ]
  | S k =>
      take (4 + k) (installed d) ++
      match installs !! k with
      | Some cmd => [ Exec cmd [d] status; diagnostic cmd ]
      | None => []
      end
  end.

Definition halted (d : string) (tr : list event) : Prop :=
  exists n status,
    n < 9 /\ succeeded status = false /\ tr = stopped d n status.

(** The trace of a run whose generator exits with status 0 without
    leaving the project directory. *)
Definition stranded (d : string) : list event :=
  [ Stdout (banner d); Exec (generation d) [] (Some 0%Z) ].

(** An event by which the script itself changes the file tree. *)
Definition touches (e : event) : bool :=
  match e with
  | WriteFile _ _ | Mkdir _ | Chmod _ _ _ => true
  | _ => false
  end.

Definition is_stderr (e : event) : bool :=
  match e with
  | Stderr _ => true
  | _ => false
  end.

(** The files with a fixed content, by their path in the project
    directory (lines 73-201 and 216-221). *)
Definition fixed_files : list (list string * string) :=
  [ ([".postcssrc.json"], tailwindConfig);
    (["src"; "styles.scss"], stylesScss);
    ([".prettierrc"], JSON_stringify prettierConfig);
    ([".prettierignore"], prettierIgnore);
    (["eslint.config.js"], eslintConfig);
    ([".husky"; "pre-commit"], preCommitHook) ].

(** What the script writes at the path [p] of the project directory: the
    manifest, or a fixed file with its content. *)
Definition known (p : list string) (text : string) : bool :=
  if decide (p = ["package.json"]) then true
  else existsb (fun f => bool_decide (p = f.1) && String.eqb text f.2) fixed_files.

(** What the stage after the installs (lines 71-264) may do in the project
    directory [d]: print on the standard output, write a known file, create
    the hook directory, make the hook executable. *)
Definition configuring (d : string) (e : event) : bool :=
  match e with
  | Stdout _ => true
  | WriteFile (x :: p) text => String.eqb x d && known p text
  | Mkdir l => bool_decide (l = [d; ".husky"])
  | Chmod l mode _ =>
      bool_decide (l = [d; ".husky"; "pre-commit"]) && String.eqb mode "755"
  | _ => false
  end.

(** The process is in [d], and since the trace was [tr0] only
    configuration events have happened. *)
Definition since (d : string) (tr0 : list event) (st : state) : Prop :=
  cwd st = [d]
  /\ exists more, trace st = tr0 ++ more
       /\ Forall (fun e => configuring d e = true) more.

(** [m] keeps [since d tr0] and never ends the process. *)
Definition confined {A : Type} (d : string) (tr0 : list event) (m : M A) : Prop :=
  triple (since d tr0) m
    (fun _ => since d tr0) (fun _ => since d tr0) (fun _ _ => False).

(** The process is in [d], and there each file of [fs] has its text. *)
Definition agrees (d : string) (fs : list (list string * string)) (st : state) : Prop :=
  cwd st = [d]
  /\ Forall (fun f => content <$> (files st !! (d :: f.1)) = Some (Some f.2)) fs.

(** Started where the files [fs] have their texts, [m] completes only
    where the files [fs'] have theirs. *)
Definition sets {A : Type} (d : string) (fs : list (list string * string))
    (m : M A) (fs' : list (list string * string)) : Prop :=
  triple (agrees d fs) m
    (fun _ => agrees d fs') (fun _ _ => True) (fun _ _ => True).

Definition is_chmod (e : event) : bool :=
  match e with
  | Chmod _ _ _ => true
  | _ => false
  end.

(** The locations a trace writes, in order. *)
Definition written (tr : list event) : list (list string) :=
  omap (fun e => match e with WriteFile l _ => Some l | _ => None end) tr.

(** Whenever [m] completes, it has written the paths [ps] of the working
    directory, in this order, and has stayed in that directory. *)
Definition writes {A : Type} (m : M A) (ps : list (list string)) : Prop :=
  forall st a st',
    m st = Next a st' ->
    cwd st' = cwd st
    /\ written (trace st') = written (trace st) ++ map (app (cwd st)) ps.

(** The paths lines 71-244 write, in the order of the source. *)
Definition write_order : list (list string) :=
  [ [".postcssrc.json"]; ["src"; "styles.scss"]; [".prettierrc"];
    [".prettierignore"]; ["eslint.config.js"]; ["package.json"];
    [".husky"; "pre-commit"]; ["package.json"] ].

(** A state inside a project whose manifest has a name and nothing
    else, and one where the hook directory and a hook are there already. *)
Definition bare : state :=
  {| cwd := ["demo"];
     files := <[ ["demo"; "package.json"] :=
                   File (JSON_stringify (JObj [ ("name", JStr "demo") ])) None ]>
                (<[ ["demo"] := Dir ]> ∅);
     trace := [] |}.

Definition hooked : state :=
  {| cwd := ["demo"];
     files := <[ ["demo"; ".husky"; "pre-commit"] := File "npm test" None ]>
                (<[ ["demo"; ".husky"] := Dir ]> (<[ ["demo"] := Dir ]> ∅));
     trace := [] |}.

End Pipeline.
Import Pipeline.


(* ===================================================================== *)
(** ** Facts about strings *)
(* ===================================================================== *)

#[local] Arguments String.append : simpl nomatch.

Section StringFacts.

Lemma app_assoc_s (a b c : string) : (a +:+ b) +:+ c = a +:+ (b +:+ c).
Proof. induction a as [|x a IH]; cbn; [reflexivity | f_equal; exact IH]. Qed.

Lemma app_nil_s (a : string) : a +:+ "" = a.
Proof. induction a as [|x a IH]; cbn; [reflexivity | f_equal; exact IH]. Qed.

Lemma length_app_s (a b : string) :
  String.length (a +:+ b) = String.length a + String.length b.
Proof. induction a as [|x a IH]; cbn; [reflexivity | f_equal; exact IH]. Qed.

End StringFacts.

(* ===================================================================== *)
(** ** Facts about properties *)
(* ===================================================================== *)

Section PropertyFacts.

Implicit Types (k : string) (v : json) (ps : props).

Lemma has_key_spec k ps : has_key k ps = true <-> In k (keys ps).
Proof.
  unfold has_key. induction ps as [|[k' v'] ps IH]; simpl.
  - split; [discriminate | tauto].
  - destruct (String.eqb_spec k k') as [->|Hne].
    + split; auto.
    + rewrite IH. split; [tauto | intros [H|H]; [congruence | exact H]].
Qed.

Lemma has_key_false k ps : has_key k ps = false <-> ~ In k (keys ps).
Proof.
  rewrite <- has_key_spec. destruct (has_key k ps); split; congruence.
Qed.

Lemma obj_get_None k ps : obj_get k ps = None <-> ~ In k (keys ps).
Proof.
  rewrite <- has_key_false. unfold has_key.
  destruct (obj_get k ps); split; congruence.
Qed.

Lemma keys_replace k v ps : keys (obj_replace k v ps) = keys ps.
Proof.
  induction ps as [|[k' v'] ps IH]; simpl; [reflexivity|].
  destruct (String.eqb k k'); simpl; [reflexivity | now rewrite IH].
Qed.

Lemma obj_get_replace k k' v ps :
  obj_get k' (obj_replace k v ps) =
  if String.eqb k' k && has_key k ps then Some v else obj_get k' ps.
Proof.
  unfold has_key. induction ps as [|[k0 v0] ps IH]; simpl.
  - now rewrite andb_false_r.
  - destruct (String.eqb_spec k k0) as [->|Hne]; simpl.
    + destruct (String.eqb_spec k' k0); reflexivity.
    + rewrite IH. destruct (String.eqb_spec k' k0) as [->|Hne'].
      * destruct (String.eqb_spec k0 k); [congruence | reflexivity].
      * reflexivity.
Qed.

Lemma obj_get_insert_index_eq i k v ps :
  has_key k ps = false -> obj_get k (obj_insert_index i k v ps) = Some v.
Proof.
  unfold has_key.
  induction ps as [|[k0 v0] ps IH]; simpl; intros Hk.
  - now rewrite String.eqb_refl.
  - destruct (String.eqb_spec k k0) as [->|Hne]; [discriminate|].
    destruct (index_of_key k0) as [j|]; [destruct (j <=? i)%N|]; simpl;
      rewrite ?String.eqb_refl; try reflexivity.
    destruct (String.eqb_spec k k0); [congruence | auto].
Qed.

Lemma obj_get_insert_index_ne i k k' v ps :
  k' <> k -> obj_get k' (obj_insert_index i k v ps) = obj_get k' ps.
Proof.
  intros Hne. induction ps as [|[k0 v0] ps IH]; simpl.
  - destruct (String.eqb_spec k' k); [congruence | reflexivity].
  - destruct (index_of_key k0) as [j|]; [destruct (j <=? i)%N|]; simpl;
      rewrite ?IH; destruct (String.eqb_spec k' k); try congruence; reflexivity.
Qed.

Lemma obj_get_app k ps qs :
  obj_get k (ps ++ qs) =
  match obj_get k ps with Some v => Some v | None => obj_get k qs end.
Proof.
  induction ps as [|[k0 v0] ps IH]; simpl; [reflexivity|].
  destruct (String.eqb k k0); [reflexivity | exact IH].
Qed.

(** Reading back the property just written. *)
Lemma obj_get_set_eq k v ps : obj_get k (obj_set k v ps) = Some v.
Proof.
  unfold obj_set. destruct (has_key k ps) eqn:Hk.
  - rewrite obj_get_replace, String.eqb_refl, Hk. reflexivity.
  - destruct (index_of_key k) as [i|].
    + now apply obj_get_insert_index_eq.
    + rewrite obj_get_app. unfold has_key in Hk.
      destruct (obj_get k ps); [discriminate|].
      simpl. now rewrite String.eqb_refl.
Qed.

(** Writing a property leaves the others as they are. *)
Lemma obj_get_set_ne k k' v ps :
  k' <> k -> obj_get k' (obj_set k v ps) = obj_get k' ps.
Proof.
  intros Hne. unfold obj_set. destruct (has_key k ps) eqn:Hk.
  - rewrite obj_get_replace.
    destruct (String.eqb_spec k' k); [congruence | reflexivity].
  - destruct (index_of_key k) as [i|].
    + now apply obj_get_insert_index_ne.
    + rewrite obj_get_app. destruct (obj_get k' ps); [reflexivity|].
      simpl. destruct (String.eqb_spec k' k); [congruence | reflexivity].
Qed.

Lemma in_keys_insert_index i k v ps x :
  In x (keys (obj_insert_index i k v ps)) <-> x = k \/ In x (keys ps).
Proof.
  induction ps as [|[k0 v0] ps IH]; simpl.
  - intuition.
  - destruct (index_of_key k0) as [j|]; [destruct (j <=? i)%N|]; simpl;
      rewrite ?IH; intuition.
Qed.

Lemma in_keys_set k v ps x :
  In x (keys (obj_set k v ps)) <-> x = k \/ In x (keys ps).
Proof.
  unfold obj_set. destruct (has_key k ps) eqn:Hk.
  - rewrite keys_replace. apply has_key_spec in Hk.
    split; [auto | intros [->|H]; auto].
  - destruct (index_of_key k) as [i|].
    + apply in_keys_insert_index.
    + unfold keys. rewrite map_app, in_app_iff. simpl. intuition.
Qed.

(** *** Enumeration order *)

Lemma enumerated_app ks ks' :
  enumerated (ks ++ ks') =
  enumerated ks && enumerated ks'
  && forallb (fun x => forallb (precedes x) ks') ks.
Proof.
  induction ks as [|x ks IH]; simpl.
  - now rewrite andb_true_r.
  - rewrite forallb_app, IH.
    destruct (forallb (precedes x) ks), (enumerated ks), (enumerated ks'),
      (forallb (precedes x) ks'); reflexivity.
Qed.

Lemma precedes_ne x y : precedes x y = true -> x <> y.
Proof.
  unfold precedes. intros H%andb_prop. destruct H as [H _].
  apply negb_true_iff, String.eqb_neq in H. exact H.
Qed.

(** After a key that is not an index, no index key follows. *)
Lemma precedes_plain x y :
  index_of_key x = None -> precedes x y = true -> index_of_key y = None.
Proof.
  unfold precedes. intros -> H%andb_prop. destruct H as [_ H].
  destruct (index_of_key y); [discriminate | reflexivity].
Qed.

Lemma precedes_index x y i :
  index_of_key y = Some i -> precedes x y = true ->
  exists j, index_of_key x = Some j /\ (j <= i)%N.
Proof.
  unfold precedes. intros -> H%andb_prop. destruct H as [_ H].
  destruct (index_of_key x) as [j|]; [|discriminate].
  exists j. split; [reflexivity | now apply N.leb_le].
Qed.

Lemma enumerated_insert_index i k v ps :
  index_of_key k = Some i -> ~ In k (keys ps) ->
  enumerated (keys ps) = true ->
  enumerated (keys (obj_insert_index i k v ps)) = true.
Proof.
  intros Hi. induction ps as [|[k0 v0] ps IH]; simpl; intros Hk Hps.
  - reflexivity.
  - apply andb_prop in Hps as [Hall Hps].
    assert (Hne : k0 <> k) by tauto.
    assert (Hfront : forall y, In y (keys ps) -> precedes k0 y = true)
      by (now apply forallb_forall).
    destruct (index_of_key k0) as [j|] eqn:Hj.
    + destruct (j <=? i)%N eqn:Hji; simpl.
      * apply andb_true_intro. split; [|apply IH; tauto].
        apply forallb_forall. intros y Hy%in_keys_insert_index.
        destruct Hy as [->|Hy]; [|auto].
        unfold precedes. rewrite Hj, Hi, Hji.
        apply String.eqb_neq in Hne. now rewrite Hne.
      * apply andb_true_intro. split.
        -- apply andb_true_intro. split.
           ++ unfold precedes. rewrite Hj, Hi.
              assert (Hkk : k <> k0) by congruence.
              apply String.eqb_neq in Hkk. rewrite Hkk. simpl.
              apply N.leb_le. apply N.leb_gt in Hji. lia.
           ++ apply forallb_forall. intros y Hy.
              assert (Hky : k <> y) by (intros ->; tauto).
              specialize (Hfront y Hy). unfold precedes in *.
              apply String.eqb_neq in Hky. rewrite Hky, Hi. simpl.
              rewrite Hj in Hfront. apply andb_prop in Hfront as [_ Hfront].
              destruct (index_of_key y) as [m|]; [|reflexivity].
              apply N.leb_le. apply N.leb_le in Hfront.
              apply N.leb_gt in Hji. lia.
        -- simpl. now rewrite Hall, Hps.
    + simpl. apply andb_true_intro. split; [|now rewrite Hall, Hps].
      apply andb_true_intro. split.
      * unfold precedes. rewrite Hi, Hj.
        assert (Hkk : k <> k0) by congruence.
        apply String.eqb_neq in Hkk. now rewrite Hkk.
      * apply forallb_forall. intros y Hy.
        assert (Hky : k <> y) by (intros ->; tauto).
        unfold precedes. apply String.eqb_neq in Hky. rewrite Hky, Hi.
        now rewrite (precedes_plain k0 y Hj (Hfront y Hy)).
Qed.

(** Property assignment keeps the enumeration order. *)
Lemma enumerated_set k v ps :
  enumerated (keys ps) = true -> enumerated (keys (obj_set k v ps)) = true.
Proof.
  intros Hps. unfold obj_set. destruct (has_key k ps) eqn:Hk.
  - now rewrite keys_replace.
  - apply has_key_false in Hk. destruct (index_of_key k) as [i|] eqn:Hi.
    + now apply enumerated_insert_index.
    + unfold keys. rewrite map_app, enumerated_app. fold (keys ps).
      rewrite Hps. simpl. apply forallb_forall. intros x Hx.
      rewrite andb_true_r. unfold precedes. rewrite Hi.
      assert (Hne : x <> k) by (intros ->; tauto).
      apply String.eqb_neq in Hne. rewrite Hne.
      now destruct (index_of_key x).
Qed.

Lemma values_set (P : json -> bool) k v ps :
  P v = true -> forallb (fun p => P (snd p)) ps = true ->
  forallb (fun p => P (snd p)) (obj_set k v ps) = true.
Proof.
  intros Hv Hps. apply forallb_forall. intros [k' v'] Hin. simpl.
  destruct (String.eqb_spec k' k) as [->|Hne].
  - assert (H : obj_get k (obj_set k v ps) = Some v) by apply obj_get_set_eq.
    (* the value under [k] is [v] wherever it stands *)
    revert Hin. unfold obj_set. destruct (has_key k ps) eqn:Hk.
    + clear H. induction ps as [|[k0 v0] ps IH]; simpl; [tauto|].
      simpl in Hps. apply andb_prop in Hps as [H0 Hps].
      destruct (String.eqb_spec k k0) as [->|Hne].
      * intros [[= <-]|Hin]; [exact Hv|].
        rewrite forallb_forall in Hps. apply (Hps (k0, v') Hin).
      * intros [[= -> <-]|Hin]; [exact H0|].
        unfold has_key in Hk. simpl in Hk.
        destruct (String.eqb_spec k k0); [congruence|]. auto.
    + clear H. destruct (index_of_key k) as [i|].
      * induction ps as [|[k0 v0] ps IH]; simpl.
        -- intros [[= <-]|[]]. exact Hv.
        -- simpl in Hps. apply andb_prop in Hps as [H0 Hps].
           assert (Hk' : has_key k ps = false).
           { unfold has_key in *. simpl in Hk.
             destruct (String.eqb k k0); [discriminate | exact Hk]. }
           destruct (index_of_key k0) as [j|]; [destruct (j <=? i)%N|]; simpl.
           ++ intros [[= -> <-]|Hin]; [exact H0 | auto].
           ++ intros [[= <-]|[[= -> <-]|Hin]]; [exact Hv | exact H0 |].
              rewrite forallb_forall in Hps. apply (Hps (k, v') Hin).
           ++ intros [[= <-]|[[= -> <-]|Hin]]; [exact Hv | exact H0 |].
              rewrite forallb_forall in Hps. apply (Hps (k, v') Hin).
      * rewrite in_app_iff. simpl. intros [Hin|[[= <-]|[]]]; [|exact Hv].
        rewrite forallb_forall in Hps. apply (Hps (k, v') Hin).
  - revert Hin. unfold obj_set. destruct (has_key k ps) eqn:Hk.
    + clear Hk. induction ps as [|[k0 v0] ps IH]; simpl; [tauto|].
      simpl in Hps. apply andb_prop in Hps as [H0 Hps].
      destruct (String.eqb_spec k k0) as [->|Hne0].
      * intros [[= -> _]|Hin]; [congruence|].
        rewrite forallb_forall in Hps. apply (Hps (k', v') Hin).
      * intros [[= -> <-]|Hin]; [exact H0 | auto].
    + destruct (index_of_key k) as [i|].
      * clear Hk. induction ps as [|[k0 v0] ps IH]; simpl.
        -- intros [[= -> _]|[]]. congruence.
        -- simpl in Hps. apply andb_prop in Hps as [H0 Hps].
           destruct (index_of_key k0) as [j|]; [destruct (j <=? i)%N|]; simpl.
           ++ intros [[= -> <-]|Hin]; [exact H0 | auto].
           ++ intros [[= -> _]|[[= -> <-]|Hin]]; [congruence | exact H0 |].
              rewrite forallb_forall in Hps. apply (Hps (k', v') Hin).
           ++ intros [[= -> _]|[[= -> <-]|Hin]]; [congruence | exact H0 |].
              rewrite forallb_forall in Hps. apply (Hps (k', v') Hin).
      * rewrite in_app_iff. simpl. intros [Hin|[[= -> _]|[]]]; [|congruence].
        rewrite forallb_forall in Hps. apply (Hps (k', v') Hin).
Qed.

Lemma insert_index_snoc i k v ps :
  (forall x, In x (keys ps) ->
     exists j, index_of_key x = Some j /\ (j <= i)%N) ->
  obj_insert_index i k v ps = ps ++ [(k, v)].
Proof.
  induction ps as [|[k0 v0] ps IH]; simpl; intros Hall; [reflexivity|].
  destruct (Hall k0) as (j & -> & Hj); [now left|].
  apply N.leb_le in Hj. rewrite Hj. f_equal. apply IH. auto.
Qed.

Lemma obj_set_snoc k v ps :
  enumerated (keys (ps ++ [(k, v)])) = true ->
  obj_set k v ps = ps ++ [(k, v)].
Proof.
  unfold keys. rewrite map_app, enumerated_app. simpl.
  intros H. apply andb_prop in H as [_ H].
  assert (Hall : forall x, In x (map fst ps) -> precedes x k = true).
  { intros x Hx. rewrite forallb_forall in H. specialize (H x Hx).
    now rewrite andb_true_r in H. }
  assert (Hk : has_key k ps = false).
  { apply has_key_false. intros Hin. now apply (precedes_ne k k (Hall k Hin)). }
  unfold obj_set. rewrite Hk. destruct (index_of_key k) as [i|] eqn:Hi.
  - apply insert_index_snoc. intros x Hx.
    apply (precedes_index x k i Hi). auto.
  - reflexivity.
Qed.

Lemma fold_set_enumerated (ms acc : props) :
  enumerated (keys (acc ++ ms)) = true ->
  fold_left (fun o m => obj_set (fst m) (snd m) o) ms acc = acc ++ ms.
Proof.
  revert acc. induction ms as [|[k v] ms IH]; intros acc H; simpl.
  - now rewrite app_nil_r.
  - replace (acc ++ (k, v) :: ms) with ((acc ++ [(k, v)]) ++ ms) in *
      by (now rewrite <- app_assoc).
    rewrite obj_set_snoc.
    + now apply IH.
    + unfold keys in *. rewrite map_app, enumerated_app in H.
      apply andb_prop in H as [H _]. now apply andb_prop in H as [H _].
Qed.

(** A property list in enumeration order is the object its members build. *)
Lemma obj_of_members_enumerated ps :
  enumerated (keys ps) = true -> obj_of_members ps = ps.
Proof. intros H. unfold obj_of_members. now rewrite fold_set_enumerated. Qed.

Lemma fold_set_invariant (I : props -> Prop) (Q : string * json -> Prop)
    (ms acc : props) :
  (forall k v o, I o -> Q (k, v) -> I (obj_set k v o)) ->
  I acc -> Forall Q ms ->
  I (fold_left (fun o m => obj_set (fst m) (snd m) o) ms acc).
Proof.
  intros Hstep. revert acc.
  induction ms as [|[k v] ms IH]; intros acc Hacc Hms; simpl; [exact Hacc|].
  inversion Hms; subst. apply IH; [|assumption]. now apply Hstep.
Qed.

Lemma enumerated_of_members ms : enumerated (keys (obj_of_members ms)) = true.
Proof.
  apply (fold_set_invariant (fun o => enumerated (keys o) = true)
           (fun _ => True)).
  - intros k v o Ho _. now apply enumerated_set.
  - reflexivity.
  - now apply Forall_forall.
Qed.

Lemma values_of_members (P : json -> bool) ms :
  forallb (fun p => P (snd p)) ms = true ->
  forallb (fun p => P (snd p)) (obj_of_members ms) = true.
Proof.
  intros Hms.
  apply (fold_set_invariant
           (fun o => forallb (fun p => P (snd p)) o = true)
           (fun m => P (snd m) = true)).
  - intros k v o Ho Hv. now apply values_set.
  - reflexivity.
  - apply Forall_forall. intros m Hm. rewrite forallb_forall in Hms.
    now apply Hms, list_elem_of_In.
Qed.

End PropertyFacts.




(* ===================================================================== *)
(** ** Reasoning about statements *)
(* ===================================================================== *)

Section Triples.

Context {A B : Type}.

Lemma triple_bind (P : state -> Prop) (m : M A) (k : A -> M B)
    (Q : A -> state -> Prop) (R : B -> state -> Prop) T X :
  triple P m Q T X -> (forall a, triple (Q a) (k a) R T X) ->
  triple P (bind m k) R T X.
Proof.
  intros Hm Hk st HP. unfold bind. specialize (Hm st HP).
  destruct (m st) as [a st'|e st'|c st']; [now apply Hk | exact Hm | exact Hm].
Qed.

Lemma triple_weaken (P P' : state -> Prop) (m : M A)
    (Q Q' : A -> state -> Prop) (T T' : error -> state -> Prop)
    (X X' : Z -> state -> Prop) :
  triple P m Q T X ->
  (forall st, P' st -> P st) -> (forall a st, Q a st -> Q' a st) ->
  (forall e st, T e st -> T' e st) -> (forall c st, X c st -> X' c st) ->
  triple P' m Q' T' X'.
Proof.
  intros Hm HP HQ HT HX st H. specialize (Hm st (HP st H)).
  destruct (m st); auto.
Qed.

Lemma triple_try_catch (P : state -> Prop) (body : M A) handler
    (Q : A -> state -> Prop) (T T' : error -> state -> Prop) X :
  triple P body Q T' X -> (forall e, triple (T' e) (handler e) Q T X) ->
  triple P (try_catch body handler) Q T X.
Proof.
  intros Hb Hh st HP. unfold try_catch. specialize (Hb st HP).
  destruct (body st) as [a st'|e st'|c st']; [exact Hb | now apply Hh | exact Hb].
Qed.

End Triples.


Lemma final_finish r : final (finish r) = state_of r.
Proof. now destruct r. Qed.

Lemma triple_conj {A : Type} (m : M A) (P P' : state -> Prop)
    (Q Q' : A -> state -> Prop) (T T' : error -> state -> Prop)
    (X X' : Z -> state -> Prop) :
  triple P m Q T X -> triple P' m Q' T' X' ->
  triple (fun st => P st /\ P' st) m
    (fun a st => Q a st /\ Q' a st)
    (fun e st => T e st /\ T' e st)
    (fun c st => X c st /\ X' c st).
Proof.
  intros H H' st [HP HP']. specialize (H st HP). specialize (H' st HP').
  now destruct (m st).
Qed.

(* ===================================================================== *)
(** ** Fail-fast *)
(* ===================================================================== *)

Section FailFast.

Variable E : env.

Lemma clean_snoc tr e : clean tr -> exec_ok e = true -> clean (tr ++ [e]).
Proof. intros H He. apply Forall_app. split; [exact H | now constructor]. Qed.

Lemma fail_fast_bind {A B : Type} (m : M A) (k : A -> M B) :
  fail_fast m -> (forall a, fail_fast (k a)) -> fail_fast (bind m k).
Proof. intros Hm Hk. apply (triple_bind _ _ _ _ _ _ _ Hm Hk). Qed.

Lemma fail_fast_ret {A : Type} (a : A) : fail_fast (ret a).
Proof. intros st H. exact H. Qed.

Lemma fail_fast_throw {A : Type} e : fail_fast (@throw A e).
Proof. intros st H. exact H. Qed.

Lemma fail_fast_exit {A : Type} c : fail_fast (@process_exit A c).
Proof. intros st H. now left. Qed.

(** A statement that runs no command is fail-fast when it never ends the
    process and its events are its own. *)
Ltac quiet :=
  let st := fresh "st" in
  let H := fresh "H" in
  intros st H; cbv beta zeta iota delta [console_log console_error process_chdir
    fs_writeFileSync fs_readFileSync fs_existsSync fs_mkdirSync_recursive
    fs_chmodSync emit with_files];
  repeat case_match; simplify_eq; cbn [trace]; try exact H;
  now apply clean_snoc.

Lemma fail_fast_log line : fail_fast (console_log line).
Proof. quiet. Qed.

Lemma fail_fast_error line : fail_fast (console_error line).
Proof. quiet. Qed.

Lemma fail_fast_chdir d : fail_fast (process_chdir d).
Proof. quiet. Qed.

Lemma fail_fast_write p c : fail_fast (fs_writeFileSync p c).
Proof. quiet. Qed.

Lemma fail_fast_read p : fail_fast (fs_readFileSync p).
Proof. quiet. Qed.

Lemma fail_fast_exists p : fail_fast (fs_existsSync p).
Proof. quiet. Qed.

Lemma fail_fast_mkdir p : fail_fast (fs_mkdirSync_recursive p).
Proof. quiet. Qed.

Lemma fail_fast_chmod p mode : fail_fast (fs_chmodSync E p mode).
Proof. quiet. Qed.

Lemma fail_fast_when b (m : M unit) : fail_fast m -> fail_fast (when b m).
Proof. intros Hm. destruct b; [exact Hm | apply fail_fast_ret]. Qed.

Lemma fail_fast_catch {A : Type} (body : M A) handler :
  fail_fast body -> (forall e, fail_fast (handler e)) ->
  fail_fast (try_catch body handler).
Proof. intros Hb Hh. apply (triple_try_catch _ _ _ _ _ _ _ Hb Hh). Qed.

(** The one statement that runs a command: a failure ends the process with
    status 1 right after the diagnostic. *)
Lemma fail_fast_executeCommand cmd : fail_fast (executeCommand E cmd).
Proof.
  intros st H. unfold executeCommand, try_catch, execSync.
  destruct (command E cmd (cwd st) (files st)) as [status t'].
  destruct (succeeded status) eqn:Hs.
  - destruct status as [[| |]|]; try discriminate Hs.
    cbn. now apply clean_snoc.
  - assert (Hexit : forall st0, 
      (console_error ("Failed to execute: " +:+ cmd) ;; @process_exit unit 1)
        st0 = Exited 1 (emit (diagnostic cmd) st0)) by reflexivity.
    destruct status as [[| |]|]; try discriminate Hs; rewrite Hexit;
      right; (split; [reflexivity|]); cbn [trace emit with_files];
      rewrite <- app_assoc; eexists _, _, _, _; (split; [reflexivity|]);
      (split; [exact H | exact Hs]).
Qed.

Lemma fail_fast_parse text : fail_fast (JSON_parse_or_throw E text).
Proof.
  unfold JSON_parse_or_throw.
  destruct (parse E text); [apply fail_fast_ret | apply fail_fast_throw].
Qed.

Lemma fail_fast_assign target key value : fail_fast (assign target key value).
Proof. destruct target; first [apply fail_fast_ret | apply fail_fast_throw]. Qed.

Lemma fail_fast_member target key : fail_fast (member target key).
Proof. destruct target; first [apply fail_fast_ret | apply fail_fast_throw]. Qed.

Lemma fail_fast_log_all ls : fail_fast (log_all ls).
Proof.
  induction ls as [|l ls IH]; cbn [log_all]; [apply fail_fast_ret|].
  apply fail_fast_bind; [apply fail_fast_log | intros _; exact IH].
Qed.

Ltac fail_fast_steps :=
  repeat first
    [ apply fail_fast_executeCommand
    | apply fail_fast_bind; [|intros ?]
    | apply fail_fast_when
    | apply fail_fast_catch; [|intros ?]
    | apply fail_fast_log | apply fail_fast_error | apply fail_fast_exit
    | apply fail_fast_chdir | apply fail_fast_write | apply fail_fast_read
    | apply fail_fast_exists | apply fail_fast_mkdir | apply fail_fast_chmod
    | apply fail_fast_parse | apply fail_fast_assign | apply fail_fast_member
    | apply fail_fast_log_all | apply fail_fast_ret ].

Lemma fail_fast_main argv : fail_fast (main E argv).
Proof.
  unfold main, checkProjectName, installAll, writeConfigFiles,
    configureLintStaged, setupHuskyHook, addNpmScripts, printSummary,
    printMessage, printWarning.
  fail_fast_steps.
Qed.

(** An element that stands out of its surroundings stands at one place. *)
Lemma split_unique {T : Type} (bad : T -> bool) (l1 l2 l1' l2' : list T) x x' :
  l1 ++ x :: l2 = l1' ++ x' :: l2' -> bad x = true ->
  Forall (fun e => bad e = false) l1' -> Forall (fun e => bad e = false) l2' ->
  l1 = l1' /\ x = x' /\ l2 = l2'.
Proof.
  revert l1'. induction l1 as [|a l1 IH]; intros [|a' l1'] Heq Hx H1 H2;
    cbn in Heq; injection Heq as Ha Heq.
  - now subst.
  - subst a'. inversion H1; subst. congruence.
  - subst l2'. rewrite Forall_app, Forall_cons in H2. destruct H2 as (_ & Hx' & _).
    congruence.
  - subst a'. inversion H1; subst.
    destruct (IH l1' Heq Hx) as (-> & -> & ->); auto.
Qed.

End FailFast.

(** C3. Whenever a command of the pipeline exits with a status other than
    0, the run ends with exit status 1, the diagnostic naming that command
    is the last event, and nothing else happens after the command: no later
    step runs.  (The commands before it had all succeeded.) *)
Theorem command_failure_stops_the_run (E : env) (t : tree) (args : list string)
    (pre post : list event) (cmd : string) (dir : loc) (status : option Z) :
  trace (final (run E t args)) = pre ++ Exec cmd dir status :: post ->
  status <> Some 0%Z ->
  ending (run E t args) = Exit 1
  /\ post = [Stderr ("Failed to execute: " +:+ cmd)]
  /\ clean pre.
Proof.
  intros Htrace Hstatus.
  assert (Hbad : exec_ok (Exec cmd dir status) = false).
  { destruct status as [[| |]|]; try reflexivity. congruence. }
  pose proof (fail_fast_main E ("node" :: "init.js" :: args) (start t)) as H.
  specialize (H ltac:(constructor)). cbv beta in H. unfold run in *.
  destruct (main E _ (start t)) as [[] st|e st|c st]; cbn [finish ending final] in *.
  1,2: exfalso; rewrite Htrace in H;
    apply Forall_app in H as [_ H]; inversion H; congruence.
  destruct H as [H | [-> (pre' & cmd' & dir' & status' & Heq & Hpre & Hst)]].
  - exfalso. rewrite Htrace in H.
    apply Forall_app in H as [_ H]; inversion H; congruence.
  - rewrite Htrace in Heq.
    destruct (split_unique (fun e => negb (exec_ok e)) _ _ _ _ _ _ Heq)
      as (-> & Hx & ->).
    + now rewrite Hbad.
    + eapply Forall_impl; [exact Hpre|]. intros e He. cbn. now rewrite He.
    + repeat constructor.
    + injection Hx as -> _ _. auto.
Qed.


(* ===================================================================== *)
(** ** Invariants of statements *)
(* ===================================================================== *)

Section Keeps.

Variable I : state -> Prop.

Lemma keeps_bind {A B : Type} (m : M A) (k : A -> M B) :
  keeps I m -> (forall a, keeps I (k a)) -> keeps I (bind m k).
Proof. intros Hm Hk. apply (triple_bind _ _ _ _ _ _ _ Hm Hk). Qed.

Lemma keeps_catch {A : Type} (body : M A) handler :
  keeps I body -> (forall e, keeps I (handler e)) ->
  keeps I (try_catch body handler).
Proof. intros Hb Hh. apply (triple_try_catch _ _ _ _ _ _ _ Hb Hh). Qed.

Lemma keeps_ret {A : Type} (a : A) : keeps I (ret a).
Proof. intros st H. exact H. Qed.

Lemma keeps_throw {A : Type} e : keeps I (@throw A e).
Proof. intros st H. exact H. Qed.

Lemma keeps_exit {A : Type} : keeps I (@process_exit A 1).
Proof. intros st H. now split. Qed.

Lemma keeps_when b (m : M unit) : keeps I m -> keeps I (when b m).
Proof. intros Hm. destruct b; [exact Hm | apply keeps_ret]. Qed.

Lemma keeps_parse E text : keeps I (JSON_parse_or_throw E text).
Proof.
  unfold JSON_parse_or_throw.
  destruct (parse E text); [apply keeps_ret | apply keeps_throw].
Qed.

Lemma keeps_assign target key value : keeps I (assign target key value).
Proof. destruct target; first [apply keeps_ret | apply keeps_throw]. Qed.

Lemma keeps_member target key : keeps I (member target key).
Proof. destruct target; first [apply keeps_ret | apply keeps_throw]. Qed.

Lemma keeps_read p : keeps I (fs_readFileSync p).
Proof.
  intros st H. unfold fs_readFileSync.
  destruct (files st !! (cwd st ++ p)) as [[]|]; exact H.
Qed.

Lemma keeps_exists p : keeps I (fs_existsSync p).
Proof. intros st H. exact H. Qed.

Lemma keeps_log_all ls :
  (forall l, keeps I (console_log l)) -> keeps I (log_all ls).
Proof.
  intros Hlog. induction ls as [|l ls IH]; cbn [log_all]; [apply keeps_ret|].
  apply keeps_bind; [apply Hlog | intros _; exact IH].
Qed.

End Keeps.

(* ===================================================================== *)
(** ** Sequencing: the generator, then the directory, then the installs *)
(* ===================================================================== *)

Section Sequencing.

Variable E : env.
Variable d : string.

Lemma settled_emit e st :
  settled d st -> in_dir d e = true -> settled d (emit e st).
Proof.
  intros (Hcwd & banner & rest & Htr & Hrest) He. split; [exact Hcwd|].
  exists banner, (rest ++ [e]). cbn [emit trace]. rewrite Htr. split; [reflexivity|].
  apply Forall_app. split; [exact Hrest | now constructor].
Qed.

Lemma settled_files t st : settled d st -> settled d (with_files t st).
Proof. intros H. exact H. Qed.

Ltac settled_prim :=
  let st := fresh "st" in
  let H := fresh "H" in
  intros st H; cbv beta zeta iota delta [console_log console_error
    fs_writeFileSync fs_mkdirSync_recursive fs_chmodSync execSync];
  repeat case_match; simplify_eq; try exact H;
  apply settled_emit; try apply settled_files; try exact H;
  try reflexivity.

Lemma settled_log line : keeps (settled d) (console_log line).
Proof. settled_prim. Qed.

Lemma settled_error line : keeps (settled d) (console_error line).
Proof. settled_prim. Qed.

Lemma settled_write p c : keeps (settled d) (fs_writeFileSync p c).
Proof. settled_prim. Qed.

Lemma settled_mkdir p : keeps (settled d) (fs_mkdirSync_recursive p).
Proof. settled_prim. Qed.

Lemma settled_chmod p mode : keeps (settled d) (fs_chmodSync E p mode).
Proof. settled_prim. Qed.

Lemma settled_execSync cmd : keeps (settled d) (execSync E cmd).
Proof.
  settled_prim; cbn [in_dir with_files cwd]; apply bool_decide_eq_true;
    now destruct H.
Qed.

Lemma settled_executeCommand cmd : keeps (settled d) (executeCommand E cmd).
Proof.
  apply keeps_catch; [apply settled_execSync|]. intros _.
  apply keeps_bind; [apply settled_error | intros _; apply keeps_exit].
Qed.

Ltac settled_steps :=
  repeat lazymatch goal with
    | |- keeps _ (bind _ _) => apply keeps_bind; [|intros ?]
    | |- keeps _ (executeCommand _ _) => apply settled_executeCommand
    | |- keeps _ (when _ _) => apply keeps_when
    | |- keeps _ (try_catch _ _) => apply keeps_catch; [|intros ?]
    | |- keeps _ (console_log _) => apply settled_log
    | |- keeps _ (console_error _) => apply settled_error
    | |- keeps _ (process_exit _) => apply keeps_exit
    | |- keeps _ (fs_writeFileSync _ _) => apply settled_write
    | |- keeps _ (fs_readFileSync _) => apply keeps_read
    | |- keeps _ (fs_existsSync _) => apply keeps_exists
    | |- keeps _ (fs_mkdirSync_recursive _) => apply settled_mkdir
    | |- keeps _ (fs_chmodSync _ _ _) => apply settled_chmod
    | |- keeps _ (JSON_parse_or_throw _ _) => apply keeps_parse
    | |- keeps _ (assign _ _ _) => apply keeps_assign
    | |- keeps _ (member _ _) => apply keeps_member
    | |- keeps _ (log_all _) => apply keeps_log_all; intros ?
    | |- keeps _ (ret _) => apply keeps_ret
    end.

Lemma settled_installs :
  keeps (settled d)
    (printMessage "Installing dependencies..." ;;
     executeCommand E "npm install tailwindcss @tailwindcss/postcss postcss" ;;
     executeCommand E "npm install -D @angular-eslint/schematics" ;;
     executeCommand E "ng add @angular-eslint/schematics --skip-confirmation" ;;
     executeCommand E "npm install prettier prettier-eslint eslint-config-prettier eslint-plugin-prettier --save-dev" ;;
     executeCommand E "npm install eslint-plugin-unused-imports --save-dev" ;;
     executeCommand E "npm install eslint-plugin-simple-import-sort --save-dev" ;;
     executeCommand E "npm install -D lint-staged husky" ;;
     executeCommand E "npx husky init").
Proof. unfold printMessage. settled_steps. Qed.

Lemma settled_configuration :
  keeps (settled d)
    (writeConfigFiles ;; configureLintStaged E ;; setupHuskyHook E ;;
     addNpmScripts E ;; printSummary d).
Proof.
  unfold writeConfigFiles, configureLintStaged, setupHuskyHook, addNpmScripts,
    printSummary, printMessage, printWarning.
  settled_steps.
Qed.

End Sequencing.


Section SequencingOfTheRun.

Variable E : env.

Lemma installAll_settles d :
  triple (fun st => cwd st = [] /\ trace st = [])
    (installAll E d)
    (fun _ => settled d)
    (fun _ st => no_chdir st \/ settled d st)
    (fun c st => c = 1%Z /\ (no_chdir st \/ settled d st)).
Proof.
  unfold installAll.
  apply triple_bind with
    (Q := fun _ st => cwd st = [] /\ trace st = [Stdout (banner d)]).
  { intros st [Hcwd Htr]. unfold printMessage, console_log.
    cbn [emit trace cwd]. rewrite Htr. now split. }
  intros _. apply triple_bind with
    (Q := fun _ st => cwd st = []
            /\ trace st = [Stdout (banner d); Exec (generation d) [] (Some 0%Z)]).
  { intros st [Hcwd Htr]. unfold executeCommand, try_catch, execSync.
    fold (generation d). rewrite Hcwd.
    destruct (command E (generation d) [] (files st)) as [status t'].
    destruct status as [[| |]|]; cbn [emit with_files trace cwd bind console_error process_exit].
    1: now rewrite Htr.
    all: split; [reflexivity|]; left; red; cbn [emit with_files trace];
      rewrite Htr; repeat constructor. }
  intros _. apply triple_bind with (Q := fun _ => settled d).
  { intros st [Hcwd Htr]. unfold process_chdir. rewrite Hcwd. cbn [app].
    destruct (is_dir (files st) [d]).
    - split; [reflexivity|]. cbn [trace]. rewrite Htr.
      exists (banner d), []. split; [reflexivity | constructor].
    - left. red. rewrite Htr. repeat constructor. }
  intros _.
  eapply triple_weaken; [apply (settled_installs E d) | ..];
    cbv beta; intuition.
Qed.

Lemma run_sequenced t args :
  no_chdir (final (run E t args))
  \/ exists d, args !! 0%nat = Some d /\ settled d (final (run E t args)).
Proof.
  unfold run. rewrite final_finish. unfold main.
  change (("node" :: "init.js" :: args) !! 2%nat) with (args !! 0%nat).
  destruct (args !! 0%nat) as [d|] eqn:Hd; [|left; repeat constructor].
  destruct (falsy (Some d)) eqn:Hf.
  { left. unfold bind, checkProjectName. rewrite Hf. repeat constructor. }
  assert (H : triple (fun st => cwd st = [] /\ trace st = [])
            (checkProjectName (Some d) ;; installAll E (interpolate (Some d)) ;;
             writeConfigFiles ;; configureLintStaged E ;; setupHuskyHook E ;;
             addNpmScripts E ;; printSummary (interpolate (Some d)))
            (fun _ st => no_chdir st \/ settled d st)
            (fun _ st => no_chdir st \/ settled d st)
            (fun c st => c = 1%Z /\ (no_chdir st \/ settled d st))).
  { apply triple_bind with (Q := fun _ st => cwd st = [] /\ trace st = []).
    { intros st H. unfold checkProjectName. now rewrite Hf. }
    intros _. cbn [interpolate].
    apply triple_bind with (Q := fun _ => settled d);
      [apply installAll_settles|].
    intros _. eapply triple_weaken;
      [apply (settled_configuration E d) | ..]; cbv beta; intuition. }
  specialize (H (start t) (conj eq_refl eq_refl)).
  match goal with |- context [state_of ?r] => destruct r end;
    cbn [state_of]; [| |destruct H as [_ H]]; destruct H as [H|H]; eauto.
Qed.

End SequencingOfTheRun.

(** C7. The working directory changes only right after the generator
    command, run in the initial directory, has exited with status 0; the
    directory entered is the project name; and every command after the
    change runs with the new project directory as its working directory. *)
Theorem chdir_after_generation_installs_inside (E : env) (t : tree)
    (args : list string) (pre post : list event) (d : string) :
  trace (final (run E t args)) = pre ++ Chdir d :: post ->
  args !! 0%nat = Some d
  /\ (exists line, pre = [Stdout line; Exec (generation d) [] (Some 0%Z)])
  /\ (forall cmd dir status, In (Exec cmd dir status) post -> dir = [d]).
Proof.
  intros Htrace.
  destruct (run_sequenced E t args) as [H | (d' & Hd & _ & line & rest & Htr & Hrest)].
  - exfalso. red in H. rewrite Htrace in H.
    apply Forall_app in H as [_ H]. inversion H; discriminate.
  - rewrite Htrace in Htr.
    destruct (split_unique is_chdir pre post
                [Stdout line; Exec (generation d') [] (Some 0%Z)] rest
                (Chdir d) (Chdir d') Htr eq_refl) as (-> & [= ->] & ->).
    + repeat constructor.
    + eapply Forall_impl; [exact Hrest|]. intros [] He; try reflexivity.
      discriminate He.
    + split; [exact Hd|]. split; [eauto|].
      intros cmd dir status Hin. rewrite Forall_forall in Hrest.
      specialize (Hrest _ (proj2 (list_elem_of_In _ _) Hin)).
      now apply bool_decide_eq_true in Hrest.
Qed.

(* ===================================================================== *)
(** ** The two updates of the package manifest *)
(* ===================================================================== *)

Section ManifestUpdates.

Variable E : env.

Lemma parent_snoc (l : loc) x : parent (l ++ [x]) = l.
Proof. apply removelast_last. Qed.

Lemma lintStaged_rules : lintStaged = three_rules.
Proof. reflexivity. Qed.

Lemma printMessage_decorated message :
  printMessage message = console_log (decorated message).
Proof. reflexivity. Qed.

Lemma parsed_file st v :
  parsed E st = Some v ->
  exists text mode,
    files st !! (cwd st ++ ["package.json"]) = Some (File text mode)
    /\ parse E text = Some v.
Proof.
  unfold parsed, package_text.
  destruct (files st !! (cwd st ++ ["package.json"])) as [[text mode|]|];
    try discriminate.
  eauto.
Qed.

(** What lines 203-212 do when the manifest is there and is read. *)
Lemma configureLintStaged_runs st text mode v :
  files st !! (cwd st ++ ["package.json"]) = Some (File text mode) ->
  parse E text = Some v -> v <> JNull -> is_dir (files st) (cwd st) = true ->
  configureLintStaged E st =
  Next tt
    {| cwd := cwd st;
       files := <[cwd st ++ ["package.json"] :=
                    File (JSON_stringify (with_lint_staged v)) mode]> (files st);
       trace := trace st ++
                [ Stdout (decorated "Configuring lint-staged...");
                  WriteFile (cwd st ++ ["package.json"])
                    (JSON_stringify (with_lint_staged v)) ] |}.
Proof.
  intros Hfile Hparse Hnull Hdir.
  unfold configureLintStaged, bind. rewrite printMessage_decorated.
  unfold console_log, fs_readFileSync, file_name, JSON_parse_or_throw.
  cbn [emit cwd files trace]. rewrite Hfile, Hparse. cbn [ret].
  assert (Hassign : forall s, assign v "lint-staged" lintStaged s
                              = Next (with_lint_staged v) s)
    by (destruct v; intros; try reflexivity; congruence).
  rewrite Hassign. unfold fs_writeFileSync.
  cbv beta zeta. cbn [emit with_files cwd files trace].
  rewrite parent_snoc, Hdir, Hfile. unfold emit, with_files.
  cbn [cwd files trace]. now rewrite <- app_assoc.
Qed.

(** What lines 234-244 do when the manifest is there and is read. *)
Lemma addNpmScripts_runs st text mode v :
  files st !! (cwd st ++ ["package.json"]) = Some (File text mode) ->
  parse E text = Some v -> v <> JNull -> is_dir (files st) (cwd st) = true ->
  addNpmScripts E st =
  Next tt
    {| cwd := cwd st;
       files := <[cwd st ++ ["package.json"] :=
                    File (JSON_stringify (with_scripts v)) mode]> (files st);
       trace := trace st ++
                [ Stdout (decorated "Adding npm scripts...");
                  WriteFile (cwd st ++ ["package.json"])
                    (JSON_stringify (with_scripts v)) ] |}.
Proof.
  intros Hfile Hparse Hnull Hdir.
  unfold addNpmScripts, bind. rewrite printMessage_decorated.
  unfold console_log, fs_readFileSync, file_name, JSON_parse_or_throw.
  cbn [emit cwd files trace]. rewrite Hfile, Hparse. cbn [ret].
  destruct v as [| b | n | s | xs | ps]; [congruence|..];
    cbn [member assign ret with_scripts]; unfold fs_writeFileSync;
    cbv beta zeta; cbn [emit with_files cwd files trace];
    rewrite parent_snoc, Hdir, Hfile; unfold emit, with_files;
    cbn [cwd files trace]; now rewrite <- app_assoc.
Qed.

(** The state an update leaves: the same directory, still there, and the
    manifest with the text written. *)
Lemma written_state st l text mode :
  is_dir (files st) (cwd st) = true -> l = cwd st ++ ["package.json"] ->
  forall tr,
    let st' := {| cwd := cwd st; files := <[l := File text mode]> (files st);
                  trace := tr |} in
    is_dir (files st') (cwd st') = true /\ package_text st' = Some text.
Proof.
  intros Hdir -> tr. cbn zeta. split.
  - unfold is_dir in *. cbn [cwd files]. rewrite lookup_insert_ne; [exact Hdir|].
    intros Heq. apply (f_equal length) in Heq. rewrite length_app in Heq.
    cbn in Heq. lia.
  - unfold package_text. cbn [cwd files]. now rewrite lookup_insert_eq.
Qed.

Lemma lint_staged_written st v :
  parsed E st = Some v -> v <> JNull -> is_dir (files st) (cwd st) = true ->
  exists st',
    configureLintStaged E st = Next tt st'
    /\ cwd st' = cwd st
    /\ is_dir (files st') (cwd st') = true
    /\ package_text st' = Some (JSON_stringify (with_lint_staged v)).
Proof.
  intros Hp Hnull Hdir. destruct (parsed_file st v Hp) as (text & mode & Hfile & Hparse).
  rewrite (configureLintStaged_runs st text mode v Hfile Hparse Hnull Hdir).
  eexists. split; [reflexivity|]. split; [reflexivity|].
  now apply written_state.
Qed.

Lemma scripts_written st v :
  parsed E st = Some v -> v <> JNull -> is_dir (files st) (cwd st) = true ->
  exists st',
    addNpmScripts E st = Next tt st'
    /\ cwd st' = cwd st
    /\ is_dir (files st') (cwd st') = true
    /\ package_text st' = Some (JSON_stringify (with_scripts v)).
Proof.
  intros Hp Hnull Hdir. destruct (parsed_file st v Hp) as (text & mode & Hfile & Hparse).
  rewrite (addNpmScripts_runs st text mode v Hfile Hparse Hnull Hdir).
  eexists. split; [reflexivity|]. split; [reflexivity|].
  now apply written_state.
Qed.

End ManifestUpdates.

(* ===================================================================== *)
(** ** What is read back from a serialisation *)
(* ===================================================================== *)

Section Norm.

Lemma json_induction (P : json -> Prop) :
  P JNull -> (forall b, P (JBool b)) -> (forall x, P (JNum x)) ->
  (forall s, P (JStr s)) ->
  (forall xs, Forall P xs -> P (JArr xs)) ->
  (forall ps, Forall (fun p => P (snd p)) ps -> P (JObj ps)) ->
  forall v, P v.
Proof.
  intros Hnull Hbool Hnum Hstr Harr Hobj.
  fix IH 1. intros [| b | x | s | xs | ps].
  - exact Hnull.
  - apply Hbool.
  - apply Hnum.
  - apply Hstr.
  - apply Harr. induction xs as [|y xs IHxs]; constructor; [apply IH | exact IHxs].
  - apply Hobj. induction ps as [|[k y] ps IHps]; constructor;
      [apply IH | exact IHps].
Qed.

Lemma norm_object ps : norm (JObj ps) = JObj (norm_props ps).
Proof. reflexivity. Qed.

Lemma keys_norm ps : keys (norm_props ps) = keys ps.
Proof. unfold keys, norm_props. rewrite map_map. now apply map_ext. Qed.

Lemma obj_get_norm k ps : obj_get k (norm_props ps) = norm <$> obj_get k ps.
Proof.
  induction ps as [|[k' v] ps IH]; cbn; [reflexivity|].
  destruct (String.eqb k k'); [reflexivity | exact IH].
Qed.

Lemma has_key_norm k ps : has_key k (norm_props ps) = has_key k ps.
Proof. unfold has_key. rewrite obj_get_norm. now destruct (obj_get k ps). Qed.

Lemma replace_norm k v ps :
  norm_props (obj_replace k v ps) = obj_replace k (norm v) (norm_props ps).
Proof.
  unfold norm_props in *.
  induction ps as [|[k' v'] ps IH]; cbn; [reflexivity|].
  destruct (String.eqb k k'); cbn; [reflexivity | f_equal; exact IH].
Qed.

Lemma insert_index_norm i k v ps :
  norm_props (obj_insert_index i k v ps)
  = obj_insert_index i k (norm v) (norm_props ps).
Proof.
  unfold norm_props in *.
  induction ps as [|[k' v'] ps IH]; cbn; [reflexivity|].
  destruct (index_of_key k') as [j|]; [|reflexivity].
  destruct (j <=? i)%N; cbn; [f_equal; exact IH | reflexivity].
Qed.

Lemma set_norm k v ps :
  norm_props (obj_set k v ps) = obj_set k (norm v) (norm_props ps).
Proof.
  unfold obj_set. rewrite has_key_norm. destruct (has_key k ps).
  - apply replace_norm.
  - destruct (index_of_key k); [apply insert_index_norm|].
    unfold norm_props. now rewrite map_app.
Qed.

Lemma fold_set_norm ms acc :
  norm_props (fold_left (fun o m => obj_set (fst m) (snd m) o) ms acc)
  = fold_left (fun o m => obj_set (fst m) (snd m) o) (norm_props ms)
      (norm_props acc).
Proof.
  revert acc. induction ms as [|[k v] ms IH]; intros acc; cbn; [reflexivity|].
  rewrite IH. now rewrite set_norm.
Qed.

Lemma of_members_norm ms :
  norm_props (obj_of_members ms) = obj_of_members (norm_props ms).
Proof. apply (fold_set_norm ms []). Qed.

Lemma indexed_norm {A : Type} (f : A -> json) (xs : list A) :
  norm_props (indexed f xs) = indexed (fun x => norm (f x)) xs.
Proof.
  unfold indexed, norm_props.
  etrans; [apply (@fmap_imap _ _ (fun i x => (show_nat i, f x)) _
                    (fun p => (fst p, norm (snd p))) xs) | reflexivity].
Qed.

Lemma indexed_map {A B : Type} (h : A -> B) (f : B -> json) (xs : list A) :
  indexed f (map h xs) = indexed (fun x => f (h x)) xs.
Proof.
  unfold indexed.
  etrans; [apply (@imap_fmap _ _ (fun i y => (show_nat i, f y)) _ h xs)
          | reflexivity].
Qed.

Lemma spread_norm x : spread (Some (norm x)) = norm_props (spread (Some x)).
Proof.
  destruct x as [| b | [n| |s|] | s | xs | ps]; try reflexivity; cbn [norm spread].
  - now rewrite indexed_norm.
  - now rewrite indexed_norm, indexed_map.
Qed.

Lemma scriptsLiteral_norm existing :
  norm (scriptsLiteral existing) = scriptsLiteral (norm <$> existing).
Proof.
  unfold scriptsLiteral, object_literal. rewrite norm_object, of_members_norm.
  unfold norm_props at 1. rewrite map_app. f_equal. f_equal. f_equal.
  destruct existing as [x|]; [|reflexivity]. cbn [fmap option_fmap option_map].
  now rewrite spread_norm.
Qed.

Lemma with_scripts_norm v : norm (with_scripts v) = with_scripts (norm v).
Proof.
  destruct v as [| b | [n| |s|] | s | xs | ps]; try reflexivity.
  cbn [with_scripts]. rewrite !norm_object. cbn [with_scripts].
  now rewrite set_norm, scriptsLiteral_norm, obj_get_norm.
Qed.

Lemma with_lint_staged_norm v :
  norm (with_lint_staged v) = with_lint_staged (norm v).
Proof.
  destruct v as [| b | [n| |s|] | s | xs | ps]; try reflexivity.
  cbn [with_lint_staged]. rewrite !norm_object. cbn [with_lint_staged].
  now rewrite set_norm.
Qed.

Lemma ser_more_ext {A : Type} (f g : A -> string) ind xs :
  Forall (fun x => f x = g x) xs -> ser_more f ind xs = ser_more g ind xs.
Proof.
  induction 1 as [|x xs Hx _ IH]; cbn; [reflexivity|]. now rewrite Hx, IH.
Qed.

Lemma ser_block_ext {A : Type} open close (f g : A -> string) ind xs :
  Forall (fun x => f x = g x) xs ->
  ser_block open close f ind xs = ser_block open close g ind xs.
Proof.
  intros H. destruct H as [|x xs Hx Hxs]; cbn; [reflexivity|].
  now rewrite Hx, (ser_more_ext f g _ xs Hxs).
Qed.

Lemma ser_more_map {A B : Type} (h : A -> B) (f : B -> string) ind xs :
  ser_more f ind (map h xs) = ser_more (fun x => f (h x)) ind xs.
Proof. induction xs as [|x xs IH]; cbn; [reflexivity|]. now rewrite IH. Qed.

Lemma ser_block_map {A B : Type} open close (h : A -> B) (f : B -> string) ind xs :
  ser_block open close f ind (map h xs)
  = ser_block open close (fun x => f (h x)) ind xs.
Proof. destruct xs as [|x xs]; cbn; [reflexivity|]. now rewrite ser_more_map. Qed.

(** A value and what is read back from it are written alike. *)
Lemma ser_norm v : forall ind, ser ind (norm v) = ser ind v.
Proof.
  induction v as [| b | [n| |s|] | s | xs IH | ps IH] using json_induction;
    intros ind; try reflexivity.
  - cbn [norm ser]. rewrite ser_block_map. apply ser_block_ext.
    eapply Forall_impl; [exact IH|]. intros x Hx. apply Hx.
  - cbn [norm ser]. rewrite ser_block_map. apply ser_block_ext.
    eapply Forall_impl; [exact IH|]. intros [k x] Hx. cbn [fst snd] in *.
    now rewrite Hx.
Qed.

Lemma stringify_norm v : JSON_stringify (norm v) = JSON_stringify v.
Proof. apply ser_norm. Qed.

End Norm.


Section ScriptsLiteral.

Lemma fold_set_app (ms ms' acc : props) :
  fold_left (fun o m => obj_set (fst m) (snd m) o) (ms ++ ms') acc =
  fold_left (fun o m => obj_set (fst m) (snd m) o) ms'
    (fold_left (fun o m => obj_set (fst m) (snd m) o) ms acc).
Proof. apply fold_left_app. Qed.

(** Spreading an object and then defining the three scripts is three
    property assignments on a copy of it. *)
Lemma scriptsLiteral_object scr :
  enumerated (keys scr) = true ->
  scriptsLiteral (Some (JObj scr)) =
  JObj (obj_set "format" (JStr formatScript)
          (obj_set "lint:fix" (JStr "ng lint --fix")
             (obj_set "lint" (JStr "ng lint") scr))).
Proof.
  intros H. unfold scriptsLiteral, object_literal, obj_of_members.
  cbn [spread]. rewrite fold_set_app.
  change (fold_left _ scr []) with (obj_of_members scr).
  now rewrite obj_of_members_enumerated.
Qed.

Lemma scriptsLiteral_lint existing :
  field "lint" (scriptsLiteral existing) = Some (JStr "ng lint")
  /\ field "lint:fix" (scriptsLiteral existing) = Some (JStr "ng lint --fix")
  /\ field "format" (scriptsLiteral existing) = Some (JStr formatScript).
Proof.
  unfold scriptsLiteral, object_literal, obj_of_members.
  rewrite fold_set_app. cbn [fold_left fst snd field].
  repeat split.
  - rewrite !obj_get_set_ne by discriminate. apply obj_get_set_eq.
  - rewrite obj_get_set_ne by discriminate. apply obj_get_set_eq.
  - apply obj_get_set_eq.
Qed.

Lemma scriptsLiteral_others scr k :
  enumerated (keys scr) = true -> ~ In k merged_names ->
  field k (scriptsLiteral (Some (JObj scr))) = obj_get k scr.
Proof.
  intros H Hk. rewrite scriptsLiteral_object by exact H. cbn [field].
  cbn in Hk. rewrite !obj_get_set_ne; [reflexivity | ..]; intros ->; tauto.
Qed.

Lemma scriptsLiteral_enumerated existing :
  exists S, scriptsLiteral existing = JObj S /\ enumerated (keys S) = true.
Proof.
  unfold scriptsLiteral, object_literal. eexists. split; [reflexivity|].
  apply enumerated_of_members.
Qed.

Lemma obj_replace_same k v ps :
  obj_get k ps = Some v -> obj_replace k v ps = ps.
Proof.
  induction ps as [|[k' v'] ps IH]; cbn; [reflexivity|].
  destruct (String.eqb k k'); [now intros [= ->] | intros H; now rewrite IH].
Qed.

(** Assigning to a property the value it has changes nothing. *)
Lemma obj_set_same k v ps : obj_get k ps = Some v -> obj_set k v ps = ps.
Proof.
  intros H. unfold obj_set, has_key. rewrite H. now apply obj_replace_same.
Qed.

Lemma obj_set_twice k v ps : obj_set k v (obj_set k v ps) = obj_set k v ps.
Proof. apply obj_set_same, obj_get_set_eq. Qed.

Lemma obj_set_absent k v ps :
  obj_get k ps = None -> index_of_key k = None -> obj_set k v ps = ps ++ [(k, v)].
Proof.
  intros Hget Hidx. unfold obj_set, has_key. now rewrite Hget, Hidx.
Qed.

(** The scripts literal built over its own result is that result. *)
Lemma scriptsLiteral_again existing :
  scriptsLiteral (Some (scriptsLiteral existing)) = scriptsLiteral existing.
Proof.
  destruct (scriptsLiteral_enumerated existing) as (S & HS & Henum).
  destruct (scriptsLiteral_lint existing) as (Hlint & Hfix & Hformat).
  rewrite HS in *. cbn [field] in *.
  rewrite scriptsLiteral_object by exact Henum.
  rewrite (obj_set_same "lint") by exact Hlint.
  rewrite (obj_set_same "lint:fix") by exact Hfix.
  now rewrite (obj_set_same "format") by exact Hformat.
Qed.

Lemma with_lint_staged_again v :
  with_lint_staged (with_lint_staged v) = with_lint_staged v.
Proof. destruct v; try reflexivity. cbn. now rewrite obj_set_twice. Qed.

Lemma with_scripts_again v : with_scripts (with_scripts v) = with_scripts v.
Proof.
  destruct v as [| | | | |ps]; try reflexivity. cbn [with_scripts].
  rewrite obj_get_set_eq, scriptsLiteral_again. now rewrite obj_set_twice.
Qed.

Lemma with_scripts_not_null v : v <> JNull -> with_scripts v <> JNull.
Proof. now destruct v. Qed.

Lemma with_lint_staged_not_null v : v <> JNull -> with_lint_staged v <> JNull.
Proof. now destruct v. Qed.


(** What a platform that reads the update's text back as written makes
    of a second application: the update of what was read is what is read
    from the update. *)
Lemma with_scripts_read_back v :
  with_scripts (norm (with_scripts v)) = norm (with_scripts v).
Proof. now rewrite <- with_scripts_norm, with_scripts_again. Qed.

Lemma with_lint_staged_read_back v :
  with_lint_staged (norm (with_lint_staged v)) = norm (with_lint_staged v).
Proof. now rewrite <- with_lint_staged_norm, with_lint_staged_again. Qed.

End ScriptsLiteral.

(** C5. The first update of the package manifest, on every manifest that
    [JSON.parse] reads as an object, completes and writes the
    serialisation of an object whose [lint-staged] key holds a mapping of
    exactly three rules: [*.ts] to the linter fix command followed by the
    formatter write command, [*.html] and [*.scss] each to the formatter
    write command alone. *)
Theorem lint_staged_has_three_rules (E : env) (st : state) (ps : props) :
  parsed E st = Some (JObj ps) ->
  is_dir (files st) (cwd st) = true ->
  exists st' ps',
    configureLintStaged E st = Next tt st'
    /\ package_text st' = Some (JSON_stringify (JObj ps'))
    /\ obj_get "lint-staged" ps' =
       Some (JObj [ ("*.ts", JArr [ JStr "eslint --fix"; JStr "prettier --write" ]);
                    ("*.html", JArr [ JStr "prettier --write" ]);
                    ("*.scss", JArr [ JStr "prettier --write" ]) ]).
Proof.
  intros Hp Hdir.
  destruct (lint_staged_written E st (JObj ps) Hp) as (st' & Hrun & _ & _ & Htext);
    [discriminate | exact Hdir |].
  exists st', (obj_set "lint-staged" lintStaged ps).
  split; [exact Hrun|]. split; [exact Htext|]. apply obj_get_set_eq.
Qed.

(** C9. On every manifest that [JSON.parse] reads as an object with a
    [lint-staged] key, the first update replaces that mapping wholesale:
    in the object it serialises the key holds exactly the three fixed
    rules, whatever the old mapping was, so no other entry of the old
    mapping is left; every other key of that object has the place and the
    value that were parsed.  (The scripts object literal, by contrast,
    keeps every entry it does not name.) *)
Theorem lint_staged_is_replaced (E : env) (st : state) (ps : props) (old : json) :
  parsed E st = Some (JObj ps) ->
  obj_get "lint-staged" ps = Some old ->
  is_dir (files st) (cwd st) = true ->
  exists st' ps',
    configureLintStaged E st = Next tt st'
    /\ package_text st' = Some (JSON_stringify (JObj ps'))
    /\ obj_get "lint-staged" ps' = Some three_rules
    /\ (forall k v, field k old = Some v ->
          ~ In k ["*.ts"; "*.html"; "*.scss"] -> field k three_rules = None)
    /\ keys ps' = keys ps
    /\ (forall k, k <> "lint-staged" -> obj_get k ps' = obj_get k ps)
    /\ (forall scr k, enumerated (keys scr) = true -> ~ In k merged_names ->
          field k (scriptsLiteral (Some (JObj scr))) = obj_get k scr).
Proof.
  intros Hp Hold Hdir.
  destruct (lint_staged_written E st (JObj ps) Hp) as (st' & Hrun & _ & _ & Htext);
    [discriminate | exact Hdir |].
  exists st', (obj_set "lint-staged" lintStaged ps).
  split; [exact Hrun|]. split; [exact Htext|].
  split; [apply obj_get_set_eq|]. split.
  { intros k v _ Hk. cbn in Hk |- *.
    destruct (String.eqb_spec k "*.ts") as [->|]; [tauto|].
    destruct (String.eqb_spec k "*.html") as [->|]; [tauto|].
    destruct (String.eqb_spec k "*.scss") as [->|]; [tauto|]. reflexivity. }
  split.
  { unfold obj_set.
    assert (Hk : has_key "lint-staged" ps = true)
      by (unfold has_key; now rewrite Hold).
    rewrite Hk. apply keys_replace. }
  split; [intros k Hk; now apply obj_get_set_ne|].
  intros scr k. apply scriptsLiteral_others.
Qed.

(** C6. On every manifest that [JSON.parse] reads as an
    object whose scripts are an object (its keys distinct and in
    enumeration order, as the keys of every object are) that defines
    [lint] with another value, the scripts update writes the serialisation
    of the object [with_scripts] makes, in whose scripts [lint] has the
    new value and every entry
    under another name than the three merged ones has the value that was
    parsed.  When [JSON.parse] reads this text back as it was written
    (each value itself, but a number that is not finite as [null] and
    minus zero as [0]), a second application writes the same text again:
    [lint] has the new value, and every such entry is what was read back
    of the value first parsed. *)
Theorem scripts_merge_last_write_wins (E : env) (st : state) (ps scr : props)
    (old : json) :
  parsed E st = Some (JObj ps) ->
  obj_get "scripts" ps = Some (JObj scr) ->
  enumerated (keys scr) = true ->
  obj_get "lint" scr = Some old ->
  old <> JStr "ng lint" ->
  is_dir (files st) (cwd st) = true ->
  exists st1 ps1 scr1,
    addNpmScripts E st = Next tt st1
    /\ with_scripts (JObj ps) = JObj ps1
    /\ package_text st1 = Some (JSON_stringify (JObj ps1))
    /\ obj_get "scripts" ps1 = Some (JObj scr1)
    /\ obj_get "lint" scr1 = Some (JStr "ng lint")
    /\ (forall k, ~ In k merged_names -> obj_get k scr1 = obj_get k scr)
    /\ (parse E (JSON_stringify (JObj ps1)) = Some (norm (JObj ps1)) ->
        exists st2 ps2 scr2,
          addNpmScripts E st1 = Next tt st2
          /\ package_text st2 = Some (JSON_stringify (JObj ps2))
          /\ package_text st2 = package_text st1
          /\ obj_get "scripts" ps2 = Some (JObj scr2)
          /\ obj_get "lint" scr2 = Some (JStr "ng lint")
          /\ (forall k, ~ In k merged_names ->
                obj_get k scr2 = norm <$> obj_get k scr)).
Proof.
  intros Hp Hscr Henum Hlint Hold Hdir.
  set (scr1 := obj_set "format" (JStr formatScript)
                 (obj_set "lint:fix" (JStr "ng lint --fix")
                    (obj_set "lint" (JStr "ng lint") scr))).
  set (ps1 := obj_set "scripts" (JObj scr1) ps).
  assert (H1 : with_scripts (JObj ps) = JObj ps1).
  { cbn [with_scripts]. rewrite Hscr. now rewrite scriptsLiteral_object. }
  assert (Hscr1 : obj_get "scripts" ps1 = Some (JObj scr1))
    by apply obj_get_set_eq.
  assert (Hlint1 : obj_get "lint" scr1 = Some (JStr "ng lint")).
  { unfold scr1. rewrite !obj_get_set_ne by discriminate. apply obj_get_set_eq. }
  assert (Hget1 : forall k, ~ In k merged_names -> obj_get k scr1 = obj_get k scr).
  { intros k Hk. cbn in Hk. unfold scr1.
    rewrite !obj_get_set_ne; [reflexivity | ..]; intros ->; tauto. }
  destruct (scripts_written E st (JObj ps) Hp)
    as (st1 & Hrun1 & Hcwd1 & Hdir1 & Htext1); [discriminate | exact Hdir |].
  rewrite H1 in Htext1.
  exists st1, ps1, scr1.
  split; [exact Hrun1|]. split; [exact H1|]. split; [exact Htext1|].
  split; [exact Hscr1|]. split; [exact Hlint1|]. split; [exact Hget1|].
  intros Hread.
  assert (Hp1 : parsed E st1 = Some (norm (JObj ps1)))
    by (unfold parsed; now rewrite Htext1).
  destruct (scripts_written E st1 (norm (JObj ps1)) Hp1)
    as (st2 & Hrun2 & Hcwd2 & Hdir2 & Htext2); [discriminate | exact Hdir1 |].
  rewrite <- H1, with_scripts_read_back, H1 in Htext2.
  exists st2, (norm_props ps1), (norm_props scr1).
  split; [exact Hrun2|]. split; [exact Htext2|].
  split; [now rewrite Htext2, Htext1, stringify_norm|].
  split; [now rewrite obj_get_norm, Hscr1|].
  split; [now rewrite obj_get_norm, Hlint1|].
  intros k Hk. now rewrite obj_get_norm, Hget1.
Qed.

(** C6, a manifest that loses an entry.  The manifest
    [Sample.lossy_text], whose scripts are [lint], set to [eslint .], and
    [x], set to [1e400], defines [lint] with another value and an entry
    [x] that [JSON.parse] reads as a number beyond the finite ones.  The scripts update completes, and in the
    manifest it leaves, [lint] has the new value but [x], which is none of
    the merged names, is [null]: [JSON.stringify] writes a number that is
    not finite as [null]. *)
Lemma scripts_merge_loses_a_number :
  parsed Sample.lossy_env Sample.lossy = Some (JObj Sample.lossy_members)
  /\ obj_get "scripts" Sample.lossy_members = Some (JObj Sample.lossy_scripts)
  /\ obj_get "lint" Sample.lossy_scripts = Some (JStr "eslint .")
  /\ obj_get "x" Sample.lossy_scripts = Some (JNum NonFinite)
  /\ exists st1 ps1 scr1,
       addNpmScripts Sample.lossy_env Sample.lossy = Next tt st1
       /\ parsed Sample.lossy_env st1 = Some (JObj ps1)
       /\ obj_get "scripts" ps1 = Some (JObj scr1)
       /\ obj_get "lint" scr1 = Some (JStr "ng lint")
       /\ obj_get "x" scr1 = Some JNull.
Proof.
  assert (Hp : parsed Sample.lossy_env Sample.lossy = Some (JObj Sample.lossy_members))
    by (vm_compute; reflexivity).
  split; [exact Hp|]. do 3 (split; [reflexivity|]).
  destruct (scripts_written Sample.lossy_env Sample.lossy _ Hp)
    as (st1 & Hrun & _ & _ & Htext); [discriminate | reflexivity |].
  assert (Hread : parsed Sample.lossy_env st1 =
                  Some (norm (with_scripts (JObj Sample.lossy_members)))).
  { unfold parsed. rewrite Htext. vm_compute. reflexivity. }
  exists st1. eexists _, _. split; [exact Hrun|].
  split; [rewrite Hread; vm_compute; reflexivity|].
  split; reflexivity || (split; reflexivity).
Qed.


(* ===================================================================== *)
(** ** Invariants of the trace *)
(* ===================================================================== *)

Section Events.

Variable E : env.
Variable ok : event -> bool.
Hypothesis ok_stdout : forall line, ok (Stdout line) = true.
Hypothesis ok_stderr : forall line, ok (Stderr line) = true.
Hypothesis ok_exec : forall cmd dir status, ok (Exec cmd dir status) = true.
Hypothesis ok_chdir : forall dir, ok (Chdir dir) = true.
Hypothesis ok_mkdir : forall l, ok (Mkdir l) = true.
Hypothesis ok_write : forall l text, ok (WriteFile l text) = true.

Lemma all_events_emit e st :
  all_events ok st -> ok e = true -> all_events ok (emit e st).
Proof. intros H He. apply Forall_app. split; [exact H | now constructor]. Qed.

Ltac events_prim :=
  let st := fresh "st" in
  let H := fresh "H" in
  intros st H; cbv beta zeta iota delta [console_log console_error
    process_chdir fs_writeFileSync fs_mkdirSync_recursive fs_chmodSync execSync];
  repeat case_match; simplify_eq; try exact H;
  first [ apply all_events_emit; [exact H | auto]
        | apply (all_events_emit _ {| cwd := _; files := _; trace := _ |});
          [exact H | auto] ].

Lemma events_log line : keeps (all_events ok) (console_log line).
Proof using ok_stdout. events_prim. Qed.

Lemma events_error line : keeps (all_events ok) (console_error line).
Proof using ok_stderr. events_prim. Qed.

Lemma events_chdir dir : keeps (all_events ok) (process_chdir dir).
Proof using ok_chdir.
  intros st H. unfold process_chdir. cbv zeta.
  destruct (is_dir _ _); [|exact H].
  apply Forall_app. split; [exact H | now constructor].
Qed.

Lemma events_write p text : keeps (all_events ok) (fs_writeFileSync p text).
Proof using ok_write. events_prim. Qed.

Lemma events_mkdir p : keeps (all_events ok) (fs_mkdirSync_recursive p).
Proof using ok_mkdir. events_prim. Qed.

Lemma events_execSync cmd : keeps (all_events ok) (execSync E cmd).
Proof using ok_exec. events_prim. Qed.

Lemma events_chmod p mode :
  (forall l done, ok (Chmod l mode done) = true) ->
  keeps (all_events ok) (fs_chmodSync E p mode).
Proof. intros Hok. events_prim. Qed.

Lemma events_executeCommand cmd : keeps (all_events ok) (executeCommand E cmd).
Proof using ok_exec ok_stderr.
  apply keeps_catch; [apply events_execSync|]. intros _.
  apply keeps_bind; [apply events_error | intros _; apply keeps_exit].
Qed.

Ltac events_steps :=
  repeat lazymatch goal with
    | |- keeps _ (bind _ _) => apply keeps_bind; [|intros ?]
    | |- keeps _ (executeCommand _ _) => apply events_executeCommand
    | |- keeps _ (when _ _) => apply keeps_when
    | |- keeps _ (try_catch _ _) => apply keeps_catch; [|intros ?]
    | |- keeps _ (console_log _) => apply events_log
    | |- keeps _ (console_error _) => apply events_error
    | |- keeps _ (process_exit _) => apply keeps_exit
    | |- keeps _ (process_chdir _) => apply events_chdir
    | |- keeps _ (fs_writeFileSync _ _) => apply events_write
    | |- keeps _ (fs_readFileSync _) => apply keeps_read
    | |- keeps _ (fs_existsSync _) => apply keeps_exists
    | |- keeps _ (fs_mkdirSync_recursive _) => apply events_mkdir
    | |- keeps _ (JSON_parse_or_throw _ _) => apply keeps_parse
    | |- keeps _ (assign _ _ _) => apply keeps_assign
    | |- keeps _ (member _ _) => apply keeps_member
    | |- keeps _ (log_all _) => apply keeps_log_all; intros ?
    | |- keeps _ (ret _) => apply keeps_ret
    end.

Lemma events_checkProjectName name :
  keeps (all_events ok) (checkProjectName name).
Proof using ok_stderr. unfold checkProjectName. events_steps. Qed.

Lemma events_installAll d : keeps (all_events ok) (installAll E d).
Proof using ok_stdout ok_stderr ok_exec ok_chdir.
  unfold installAll, printMessage. events_steps.
Qed.

Lemma events_writeConfigFiles : keeps (all_events ok) writeConfigFiles.
Proof using ok_stdout ok_write. unfold writeConfigFiles, printMessage. events_steps. Qed.

Lemma events_configureLintStaged : keeps (all_events ok) (configureLintStaged E).
Proof using ok_stdout ok_write.
  unfold configureLintStaged, printMessage. events_steps.
Qed.

Lemma events_addNpmScripts : keeps (all_events ok) (addNpmScripts E).
Proof using ok_stdout ok_write. unfold addNpmScripts, printMessage. events_steps. Qed.

Lemma events_printSummary d : keeps (all_events ok) (printSummary d).
Proof using ok_stdout. unfold printSummary, printMessage. events_steps. Qed.

Lemma events_setupHuskyHook :
  (forall l mode done, ok (Chmod l mode done) = true) ->
  keeps (all_events ok) (setupHuskyHook E).
Proof using ok_stdout ok_write ok_mkdir.
  intros Hok. unfold setupHuskyHook, printMessage, printWarning. events_steps.
  now apply events_chmod.
Qed.

End Events.

(* ===================================================================== *)
(** ** Files that a statement leaves alone *)
(* ===================================================================== *)

Lemma mkdir_p_keeps (todo : list string) (here : loc) (t t' : tree)
    (l : loc) (n : node) :
  mkdir_p here todo t = Some t' -> t !! l = Some n -> t' !! l = Some n.
Proof.
  revert here t. induction todo as [|next todo IH]; intros here t; cbn [mkdir_p];
    destruct (t !! here) as [[text mode|]|] eqn:Hhere; try discriminate.
  - now intros [= <-].
  - intros [= <-] Hl. rewrite lookup_insert_ne; [exact Hl | congruence].
  - apply IH.
  - intros Hrec Hl. apply (IH _ _ Hrec).
    rewrite lookup_insert_ne; [exact Hl | congruence].
Qed.

Section Frame.

Variable E : env.
Variables (d : string) (l : loc) (c : option string).

Lemma holds_log line : keeps (holds d l c) (console_log line).
Proof. intros st H. exact H. Qed.

Lemma holds_error line : keeps (holds d l c) (console_error line).
Proof. intros st H. exact H. Qed.

Lemma holds_write p text :
  [d] ++ p <> l -> keeps (holds d l c) (fs_writeFileSync p text).
Proof.
  intros Hne st [Hcwd Hl]. unfold fs_writeFileSync, holds. cbv zeta.
  rewrite Hcwd.
  repeat case_match; simplify_eq; cbn [emit with_files cwd files];
    (split; [assumption|]); try assumption;
    now rewrite lookup_insert_ne.
Qed.

Lemma holds_chmod p mode :
  [d] ++ p <> l -> keeps (holds d l c) (fs_chmodSync E p mode).
Proof.
  intros Hne st [Hcwd Hl]. unfold fs_chmodSync, holds. cbv zeta.
  rewrite Hcwd.
  repeat case_match; simplify_eq; cbn [emit with_files cwd files];
    (split; [assumption|]); try assumption;
    now rewrite lookup_insert_ne.
Qed.

Lemma holds_mkdir p : keeps (holds d l c) (fs_mkdirSync_recursive p).
Proof.
  intros st [Hcwd Hl]. unfold fs_mkdirSync_recursive. cbv zeta.
  destruct (mkdir_p [] (cwd st ++ p) (files st)) as [t'|] eqn:Hmk;
    [|now split].
  split; [exact Hcwd|]. cbn [emit with_files files].
  destruct (files st !! l) as [n|] eqn:Hn; [|discriminate].
  now rewrite (mkdir_p_keeps _ _ _ _ _ _ Hmk Hn).
Qed.

End Frame.

Ltac frame_steps :=
  repeat lazymatch goal with
    | |- keeps _ (bind _ _) => apply keeps_bind; [|intros ?]
    | |- keeps _ (when _ _) => apply keeps_when
    | |- keeps _ (try_catch _ _) => apply keeps_catch; [|intros ?]
    | |- keeps _ (console_log _) => apply holds_log
    | |- keeps _ (console_error _) => apply holds_error
    | |- keeps _ (process_exit _) => apply keeps_exit
    | |- keeps _ (fs_writeFileSync _ _) =>
        apply holds_write; unfold path_join, file_name; cbn; congruence
    | |- keeps _ (fs_chmodSync _ _ _) =>
        apply holds_chmod; unfold path_join, file_name; cbn; congruence
    | |- keeps _ (fs_readFileSync _) => apply keeps_read
    | |- keeps _ (fs_existsSync _) => apply keeps_exists
    | |- keeps _ (fs_mkdirSync_recursive _) => apply holds_mkdir
    | |- keeps _ (JSON_parse_or_throw _ _) => apply keeps_parse
    | |- keeps _ (assign _ _ _) => apply keeps_assign
    | |- keeps _ (member _ _) => apply keeps_member
    | |- keeps _ (log_all _) => apply keeps_log_all; intros ?
    | |- keeps _ (ret _) => apply keeps_ret
    end.

Section Untouched.

Variable E : env.
Variable d : string.

(** Once written, the formatter configuration stays as it is. *)
Lemma prettierrc_stays c :
  keeps (holds d [d; ".prettierrc"] c)
    (fs_writeFileSync (file_name ".prettierignore") prettierIgnore ;;
     printMessage "Configuring ESLint, Prettier, Unused Imports and Simple Sort Imports..." ;;
     fs_writeFileSync (file_name "eslint.config.js") eslintConfig).
Proof. unfold printMessage. frame_steps. Qed.

Lemma prettierrc_untouched c :
  keeps (holds d [d; ".prettierrc"] c)
    (configureLintStaged E ;; setupHuskyHook E ;; addNpmScripts E ;; printSummary d).
Proof.
  unfold configureLintStaged, setupHuskyHook, addNpmScripts, printSummary,
    printMessage, printWarning.
  frame_steps.
Qed.

(** The hook set-up leaves the project directory and the manifest alone. *)
Lemma husky_leaves_directory : keeps (holds d [d] None) (setupHuskyHook E).
Proof. unfold setupHuskyHook, printMessage, printWarning. frame_steps. Qed.

Lemma husky_leaves_manifest c :
  keeps (holds d [d; "package.json"] c) (setupHuskyHook E).
Proof. unfold setupHuskyHook, printMessage, printWarning. frame_steps. Qed.

End Untouched.


(* ===================================================================== *)
(** ** The run, stage by stage *)
(* ===================================================================== *)

Section Stages.

Variable E : env.

Lemma keeps_loose {A : Type} (I : state -> Prop) (m : M A) :
  keeps I m -> triple I m (fun _ => I) (fun _ _ => True) (fun _ _ => True).
Proof. intros H. eapply triple_weaken; [exact H | ..]; cbv beta; auto. Qed.


Lemma main_unfold argv :
  main E argv =
  (checkProjectName (argv !! 2%nat) ;;
   installAll E (interpolate (argv !! 2%nat)) ;;
   configuration E (interpolate (argv !! 2%nat))).
Proof. reflexivity. Qed.

(** The shape of every run that gets past the argument check: the
    installs establish [settled d]; what the configuration stage then
    guarantees is what the run guarantees. *)
Lemma main_stages (t : tree) (args : list string) (d : string)
    (ok : event -> bool) (Q : state -> Prop) :
  args !! 0%nat = Some d -> falsy (Some d) = false ->
  (forall line, ok (Stdout line) = true) ->
  (forall line, ok (Stderr line) = true) ->
  (forall cmd dir status, ok (Exec cmd dir status) = true) ->
  (forall dir, ok (Chdir dir) = true) ->
  triple (fun st => settled d st /\ all_events ok st) (configuration E d)
    (fun _ => Q) (fun _ => all_events ok)
    (fun c st => c = 1%Z /\ all_events ok st) ->
  match main E ("node" :: "init.js" :: args) (start t) with
  | Next _ st => Q st
  | Thrown _ st => all_events ok st
  | Exited c st => c = 1%Z /\ all_events ok st
  end.
Proof.
  intros Hd Hf Hout Herr Hexec Hchdir Hconf.
  rewrite main_unfold.
  change (("node" :: "init.js" :: args) !! 2%nat) with (args !! 0%nat).
  rewrite Hd. cbn [interpolate].
  assert (H : triple (fun st => (cwd st = [] /\ trace st = []) /\ all_events ok st)
            (checkProjectName (Some d) ;; installAll E d ;; configuration E d)
            (fun _ => Q) (fun _ => all_events ok)
            (fun c st => c = 1%Z /\ all_events ok st)).
  { apply triple_bind with
      (Q := fun _ st => (cwd st = [] /\ trace st = []) /\ all_events ok st).
    { intros st H. unfold checkProjectName. now rewrite Hf. }
    intros _. apply triple_bind with
      (Q := fun _ st => settled d st /\ all_events ok st); [|intros _; exact Hconf].
    eapply triple_weaken;
      [apply (triple_conj _ _ _ _ _ _ _ _ _ (installAll_settles E d)
                (events_installAll E ok Hout Herr Hexec Hchdir d)) | ..];
      cbv beta; intuition. }
  apply H. repeat split. constructor.
Qed.

Lemma run_cases (t : tree) (args : list string) :
  run E t args =
    {| ending := Exit 1;
       final := {| cwd := []; files := t; trace := map Stderr usage |} |}
  \/ exists d, args !! 0%nat = Some d /\ falsy (Some d) = false.
Proof.
  destruct args as [|d rest]; [left; reflexivity|].
  destruct (String.eqb_spec d "") as [->|Hne]; [left; reflexivity|].
  right. exists d. split; [reflexivity|]. cbn. now apply String.eqb_neq.
Qed.

End Stages.

(* ===================================================================== *)
(** ** The formatter configuration *)
(* ===================================================================== *)

Section Formatter.

Variable E : env.
Variable d : string.

Lemma writeConfigFiles_prettierrc :
  triple (settled d) writeConfigFiles
    (fun _ => holds d [d; ".prettierrc"] (Some (JSON_stringify prettierConfig)))
    (fun _ _ => True) (fun _ _ => True).
Proof.
  unfold writeConfigFiles.
  do 4 (apply triple_bind with (Q := fun _ => settled d);
        [apply keeps_loose; unfold printMessage;
         first [apply settled_log | apply settled_write] | intros _]).
  apply triple_bind with
    (Q := fun _ => holds d [d; ".prettierrc"] (Some (JSON_stringify prettierConfig)));
    [|intros _; apply keeps_loose, prettierrc_stays].
  intros st (Hcwd & _). unfold fs_writeFileSync, file_name. cbv zeta. rewrite Hcwd.
  repeat case_match; simplify_eq; try exact I;
    (split; [exact Hcwd|]); cbn [emit with_files files];
    now rewrite lookup_insert_eq.
Qed.

Lemma configuration_prettierrc :
  triple (fun st => settled d st /\ all_events (fun _ => true) st)
    (configuration E d)
    (fun _ => holds d [d; ".prettierrc"] (Some (JSON_stringify prettierConfig)))
    (fun _ => all_events (fun _ => true))
    (fun c st => c = 1%Z /\ all_events (fun _ => true) st).
Proof.
  unfold configuration.
  apply triple_bind with
    (Q := fun _ st =>
            holds d [d; ".prettierrc"] (Some (JSON_stringify prettierConfig)) st
            /\ all_events (fun _ => true) st).
  - eapply triple_weaken;
      [apply (triple_conj _ _ _ _ _ _ _ _ _ writeConfigFiles_prettierrc
                (events_writeConfigFiles (fun _ => true)
                   (fun _ => eq_refl) (fun _ _ => eq_refl))) | ..];
      cbv beta; intuition.
  - intros _. eapply triple_weaken;
      [apply (triple_conj _ _ _ _ _ _ _ _ _
                (prettierrc_untouched E d (Some (JSON_stringify prettierConfig)))
                (keeps_bind _ _ _
                   (events_configureLintStaged E (fun _ => true)
                      (fun _ => eq_refl) (fun _ _ => eq_refl))
                   (fun _ => keeps_bind _ _ _
                      (events_setupHuskyHook E (fun _ => true)
                         (fun _ => eq_refl) (fun _ => eq_refl)
                         (fun _ _ => eq_refl) (fun _ _ _ => eq_refl))
                      (fun _ => keeps_bind _ _ _
                         (events_addNpmScripts E (fun _ => true)
                            (fun _ => eq_refl) (fun _ _ => eq_refl))
                         (fun _ => events_printSummary (fun _ => true)
                                     (fun _ => eq_refl) d))))) | ..];
      cbv beta; intuition.
Qed.

End Formatter.

Lemma prettierConfig_round_trip :
  JSON_parse (JSON_stringify prettierConfig) = Some prettierConfig.
Proof. vm_compute. reflexivity. Qed.

(** C4. After a run that ends with exit status 0, the file [.prettierrc]
    in the project directory holds a JSON text that parses to an object
    with [tabWidth] 2, [singleQuote] true, [semi] true and one [overrides]
    entry, whose [files] is [*.html] and whose [options] name the parser
    [angular]. *)
Theorem prettierrc_after_success (E : env) (t : tree) (args : list string) :
  ending (run E t args) = Exit 0 ->
  exists d text v o opts,
    args !! 0%nat = Some d
    /\ content <$> (files (final (run E t args)) !! [d; ".prettierrc"])
       = Some (Some text)
    /\ JSON_parse text = Some v
    /\ field "tabWidth" v = Some (JNum 2)
    /\ field "singleQuote" v = Some (JBool true)
    /\ field "semi" v = Some (JBool true)
    /\ field "overrides" v = Some (JArr [o])
    /\ field "files" o = Some (JStr "*.html")
    /\ field "options" o = Some opts
    /\ field "parser" opts = Some (JStr "angular").
Proof.
  intros Hexit.
  destruct (run_cases E t args) as [Hrun | (d & Hd & Hf)];
    [rewrite Hrun in Hexit; discriminate|].
  pose proof (main_stages E t args d (fun _ => true) _ Hd Hf
                (fun _ => eq_refl) (fun _ => eq_refl)
                (fun _ _ _ => eq_refl) (fun _ => eq_refl)
                (configuration_prettierrc E d)) as H.
  unfold run in *.
  destruct (main E _ (start t)) as [[] st|e st|c st]; cbn [finish ending final] in *.
  - destruct H as [_ Hfile].
    exists d, (JSON_stringify prettierConfig), prettierConfig.
    eexists _, _. split; [exact Hd|]. split; [exact Hfile|].
    split; [exact prettierConfig_round_trip|]. repeat split.
  - discriminate.
  - destruct H as [-> _]. discriminate.
Qed.


(* ===================================================================== *)
(** ** The executable bit of the hook *)
(* ===================================================================== *)

Section ExecutableBit.

Variable E : env.
Variable d : string.

Lemma log_all_runs ls st :
  log_all ls st =
  Next tt {| cwd := cwd st; files := files st;
             trace := trace st ++ map Stdout ls |}.
Proof.
  revert st. induction ls as [|l ls IH]; intros st; cbn [log_all map].
  - unfold ret. rewrite app_nil_r. now destruct st.
  - unfold bind, console_log. rewrite IH. cbn [emit cwd files trace].
    now rewrite <- app_assoc.
Qed.

Lemma printSummary_runs st :
  printSummary d st =
  Next tt {| cwd := cwd st; files := files st;
             trace := trace st ++ closing d |}.
Proof.
  unfold printSummary, bind. rewrite printMessage_decorated.
  unfold console_log. rewrite log_all_runs. cbn [emit cwd files trace].
  now rewrite <- app_assoc.
Qed.

Lemma holds_file l text st :
  holds d l (Some text) st ->
  cwd st = [d] /\ exists mode, files st !! l = Some (File text mode).
Proof.
  intros [Hcwd H]. split; [exact Hcwd|].
  destruct (files st !! l) as [[text' mode|]|]; try discriminate.
  injection H as ->. eauto.
Qed.

Lemma holds_dir l st :
  holds d l None st -> cwd st = [d] /\ files st !! l = Some Dir.
Proof.
  intros [Hcwd H]. split; [exact Hcwd|].
  now destruct (files st !! l) as [[text' mode|]|].
Qed.




End ExecutableBit.




(* ===================================================================== *)
(** ** The claims about the argument check and the scripts *)
(* ===================================================================== *)

(** C2. Without a positional argument the run prints the two usage lines
    on the error stream and ends with exit status 1; nothing else happens:
    the trace holds no command, no write and no directory change, and the
    file tree and the working directory are as they were. *)
Theorem no_argument_is_a_usage_error (E : env) (t : tree) :
  run E t [] =
  {| ending := Exit 1;
     final := {| cwd := [];
                 files := t;
                 trace := [ Stderr "Usage: npx ng-create-with-config <project-name>";
                            Stderr "   or: node init.js <project-name>" ] |} |}.
Proof. reflexivity. Qed.

(** C10. An empty project name is treated like a missing one: the run
    prints the usage lines, ends with exit status 1 and does nothing
    else. *)
Theorem empty_argument_is_a_usage_error (E : env) (t : tree) :
  run E t [""] = run E t []
  /\ ending (run E t [""]) = Exit 1
  /\ trace (final (run E t [""])) = map Stderr usage
  /\ files (final (run E t [""])) = t
  /\ cwd (final (run E t [""])) = [].
Proof. repeat split. Qed.

(** C1. On a project whose generator succeeded and whose every install
    succeeded, the run ends with exit status 0 and announces four commands,
    among them [npm run format:check]; the manifest then has the
    [lint-staged] key and the scripts [lint], [lint:fix] and [format], but
    no script [format:check]: the scripts update defines three names. *)
Theorem format_check_is_announced_but_not_defined :
  ending Sample.smooth = Exit 0
  /\ In (Stdout "  npm run format:check - Check code formatting")
        (trace (final Sample.smooth))
  /\ exists v scripts,
       manifest (final Sample.smooth) = Some v
       /\ field "lint-staged" v = Some three_rules
       /\ field "scripts" v = Some (JObj scripts)
       /\ scripts = [ ("ng", JStr "ng");
                      ("start", JStr "ng serve");
                      ("build", JStr "ng build");
                      ("lint", JStr "ng lint");
                      ("lint:fix", JStr "ng lint --fix");
                      ("format", JStr formatScript) ]
       /\ obj_get "format:check" scripts = None.
Proof.
  split; [vm_compute; reflexivity|]. split.
  - vm_compute. repeat (first [left; reflexivity | right]).
  - eexists _, _. repeat split; vm_compute; reflexivity.
Qed.

(* ===================================================================== *)
(** ** The theorems at work on the stub project *)
(* ===================================================================== *)

Lemma command_failure_stops_the_run_witness :
  trace (final Sample.broken) =
    take 5 (trace (final Sample.broken))
    ++ Exec Sample.second_install ["demo"] (Some 1%Z)
       :: drop 6 (trace (final Sample.broken))
  /\ ending Sample.broken = Exit 1
  /\ drop 6 (trace (final Sample.broken)) =
     [Stderr ("Failed to execute: " +:+ Sample.second_install)]
  /\ clean (take 5 (trace (final Sample.broken))).
Proof.
  assert (H : trace (final Sample.broken) =
              take 5 (trace (final Sample.broken))
              ++ Exec Sample.second_install ["demo"] (Some 1%Z)
                 :: drop 6 (trace (final Sample.broken)))
    by (vm_compute; reflexivity).
  split; [exact H|].
  apply (command_failure_stops_the_run
           (Sample.stub Sample.second_install true) ∅ ["demo"] _ _ _ _ _ H).
  discriminate.
Defined.

Lemma prettierrc_after_success_witness :
  ending Sample.smooth = Exit 0
  /\ exists d text v o opts,
       ["demo"] !! 0%nat = Some d
       /\ content <$> (files (final Sample.smooth) !! [d; ".prettierrc"])
          = Some (Some text)
       /\ JSON_parse text = Some v
       /\ field "tabWidth" v = Some (JNum 2)
       /\ field "singleQuote" v = Some (JBool true)
       /\ field "semi" v = Some (JBool true)
       /\ field "overrides" v = Some (JArr [o])
       /\ field "files" o = Some (JStr "*.html")
       /\ field "options" o = Some opts
       /\ field "parser" opts = Some (JStr "angular").
Proof.
  assert (H : ending Sample.smooth = Exit 0) by (vm_compute; reflexivity).
  split; [exact H|].
  exact (prettierrc_after_success (Sample.stub "" true) ∅ ["demo"] H).
Defined.

Lemma lint_staged_has_three_rules_witness :
  parsed (Sample.stub "" true) Sample.fresh = Some (JObj Sample.members)
  /\ is_dir (files Sample.fresh) (cwd Sample.fresh) = true
  /\ exists st' ps',
       configureLintStaged (Sample.stub "" true) Sample.fresh = Next tt st'
       /\ package_text st' = Some (JSON_stringify (JObj ps'))
       /\ obj_get "lint-staged" ps' =
          Some (JObj [ ("*.ts", JArr [ JStr "eslint --fix"; JStr "prettier --write" ]);
                       ("*.html", JArr [ JStr "prettier --write" ]);
                       ("*.scss", JArr [ JStr "prettier --write" ]) ]).
Proof.
  assert (Hm : parsed (Sample.stub "" true) Sample.fresh = Some (JObj Sample.members))
    by (vm_compute; reflexivity).
  assert (Hd : is_dir (files Sample.fresh) (cwd Sample.fresh) = true)
    by (vm_compute; reflexivity).
  split; [exact Hm|]. split; [exact Hd|].
  exact (lint_staged_has_three_rules (Sample.stub "" true) Sample.fresh
           Sample.members Hm Hd).
Defined.

Lemma scripts_merge_last_write_wins_witness :
  parsed (Sample.stub "" true) Sample.fresh = Some (JObj Sample.members)
  /\ obj_get "scripts" Sample.members = Some (JObj Sample.scripts)
  /\ enumerated (keys Sample.scripts) = true
  /\ obj_get "lint" Sample.scripts = Some (JStr "eslint .")
  /\ JStr "eslint ." <> JStr "ng lint"
  /\ is_dir (files Sample.fresh) (cwd Sample.fresh) = true
  /\ exists st1 ps1 scr1 st2 ps2 scr2,
       addNpmScripts (Sample.stub "" true) Sample.fresh = Next tt st1
       /\ package_text st1 = Some (JSON_stringify (JObj ps1))
       /\ obj_get "scripts" ps1 = Some (JObj scr1)
       /\ obj_get "lint" scr1 = Some (JStr "ng lint")
       /\ (forall k, ~ In k merged_names ->
             obj_get k scr1 = obj_get k Sample.scripts)
       /\ parse (Sample.stub "" true) (JSON_stringify (JObj ps1))
          = Some (norm (JObj ps1))
       /\ addNpmScripts (Sample.stub "" true) st1 = Next tt st2
       /\ package_text st2 = Some (JSON_stringify (JObj ps2))
       /\ package_text st2 = package_text st1
       /\ obj_get "scripts" ps2 = Some (JObj scr2)
       /\ obj_get "lint" scr2 = Some (JStr "ng lint")
       /\ (forall k, ~ In k merged_names ->
             obj_get k scr2 = norm <$> obj_get k Sample.scripts).
Proof.
  assert (Hm : parsed (Sample.stub "" true) Sample.fresh = Some (JObj Sample.members))
    by (vm_compute; reflexivity).
  assert (Hs : obj_get "scripts" Sample.members = Some (JObj Sample.scripts))
    by reflexivity.
  assert (He : enumerated (keys Sample.scripts) = true)
    by (vm_compute; reflexivity).
  assert (Hl : obj_get "lint" Sample.scripts = Some (JStr "eslint ."))
    by reflexivity.
  assert (Hne : JStr "eslint ." <> JStr "ng lint") by discriminate.
  assert (Hd : is_dir (files Sample.fresh) (cwd Sample.fresh) = true)
    by (vm_compute; reflexivity).
  split; [exact Hm|]. split; [exact Hs|]. split; [exact He|].
  split; [exact Hl|]. split; [exact Hne|]. split; [exact Hd|].
  destruct (scripts_merge_last_write_wins (Sample.stub "" true) Sample.fresh
              Sample.members Sample.scripts (JStr "eslint .") Hm Hs He Hl Hne Hd)
    as (st1 & ps1 & scr1 & Hrun & Hps1 & Htext & Hscr & Hlint & Hget & Hsecond).
  assert (Hread : parse (Sample.stub "" true) (JSON_stringify (JObj ps1))
                  = Some (norm (JObj ps1)))
    by (rewrite <- Hps1; vm_compute; reflexivity).
  destruct (Hsecond Hread) as (st2 & ps2 & scr2 & H2).
  exists st1, ps1, scr1, st2, ps2, scr2.
  split; [exact Hrun|]. split; [exact Htext|]. split; [exact Hscr|].
  split; [exact Hlint|]. split; [exact Hget|]. split; [exact Hread|].
  exact H2.
Defined.

Lemma chdir_after_generation_installs_inside_witness :
  trace (final Sample.smooth) =
    take 2 (trace (final Sample.smooth))
    ++ Chdir "demo" :: drop 3 (trace (final Sample.smooth))
  /\ ["demo"] !! 0%nat = Some "demo"
  /\ (exists line,
        take 2 (trace (final Sample.smooth)) =
        [Stdout line; Exec (generation "demo") [] (Some 0%Z)])
  /\ (forall cmd dir status,
        In (Exec cmd dir status) (drop 3 (trace (final Sample.smooth))) ->
        dir = ["demo"]).
Proof.
  assert (H : trace (final Sample.smooth) =
              take 2 (trace (final Sample.smooth))
              ++ Chdir "demo" :: drop 3 (trace (final Sample.smooth)))
    by (vm_compute; reflexivity).
  split; [exact H|].
  exact (chdir_after_generation_installs_inside
           (Sample.stub "" true) ∅ ["demo"] _ _ "demo" H).
Defined.

Lemma lint_staged_is_replaced_witness :
  parsed (Sample.stub "" true) Sample.fresh = Some (JObj Sample.members)
  /\ obj_get "lint-staged" Sample.members = Some (JObj [ ("*.js", JStr "eslint") ])
  /\ is_dir (files Sample.fresh) (cwd Sample.fresh) = true
  /\ exists st' ps',
       configureLintStaged (Sample.stub "" true) Sample.fresh = Next tt st'
       /\ package_text st' = Some (JSON_stringify (JObj ps'))
       /\ obj_get "lint-staged" ps' = Some three_rules
       /\ (forall k v, field k (JObj [ ("*.js", JStr "eslint") ]) = Some v ->
             ~ In k ["*.ts"; "*.html"; "*.scss"] -> field k three_rules = None)
       /\ keys ps' = keys Sample.members
       /\ (forall k, k <> "lint-staged" ->
             obj_get k ps' = obj_get k Sample.members)
       /\ (forall scr k, enumerated (keys scr) = true -> ~ In k merged_names ->
             field k (scriptsLiteral (Some (JObj scr))) = obj_get k scr).
Proof.
  assert (Hm : parsed (Sample.stub "" true) Sample.fresh = Some (JObj Sample.members))
    by (vm_compute; reflexivity).
  assert (Ho : obj_get "lint-staged" Sample.members
               = Some (JObj [ ("*.js", JStr "eslint") ])) by reflexivity.
  assert (Hd : is_dir (files Sample.fresh) (cwd Sample.fresh) = true)
    by (vm_compute; reflexivity).
  split; [exact Hm|]. split; [exact Ho|]. split; [exact Hd|].
  exact (lint_staged_is_replaced (Sample.stub "" true) Sample.fresh
           Sample.members _ Hm Ho Hd).
Defined.


(* ===================================================================== *)
(** ** The manifest updates applied twice *)
(* ===================================================================== *)

Section Twice.

Lemma norm_not_null v : v <> JNull -> v <> JNum NonFinite -> norm v <> JNull.
Proof. destruct v as [| b | [n| |s|] | s | xs | ps]; cbn; congruence. Qed.

Lemma with_scripts_finite v :
  v <> JNum NonFinite -> with_scripts v <> JNum NonFinite.
Proof. now destruct v. Qed.

Lemma with_lint_staged_finite v :
  v <> JNum NonFinite -> with_lint_staged v <> JNum NonFinite.
Proof. now destruct v. Qed.

End Twice.

(** X1. Applying the scripts update a second time changes nothing.  On a
    manifest that [JSON.parse] reads as a value other than [null] and
    other than a number that is not finite, where the text the first
    application writes is read back as it was written (each value itself,
    but a number that is not finite as [null] and minus zero as [0]), both
    applications complete, and the second leaves the whole file tree, the
    manifest text included, as the first left it. *)
Theorem scripts_update_is_idempotent (E : env) (st : state) (v : json) :
  parsed E st = Some v -> v <> JNull -> v <> JNum NonFinite ->
  is_dir (files st) (cwd st) = true ->
  parse E (JSON_stringify (with_scripts v)) = Some (norm (with_scripts v)) ->
  exists st1 st2,
    addNpmScripts E st = Next tt st1
    /\ addNpmScripts E st1 = Next tt st2
    /\ files st2 = files st1
    /\ package_text st2 = Some (JSON_stringify (with_scripts v)).
Proof.
  intros Hp Hnull Hfin Hdir Hread.
  destruct (parsed_file E st v Hp) as (text & mode & Hfile & Hparse).
  pose proof (addNpmScripts_runs E st text mode v Hfile Hparse Hnull Hdir) as H1.
  match type of H1 with _ = Next tt ?s => set (st1 := s) in * end.
  assert (Hfile1 : files st1 !! (cwd st1 ++ ["package.json"])
                   = Some (File (JSON_stringify (with_scripts v)) mode))
    by (cbn [st1 cwd files]; apply lookup_insert_eq).
  assert (Hdir1 : is_dir (files st1) (cwd st1) = true)
    by (now apply written_state).
  pose proof (addNpmScripts_runs E st1 _ mode _ Hfile1 Hread
                (norm_not_null _ (with_scripts_not_null v Hnull)
                   (with_scripts_finite v Hfin)) Hdir1) as H2.
  rewrite with_scripts_read_back, stringify_norm in H2.
  eexists st1, _. split; [exact H1|]. split; [exact H2|].
  cbn [files cwd st1]. split; [apply insert_insert_eq|].
  unfold package_text. cbn [cwd files]. now rewrite lookup_insert_eq.
Qed.

Lemma scripts_update_is_idempotent_witness :
  parsed (Sample.stub "" true) Sample.fresh = Some Sample.generated
  /\ Sample.generated <> JNull
  /\ Sample.generated <> JNum NonFinite
  /\ is_dir (files Sample.fresh) (cwd Sample.fresh) = true
  /\ parse (Sample.stub "" true) (JSON_stringify (with_scripts Sample.generated))
     = Some (norm (with_scripts Sample.generated))
  /\ exists st1 st2,
       addNpmScripts (Sample.stub "" true) Sample.fresh = Next tt st1
       /\ addNpmScripts (Sample.stub "" true) st1 = Next tt st2
       /\ files st2 = files st1
       /\ package_text st2 = Some (JSON_stringify (with_scripts Sample.generated)).
Proof.
  assert (Hm : parsed (Sample.stub "" true) Sample.fresh = Some Sample.generated)
    by (vm_compute; reflexivity).
  assert (Hn : Sample.generated <> JNull) by discriminate.
  assert (Hf : Sample.generated <> JNum NonFinite) by discriminate.
  assert (Hd : is_dir (files Sample.fresh) (cwd Sample.fresh) = true)
    by (vm_compute; reflexivity).
  assert (Hr : parse (Sample.stub "" true)
                 (JSON_stringify (with_scripts Sample.generated))
               = Some (norm (with_scripts Sample.generated)))
    by (vm_compute; reflexivity).
  split; [exact Hm|]. split; [exact Hn|]. split; [exact Hf|].
  split; [exact Hd|]. split; [exact Hr|].
  exact (scripts_update_is_idempotent (Sample.stub "" true) Sample.fresh
           Sample.generated Hm Hn Hf Hd Hr).
Defined.

(** X2. Applying the lint-staged update a second time changes nothing.
    On a manifest that [JSON.parse] reads as a value other than [null] and
    other than a number that is not finite, where the text the first
    application writes is read back as it was written (each value itself,
    but a number that is not finite as [null] and minus zero as [0]), both
    applications complete, and the second leaves the whole file tree as
    the first left it. *)
Theorem lint_staged_update_is_idempotent (E : env) (st : state) (v : json) :
  parsed E st = Some v -> v <> JNull -> v <> JNum NonFinite ->
  is_dir (files st) (cwd st) = true ->
  parse E (JSON_stringify (with_lint_staged v)) = Some (norm (with_lint_staged v)) ->
  exists st1 st2,
    configureLintStaged E st = Next tt st1
    /\ configureLintStaged E st1 = Next tt st2
    /\ files st2 = files st1
    /\ package_text st2 = Some (JSON_stringify (with_lint_staged v)).
Proof.
  intros Hp Hnull Hfin Hdir Hread.
  destruct (parsed_file E st v Hp) as (text & mode & Hfile & Hparse).
  pose proof (configureLintStaged_runs E st text mode v Hfile Hparse Hnull Hdir)
    as H1.
  match type of H1 with _ = Next tt ?s => set (st1 := s) in * end.
  assert (Hfile1 : files st1 !! (cwd st1 ++ ["package.json"])
                   = Some (File (JSON_stringify (with_lint_staged v)) mode))
    by (cbn [st1 cwd files]; apply lookup_insert_eq).
  assert (Hdir1 : is_dir (files st1) (cwd st1) = true)
    by (now apply written_state).
  pose proof (configureLintStaged_runs E st1 _ mode _ Hfile1 Hread
                (norm_not_null _ (with_lint_staged_not_null v Hnull)
                   (with_lint_staged_finite v Hfin)) Hdir1) as H2.
  rewrite with_lint_staged_read_back, stringify_norm in H2.
  eexists st1, _. split; [exact H1|]. split; [exact H2|].
  cbn [files cwd st1]. split; [apply insert_insert_eq|].
  unfold package_text. cbn [cwd files]. now rewrite lookup_insert_eq.
Qed.

Lemma lint_staged_update_is_idempotent_witness :
  parsed (Sample.stub "" true) Sample.fresh = Some Sample.generated
  /\ Sample.generated <> JNull
  /\ Sample.generated <> JNum NonFinite
  /\ is_dir (files Sample.fresh) (cwd Sample.fresh) = true
  /\ parse (Sample.stub "" true)
       (JSON_stringify (with_lint_staged Sample.generated))
     = Some (norm (with_lint_staged Sample.generated))
  /\ exists st1 st2,
       configureLintStaged (Sample.stub "" true) Sample.fresh = Next tt st1
       /\ configureLintStaged (Sample.stub "" true) st1 = Next tt st2
       /\ files st2 = files st1
       /\ package_text st2
          = Some (JSON_stringify (with_lint_staged Sample.generated)).
Proof.
  assert (Hm : parsed (Sample.stub "" true) Sample.fresh = Some Sample.generated)
    by (vm_compute; reflexivity).
  assert (Hn : Sample.generated <> JNull) by discriminate.
  assert (Hf : Sample.generated <> JNum NonFinite) by discriminate.
  assert (Hd : is_dir (files Sample.fresh) (cwd Sample.fresh) = true)
    by (vm_compute; reflexivity).
  assert (Hr : parse (Sample.stub "" true)
                 (JSON_stringify (with_lint_staged Sample.generated))
               = Some (norm (with_lint_staged Sample.generated)))
    by (vm_compute; reflexivity).
  split; [exact Hm|]. split; [exact Hn|]. split; [exact Hf|].
  split; [exact Hd|]. split; [exact Hr|].
  exact (lint_staged_update_is_idempotent (Sample.stub "" true) Sample.fresh
           Sample.generated Hm Hn Hf Hd Hr).
Defined.


(* ===================================================================== *)
(** ** The shape of a run *)
(* ===================================================================== *)

Section Confined.

Variable E : env.
Variable d : string.
Variable tr0 : list event.

Lemma since_emit e st :
  since d tr0 st -> configuring d e = true -> since d tr0 (emit e st).
Proof.
  intros (Hcwd & more & Htr & Hmore) He. split; [exact Hcwd|].
  exists (more ++ [e]). cbn [emit trace]. rewrite Htr, app_assoc.
  split; [reflexivity|]. apply Forall_app. split; [exact Hmore | now constructor].
Qed.

Lemma since_files t st : since d tr0 st -> since d tr0 (with_files t st).
Proof. intros H. exact H. Qed.

Lemma configuring_write p text :
  known p text = true -> configuring d (WriteFile ([d] ++ p) text) = true.
Proof. intros H. cbn. now rewrite String.eqb_refl, H. Qed.

Lemma confined_bind {A B : Type} (m : M A) (k : A -> M B) :
  confined d tr0 m -> (forall a, confined d tr0 (k a)) -> confined d tr0 (bind m k).
Proof. intros Hm Hk. apply (triple_bind _ _ _ _ _ _ _ Hm Hk). Qed.

Lemma confined_catch {A : Type} (body : M A) handler :
  confined d tr0 body -> (forall e, confined d tr0 (handler e)) ->
  confined d tr0 (try_catch body handler).
Proof. intros Hb Hh. apply (triple_try_catch _ _ _ _ _ _ _ Hb Hh). Qed.

Lemma confined_ret {A : Type} (a : A) : confined d tr0 (ret a).
Proof. intros st H. exact H. Qed.

Lemma confined_throw {A : Type} e : confined d tr0 (@throw A e).
Proof. intros st H. exact H. Qed.

Lemma confined_when b (m : M unit) : confined d tr0 m -> confined d tr0 (when b m).
Proof. intros Hm. destruct b; [exact Hm | apply confined_ret]. Qed.

Lemma confined_parse text : confined d tr0 (JSON_parse_or_throw E text).
Proof.
  unfold JSON_parse_or_throw.
  destruct (parse E text); [apply confined_ret | apply confined_throw].
Qed.

Lemma confined_assign target key value : confined d tr0 (assign target key value).
Proof. destruct target; first [apply confined_ret | apply confined_throw]. Qed.

Lemma confined_member target key : confined d tr0 (member target key).
Proof. destruct target; first [apply confined_ret | apply confined_throw]. Qed.

Lemma confined_read p : confined d tr0 (fs_readFileSync p).
Proof.
  intros st H. unfold fs_readFileSync.
  destruct (files st !! (cwd st ++ p)) as [[]|]; exact H.
Qed.

Lemma confined_exists p : confined d tr0 (fs_existsSync p).
Proof. intros st H. exact H. Qed.

Lemma confined_log line : confined d tr0 (console_log line).
Proof. intros st H. now apply since_emit. Qed.

Lemma confined_log_all ls : confined d tr0 (log_all ls).
Proof.
  induction ls as [|l ls IH]; cbn [log_all]; [apply confined_ret|].
  apply confined_bind; [apply confined_log | intros _; exact IH].
Qed.

Lemma confined_write p text :
  known p text = true -> confined d tr0 (fs_writeFileSync p text).
Proof.
  intros Hk st H. pose proof H as (Hcwd & _).
  unfold fs_writeFileSync. cbv zeta. rewrite Hcwd.
  repeat case_match; simplify_eq; try exact H;
    apply since_emit; try apply since_files; try exact H;
    now apply configuring_write.
Qed.

Lemma confined_mkdir : confined d tr0 (fs_mkdirSync_recursive [".husky"]).
Proof.
  intros st H. pose proof H as (Hcwd & _).
  unfold fs_mkdirSync_recursive. cbv zeta. rewrite Hcwd.
  destruct (mkdir_p [] ([d] ++ [".husky"]) (files st)); [|exact H].
  apply since_emit; [apply since_files; exact H|].
  cbn. now apply bool_decide_eq_true.
Qed.

Lemma confined_chmod :
  confined d tr0 (fs_chmodSync E [".husky"; "pre-commit"] "755").
Proof.
  intros st H. pose proof H as (Hcwd & _).
  unfold fs_chmodSync. cbv zeta. rewrite Hcwd.
  assert (Hok : forall done,
            configuring d (Chmod ([d] ++ [".husky"; "pre-commit"]) "755" done) = true).
  { intros done. cbn. apply andb_true_intro. split; [|reflexivity].
    now apply bool_decide_eq_true. }
  repeat case_match; simplify_eq;
    apply since_emit; try apply since_files; try exact H; apply Hok.
Qed.

Ltac confined_steps :=
  repeat lazymatch goal with
    | |- confined _ _ (bind _ _) => apply confined_bind; [|intros ?]
    | |- confined _ _ (when _ _) => apply confined_when
    | |- confined _ _ (try_catch _ _) => apply confined_catch; [|intros ?]
    | |- confined _ _ (console_log _) => apply confined_log
    | |- confined _ _ (fs_writeFileSync _ _) => apply confined_write; reflexivity
    | |- confined _ _ (fs_readFileSync _) => apply confined_read
    | |- confined _ _ (fs_existsSync _) => apply confined_exists
    | |- confined _ _ (fs_mkdirSync_recursive _) => apply confined_mkdir
    | |- confined _ _ (fs_chmodSync _ _ _) => apply confined_chmod
    | |- confined _ _ (JSON_parse_or_throw _ _) => apply confined_parse
    | |- confined _ _ (assign _ _ _) => apply confined_assign
    | |- confined _ _ (member _ _) => apply confined_member
    | |- confined _ _ (log_all _) => apply confined_log_all
    | |- confined _ _ (ret _) => apply confined_ret
    end.

(** Lines 71-264 print on the standard output and change the known places
    of the project directory, and nothing else; they never end the
    process. *)
Lemma configuration_confined : confined d tr0 (configuration E d).
Proof.
  unfold configuration, writeConfigFiles, configureLintStaged, setupHuskyHook,
    addNpmScripts, printSummary, printMessage, printWarning.
  confined_steps.
Qed.


End Confined.

Section Outcomes.

Variable E : env.
Variable d : string.

(** One command: it exits with status 0 and the script goes on, or the
    diagnostic is printed and the process ends with status 1. *)
Lemma executeCommand_step cmd dir pre :
  triple (fun st => cwd st = dir /\ trace st = pre) (executeCommand E cmd)
    (fun _ st => cwd st = dir /\ trace st = pre ++ [Exec cmd dir (Some 0%Z)])
    (fun _ _ => False)
    (fun c st => c = 1%Z
       /\ exists status, succeeded status = false
            /\ trace st = pre ++ [Exec cmd dir status; diagnostic cmd]).
Proof.
  intros st [Hcwd Htr]. unfold executeCommand, try_catch, execSync.
  rewrite Hcwd.
  destruct (command E cmd dir (files st)) as [status t'].
  destruct status as [[| |]|];
    cbn [emit with_files trace cwd bind console_error process_exit].
  1: now rewrite Hcwd, Htr.
  all: split; [reflexivity|];
    match goal with |- context [Exec _ _ ?s] => exists s end;
    (split; [reflexivity|]); rewrite Htr, <- app_assoc; reflexivity.
Qed.

Ltac install_step k :=
  apply triple_bind with
    (Q := fun _ st => cwd st = [d] /\ trace st = take (5 + k) (installed d));
  [ eapply triple_weaken;
    [ apply (executeCommand_step _ [d] (take (4 + k) (installed d))) | .. ];
    cbv beta;
    [ tauto
    | intros _ st [? ->]; split; [assumption | reflexivity]
    | tauto
    | intros c st (-> & status & Hs & ->); split; [reflexivity|];
      exists (S k), status; split; [lia|]; split; [exact Hs | reflexivity] ]
  | intros _ ].

(** Lines 41-69, whatever the commands do. *)
Lemma installAll_outcomes :
  triple (fun st => cwd st = [] /\ trace st = [])
    (installAll E d)
    (fun _ st => cwd st = [d] /\ trace st = installed d)
    (fun e st => e = no_directory (files st) [d] /\ cwd st = [] /\ trace st = stranded d
                 /\ is_dir (files st) [d] = false)
    (fun c st => c = 1%Z /\ halted d (trace st)).
Proof.
  unfold installAll.
  apply triple_bind with
    (Q := fun _ st => cwd st = [] /\ trace st = [Stdout (banner d)]).
  { intros st [Hcwd Htr]. unfold printMessage, console_log.
    cbn [emit trace cwd]. rewrite Htr. now split. }
  intros _. apply triple_bind with
    (Q := fun _ st => cwd st = [] /\ trace st = stranded d).
  { eapply triple_weaken;
      [apply (executeCommand_step _ [] [Stdout (banner d)]) | ..]; cbv beta.
    - tauto.
    - intros _ st [? ->]. now split.
    - tauto.
    - intros c st (-> & status & Hs & ->). split; [reflexivity|].
      exists 0, status. split; [lia|]. now split. }
  intros _. apply triple_bind with
    (Q := fun _ st => cwd st = [d] /\ trace st = take 3 (installed d)).
  { intros st [Hcwd Htr]. unfold process_chdir. rewrite Hcwd. cbn [app].
    destruct (is_dir (files st) [d]) eqn:Hdir.
    - cbn [cwd trace]. now rewrite Htr.
    - now repeat split. }
  intros _. apply triple_bind with
    (Q := fun _ st => cwd st = [d] /\ trace st = take 4 (installed d)).
  { intros st [Hcwd Htr]. unfold printMessage, console_log.
    cbn [emit trace cwd]. rewrite Htr. now split. }
  intros _.
  install_step 0. install_step 1. install_step 2. install_step 3.
  install_step 4. install_step 5. install_step 6.
  eapply triple_weaken;
    [ apply (executeCommand_step _ [d] (take 11 (installed d))) | .. ];
    cbv beta.
  - tauto.
  - intros _ st [? ->]. split; [assumption | reflexivity].
  - tauto.
  - intros c st (-> & status & Hs & ->). split; [reflexivity|].
    exists 8, status. split; [lia|]. split; [exact Hs | reflexivity].
Qed.

End Outcomes.

Lemma since_start d st :
  cwd st = [d] -> trace st = installed d -> since d (installed d) st.
Proof.
  intros Hcwd Htr. split; [exact Hcwd|]. exists []. rewrite app_nil_r.
  split; [exact Htr | constructor].
Qed.

(** Every run that gets past the argument check: a command failed and the
    process ended with status 1; or the generator left no project
    directory and entering it threw; or all nine commands succeeded and
    everything since is configuration. *)
Lemma main_shape (E : env) (t : tree) (args : list string) (d : string) :
  args !! 0%nat = Some d -> falsy (Some d) = false ->
  match main E ("node" :: "init.js" :: args) (start t) with
  | Next _ st => since d (installed d) st
  | Thrown e st =>
      since d (installed d) st
      \/ (e = no_directory (files st) [d] /\ cwd st = [] /\ trace st = stranded d
          /\ is_dir (files st) [d] = false)
  | Exited c st => c = 1%Z /\ halted d (trace st)
  end.
Proof.
  intros Hd Hf. rewrite main_unfold.
  change (("node" :: "init.js" :: args) !! 2%nat) with (args !! 0%nat).
  rewrite Hd. cbn [interpolate].
  assert (H : triple (fun st => cwd st = [] /\ trace st = [])
            (checkProjectName (Some d) ;; installAll E d ;; configuration E d)
            (fun _ => since d (installed d))
            (fun e st => since d (installed d) st
               \/ (e = no_directory (files st) [d] /\ cwd st = [] /\ trace st = stranded d
                   /\ is_dir (files st) [d] = false))
            (fun c st => c = 1%Z /\ halted d (trace st))).
  { apply triple_bind with (Q := fun _ st => cwd st = [] /\ trace st = []).
    { intros st H. unfold checkProjectName. now rewrite Hf. }
    intros _. apply triple_bind with
      (Q := fun _ st => since d (installed d) st).
    - eapply triple_weaken; [apply installAll_outcomes | ..]; cbv beta.
      + tauto.
      + intros _ st [Hcwd Htr]. now apply since_start.
      + intros e st H. now right.
      + tauto.
    - intros _. eapply triple_weaken;
        [apply (configuration_confined E d (installed d)) | ..]; cbv beta.
      + tauto.
      + tauto.
      + intros e st H. now left.
      + tauto. }
  apply H. now split.
Qed.


(* ===================================================================== *)
(** ** After a refused permission change *)
(* ===================================================================== *)

Section Resumed.

Variable E : env.
Variable d : string.








End Resumed.

Section StagesWithErrors.

Variable E : env.


End StagesWithErrors.





(* ===================================================================== *)
(** ** What every run does, and in which order *)
(* ===================================================================== *)

Section TraceFacts.

Lemma execs_app a b : execs (a ++ b) = execs a ++ execs b.
Proof. apply omap_app. Qed.

Lemma configuring_quiet d e :
  configuring d e = true -> execution e = None /\ is_stderr e = false.
Proof. destruct e; cbn; try discriminate; now split. Qed.

Lemma execs_configuring d more :
  Forall (fun e => configuring d e = true) more -> execs more = [].
Proof.
  induction 1 as [|e more He _ IH]; [reflexivity|].
  unfold execs in *. cbn [omap list_omap].
  destruct (configuring_quiet d e He) as [-> _]. exact IH.
Qed.

Lemma execs_since d st :
  since d (installed d) st -> execs (trace st) = passed d.
Proof.
  intros (_ & more & -> & Hmore).
  rewrite execs_app, (execs_configuring d more Hmore). apply app_nil_r.
Qed.

Lemma installed_untouched d : Forall (fun e => touches e = false) (installed d).
Proof. repeat constructor. Qed.

Lemma installed_silent d : Forall (fun e => is_stderr e = false) (installed d).
Proof. repeat constructor. Qed.

Lemma stranded_untouched d : Forall (fun e => touches e = false) (stranded d).
Proof. repeat constructor. Qed.

Lemma stopped_untouched d n status :
  n < 9 -> Forall (fun e => touches e = false) (stopped d n status).
Proof.
  intros Hn. do 9 (destruct n as [|n]; [repeat constructor|]). lia.
Qed.

Lemma stopped_commands d n status :
  n < 9 ->
  map command_line (execs (stopped d n status)) = take (S n) (commands d).
Proof.
  intros Hn. do 9 (destruct n as [|n]; [reflexivity|]). lia.
Qed.

Lemma stopped_stderr d n status line :
  n < 9 -> In (Stderr line) (stopped d n status) ->
  exists cmd, In cmd (commands d) /\ line = "Failed to execute: " +:+ cmd.
Proof.
  intros Hn H.
  do 9 (destruct n as [|n];
        [ cbn in H; repeat (destruct H as [H|H]; [try discriminate H|]);
          [ injection H as <-; eexists; split; [|reflexivity]; cbn; tauto
          | destruct H ]
        | ]).
  lia.
Qed.

Lemma since_silent d st :
  since d (installed d) st -> Forall (fun e => is_stderr e = false) (trace st).
Proof.
  intros (_ & more & -> & Hmore). apply Forall_app. split.
  - apply installed_silent.
  - eapply Forall_impl; [exact Hmore|]. intros e He.
    now destruct (configuring_quiet d e He).
Qed.

(** An event of a trace without such events. *)
Lemma Forall_not_In {T : Type} (bad : T -> bool) (l : list T) (x : T) :
  Forall (fun e => bad e = false) l -> In x l -> bad x = true -> False.
Proof.
  intros H Hin Hx. rewrite Forall_forall in H.
  apply list_elem_of_In in Hin. specialize (H x Hin). congruence.
Qed.

(** An element that stands out of the first part of a list lies after
    it. *)
Lemma split_after {T : Type} (bad : T -> bool) (a b pre post : list T) (x : T) :
  a ++ b = pre ++ x :: post -> Forall (fun e => bad e = false) a ->
  bad x = true -> exists mid, pre = a ++ mid /\ b = mid ++ x :: post.
Proof.
  revert pre. induction a as [|y a IH]; intros pre Heq Ha Hx.
  - exists pre. now split.
  - inversion Ha as [|? ? Hy Ha']; subst. destruct pre as [|z pre].
    + cbn in Heq. injection Heq as -> _. congruence.
    + cbn in Heq. injection Heq as -> Heq.
      destruct (IH pre Heq Ha' Hx) as (mid & -> & ->). now exists mid.
Qed.

Lemma known_cases p text :
  known p text = true -> p = ["package.json"] \/ In (p, text) fixed_files.
Proof.
  unfold known. destruct (decide (p = ["package.json"])) as [->|_]; [now left|].
  intros H. right. apply existsb_exists in H as ([q c] & Hin & H).
  apply andb_prop in H as [Hp Hc]. apply bool_decide_eq_true in Hp.
  apply String.eqb_eq in Hc. cbn in Hp, Hc. now subst.
Qed.

Lemma take_prefix {T : Type} n (l : list T) : take n l `prefix_of` l.
Proof. exists (drop n l). symmetry. apply take_drop. Qed.

Lemma bind_next {A B : Type} (m : M A) (k : A -> M B) st b st2 :
  bind m k st = Next b st2 ->
  exists a st1, m st = Next a st1 /\ k a st1 = Next b st2.
Proof.
  unfold bind. destruct (m st) as [a st1| |]; try discriminate. eauto.
Qed.

End TraceFacts.

Section RunFacts.

Variable E : env.
Variable t : tree.
Variable args : list string.

(** The events by which a run changes the tree come after the installs
    and are configuration events. *)
Lemma touching_events (pre post : list event) (e : event) :
  trace (final (run E t args)) = pre ++ e :: post -> touches e = true ->
  exists d mid,
    args !! 0%nat = Some d /\ pre = installed d ++ mid
    /\ Forall (fun x => configuring d x = true) (mid ++ e :: post).
Proof.
  intros Htr He.
  assert (Hin : In e (trace (final (run E t args))))
    by (rewrite Htr; apply in_elt).
  destruct (run_cases E t args) as [Hrun | (d & Hd & Hf)].
  { exfalso. rewrite Hrun in Hin. cbn in Hin.
    destruct Hin as [<-|[<-|[]]]; discriminate. }
  pose proof (main_shape E t args d Hd Hf) as H.
  unfold run in *. rewrite final_finish in *.
  assert (Hsince : since d (installed d) (state_of (main E ("node" :: "init.js" :: args) (start t)))
                   \/ Forall (fun x => touches x = false)
                        (trace (state_of (main E ("node" :: "init.js" :: args) (start t))))).
  { destruct (main E _ (start t)) as [[] st|err st|c st]; cbn [state_of].
    - now left.
    - destruct H as [H | (_ & _ & -> & _)]; [now left | right].
      apply stranded_untouched.
    - destruct H as (_ & n & status & Hn & _ & ->). right.
      now apply stopped_untouched. }
  destruct Hsince as [(_ & more & Hmore & Hconf) | Hnone].
  - rewrite Htr in Hmore. symmetry in Hmore.
    destruct (split_after touches _ _ _ _ _ Hmore (installed_untouched d) He)
      as (mid & -> & ->).
    now exists d, mid.
  - exfalso. exact (Forall_not_In touches _ _ Hnone Hin He).
Qed.

End RunFacts.

(** X3. The commands of a run are the first commands of the script, in
    the order of the source: the generator, then the eight installs. *)
Theorem commands_run_in_source_order (E : env) (t : tree) (args : list string) :
  map command_line (execs (trace (final (run E t args))))
    `prefix_of` commands (interpolate (args !! 0%nat)).
Proof.
  destruct (run_cases E t args) as [Hrun | (d & Hd & Hf)].
  { rewrite Hrun. cbn. apply prefix_nil. }
  pose proof (main_shape E t args d Hd Hf) as H.
  rewrite Hd. cbn [interpolate].
  unfold run. rewrite final_finish.
  destruct (main E _ (start t)) as [[] st|err st|c st]; cbn [state_of].
  - rewrite (execs_since d st H). now exists [].
  - destruct H as [H | (_ & _ & -> & _)].
    + rewrite (execs_since d st H). now exists [].
    + now exists installs.
  - destruct H as (_ & n & status & Hn & _ & ->).
    rewrite stopped_commands by exact Hn. apply take_prefix.
Qed.

(** X4. A run that ends with exit status 0 has run all nine commands, in
    the order of the source: the generator in the initial directory, the
    eight installs in the project directory, each with exit status 0. *)
Theorem success_runs_every_command (E : env) (t : tree) (args : list string) :
  ending (run E t args) = Exit 0 ->
  exists d,
    args !! 0%nat = Some d
    /\ execs (trace (final (run E t args))) = passed d.
Proof.
  intros Hexit.
  destruct (run_cases E t args) as [Hrun | (d & Hd & Hf)];
    [rewrite Hrun in Hexit; discriminate|].
  pose proof (main_shape E t args d Hd Hf) as H.
  unfold run in *.
  destruct (main E _ (start t)) as [[] st|err st|c st]; cbn [finish ending final] in *.
  - exists d. split; [exact Hd | now apply execs_since].
  - discriminate.
  - destruct H as [-> _]. discriminate.
Qed.

Lemma success_runs_every_command_witness :
  ending Sample.smooth = Exit 0
  /\ exists d,
       ["demo"] !! 0%nat = Some d
       /\ execs (trace (final Sample.smooth)) = passed d.
Proof.
  assert (H : ending Sample.smooth = Exit 0) by (vm_compute; reflexivity).
  split; [exact H|].
  exact (success_runs_every_command (Sample.stub "" true) ∅ ["demo"] H).
Defined.

(** X5. The script changes nothing in the file tree before every command
    has succeeded: whenever it writes a file, creates a directory or
    changes a permission, all nine commands have run before, each with
    exit status 0. *)
Theorem nothing_is_written_before_the_installs_end (E : env) (t : tree)
    (args : list string) (pre post : list event) (e : event) :
  trace (final (run E t args)) = pre ++ e :: post ->
  touches e = true ->
  exists d, args !! 0%nat = Some d /\ execs pre = passed d.
Proof.
  intros Htr He.
  destruct (touching_events E t args pre post e Htr He)
    as (d & mid & Hd & -> & Hconf).
  exists d. split; [exact Hd|].
  apply Forall_app in Hconf as [Hmid _].
  rewrite execs_app, (execs_configuring d mid Hmid). apply app_nil_r.
Qed.

Lemma nothing_is_written_before_the_installs_end_witness :
  trace (final Sample.smooth) =
    take 13 (trace (final Sample.smooth))
    ++ WriteFile ["demo"; ".postcssrc.json"] tailwindConfig
       :: drop 14 (trace (final Sample.smooth))
  /\ touches (WriteFile ["demo"; ".postcssrc.json"] tailwindConfig) = true
  /\ exists d,
       ["demo"] !! 0%nat = Some d
       /\ execs (take 13 (trace (final Sample.smooth))) = passed d.
Proof.
  assert (H : trace (final Sample.smooth) =
              take 13 (trace (final Sample.smooth))
              ++ WriteFile ["demo"; ".postcssrc.json"] tailwindConfig
                 :: drop 14 (trace (final Sample.smooth)))
    by (vm_compute; reflexivity).
  split; [exact H|]. split; [reflexivity|].
  exact (nothing_is_written_before_the_installs_end
           (Sample.stub "" true) ∅ ["demo"] _ _ _ H eq_refl).
Defined.

(** X6. Every file the script itself writes lies in the project
    directory and is the manifest or one of the six files with a fixed
    content, written with that content. *)
Theorem writes_stay_in_the_project (E : env) (t : tree) (args : list string)
    (l : list string) (text : string) :
  In (WriteFile l text) (trace (final (run E t args))) ->
  exists d p,
    args !! 0%nat = Some d /\ l = d :: p
    /\ (p = ["package.json"] \/ In (p, text) fixed_files).
Proof.
  intros Hin. apply in_split in Hin as (pre & post & Htr).
  destruct (touching_events E t args pre post _ Htr eq_refl)
    as (d & mid & Hd & _ & Hconf).
  apply Forall_app in Hconf as [_ Hconf].
  inversion Hconf as [|? ? He _]; subst.
  cbn in He. destruct l as [|x p]; [discriminate|].
  apply andb_prop in He as [Hx Hk]. apply String.eqb_eq in Hx. subst x.
  exists d, p. split; [exact Hd|]. split; [reflexivity|].
  now apply known_cases.
Qed.

Lemma writes_stay_in_the_project_witness :
  In (WriteFile ["demo"; "eslint.config.js"] eslintConfig)
     (trace (final Sample.smooth))
  /\ exists d p,
       ["demo"] !! 0%nat = Some d /\ ["demo"; "eslint.config.js"] = d :: p
       /\ (p = ["package.json"] \/ In (p, eslintConfig) fixed_files).
Proof.
  assert (H : In (WriteFile ["demo"; "eslint.config.js"] eslintConfig)
                 (trace (final Sample.smooth)))
    by (vm_compute; tauto).
  split; [exact H|].
  exact (writes_stay_in_the_project (Sample.stub "" true) ∅ ["demo"] _ _ H).
Defined.

(** X7. The only directory the script itself creates is [.husky] in the
    project directory, and the only permission it changes is that of
    [.husky/pre-commit] there, to mode 755. *)
Theorem only_the_hook_is_created_and_made_executable (E : env) (t : tree)
    (args : list string) (e : event) :
  In e (trace (final (run E t args))) ->
  match e with
  | Mkdir l => exists d, args !! 0%nat = Some d /\ l = [d; ".husky"]
  | Chmod l mode _ =>
      exists d, args !! 0%nat = Some d
        /\ l = [d; ".husky"; "pre-commit"] /\ mode = "755"
  | _ => True
  end.
Proof.
  intros Hin. apply in_split in Hin as (pre & post & Htr).
  destruct e as [| | | |l|l text|l mode done]; try exact I.
  - destruct (touching_events E t args pre post _ Htr eq_refl)
      as (d & mid & Hd & _ & Hconf).
    apply Forall_app in Hconf as [_ Hconf].
    inversion Hconf as [|? ? He _]; subst.
    apply bool_decide_eq_true in He. now exists d.
  - destruct (touching_events E t args pre post _ Htr eq_refl)
      as (d & mid & Hd & _ & Hconf).
    apply Forall_app in Hconf as [_ Hconf].
    inversion Hconf as [|? ? He _]; subst.
    cbn in He. apply andb_prop in He as [Hl Hm].
    apply bool_decide_eq_true in Hl. apply String.eqb_eq in Hm.
    now exists d.
Qed.

Lemma only_the_hook_is_created_and_made_executable_witness :
  In (Chmod ["demo"; ".husky"; "pre-commit"] "755" false)
     (trace (final Sample.refused))
  /\ exists d, ["demo"] !! 0%nat = Some d
       /\ ["demo"; ".husky"; "pre-commit"] = [d; ".husky"; "pre-commit"]
       /\ "755" = "755".
Proof.
  assert (H : In (Chmod ["demo"; ".husky"; "pre-commit"] "755" false)
                 (trace (final Sample.refused)))
    by (vm_compute; tauto).
  split; [exact H|].
  exact (only_the_hook_is_created_and_made_executable
           (Sample.stub "" false) ∅ ["demo"] _ H).
Defined.


(* ===================================================================== *)
(** ** How a run ends *)
(* ===================================================================== *)

Lemma stopped_last d n status :
  n < 9 -> exists cmd,
    In cmd (commands d)
    /\ last (stopped d n status) = Some (Stderr ("Failed to execute: " +:+ cmd)).
Proof.
  intros Hn.
  do 9 (destruct n as [|n];
        [eexists; split; [|reflexivity]; cbn; tauto|]).
  lia.
Qed.

Lemma main_ends_with_summary (E : env) (argv : list string) (d : string) st st' :
  argv !! 2%nat = Some d ->
  main E argv st = Next tt st' -> exists pre, trace st' = pre ++ closing d.
Proof.
  intros Hd H. rewrite main_unfold, Hd in H. cbn [interpolate] in H.
  apply bind_next in H as (_ & st1 & _ & H).
  apply bind_next in H as (_ & st2 & _ & H).
  unfold configuration in H.
  do 4 apply bind_next in H as (_ & ? & _ & H).
  rewrite (printSummary_runs d) in H. injection H as <-.
  cbn [trace]. eauto.
Qed.

(** X8. A run that ends with exit status 0 has printed the closing
    summary last, and has printed nothing on the error stream. *)
Theorem success_ends_with_the_summary (E : env) (t : tree) (args : list string) :
  ending (run E t args) = Exit 0 ->
  exists d pre,
    args !! 0%nat = Some d
    /\ trace (final (run E t args)) = pre ++ closing d
    /\ Forall (fun e => is_stderr e = false) (trace (final (run E t args))).
Proof.
  intros Hexit.
  destruct (run_cases E t args) as [Hrun | (d & Hd & Hf)];
    [rewrite Hrun in Hexit; discriminate|].
  pose proof (main_shape E t args d Hd Hf) as H.
  pose proof (main_ends_with_summary E ("node" :: "init.js" :: args) d (start t))
    as Hsum.
  unfold run in *.
  destruct (main E _ (start t)) as [[] st|err st|c st]; cbn [finish ending final] in *.
  - destruct (Hsum st Hd eq_refl) as (pre & Hpre).
    exists d, pre. split; [exact Hd|]. split; [exact Hpre|].
    now apply (since_silent d).
  - discriminate.
  - destruct H as [-> _]. discriminate.
Qed.

Lemma success_ends_with_the_summary_witness :
  ending Sample.refused = Exit 0
  /\ exists d pre,
       ["demo"] !! 0%nat = Some d
       /\ trace (final Sample.refused) = pre ++ closing d
       /\ Forall (fun e => is_stderr e = false) (trace (final Sample.refused)).
Proof.
  assert (H : ending Sample.refused = Exit 0) by (vm_compute; reflexivity).
  split; [exact H|].
  exact (success_ends_with_the_summary (Sample.stub "" false) ∅ ["demo"] H).
Defined.

(** X9. Whatever the script prints on the error stream, the run ends with
    exit status 1; the line is a usage line or the diagnostic of one of
    the nine commands. *)
Theorem stderr_means_exit_status_one (E : env) (t : tree) (args : list string)
    (line : string) :
  In (Stderr line) (trace (final (run E t args))) ->
  ending (run E t args) = Exit 1
  /\ (In line usage
      \/ exists cmd, In cmd (commands (interpolate (args !! 0%nat)))
           /\ line = "Failed to execute: " +:+ cmd).
Proof.
  intros Hin.
  destruct (run_cases E t args) as [Hrun | (d & Hd & Hf)].
  { rewrite Hrun in *. split; [reflexivity|]. left. cbn [final trace] in Hin.
    apply in_map_iff in Hin as (x & [= ->] & Hx). exact Hx. }
  pose proof (main_shape E t args d Hd Hf) as H.
  rewrite Hd. cbn [interpolate]. unfold run in *.
  destruct (main E _ (start t)) as [[] st|err st|c st]; cbn [finish ending final] in *.
  - exfalso. exact (Forall_not_In is_stderr _ _ (since_silent d st H) Hin eq_refl).
  - exfalso. destruct H as [H | (_ & _ & Htr & _)].
    + exact (Forall_not_In is_stderr _ _ (since_silent d st H) Hin eq_refl).
    + rewrite Htr in Hin. cbn in Hin. destruct Hin as [?|[?|[]]]; discriminate.
  - destruct H as (-> & n & status & Hn & _ & Htr). split; [reflexivity|].
    right. rewrite Htr in Hin. now apply (stopped_stderr d n status).
Qed.

Lemma stderr_means_exit_status_one_witness :
  In (Stderr ("Failed to execute: " +:+ Sample.second_install))
     (trace (final Sample.broken))
  /\ ending Sample.broken = Exit 1
  /\ (In ("Failed to execute: " +:+ Sample.second_install) usage
      \/ exists cmd, In cmd (commands (interpolate (["demo"] !! 0%nat)))
           /\ "Failed to execute: " +:+ Sample.second_install
              = "Failed to execute: " +:+ cmd).
Proof.
  assert (H : In (Stderr ("Failed to execute: " +:+ Sample.second_install))
                 (trace (final Sample.broken)))
    by (vm_compute; tauto).
  split; [exact H|].
  exact (stderr_means_exit_status_one
           (Sample.stub Sample.second_install true) ∅ ["demo"] _ H).
Defined.

(** X10. When the script ends the process itself, by [process.exit]
    rather than by reaching its end or by an uncaught error, the status is
    1 and the last thing it did was to print a line on the error stream. *)
Theorem exit_status_one_is_reported (E : env) (t : tree) (args : list string)
    (c : Z) :
  ending (run E t args) = Exit c -> c <> 0%Z ->
  c = 1%Z
  /\ exists line, last (trace (final (run E t args))) = Some (Stderr line).
Proof.
  intros Hexit Hc.
  destruct (run_cases E t args) as [Hrun | (d & Hd & Hf)].
  { rewrite Hrun in *. injection Hexit as <-. split; [reflexivity|].
    eexists. reflexivity. }
  pose proof (main_shape E t args d Hd Hf) as H.
  unfold run in *.
  destruct (main E _ (start t)) as [[] st|err st|c' st]; cbn [finish ending final] in *.
  - congruence.
  - discriminate.
  - destruct H as (-> & n & status & Hn & _ & Htr). injection Hexit as <-.
    split; [reflexivity|]. rewrite Htr.
    destruct (stopped_last d n status Hn) as (cmd & _ & Hlast). eauto.
Qed.

Lemma exit_status_one_is_reported_witness :
  ending Sample.broken = Exit 1 /\ 1%Z <> 0%Z
  /\ 1%Z = 1%Z
  /\ exists line, last (trace (final Sample.broken)) = Some (Stderr line).
Proof.
  assert (H : ending Sample.broken = Exit 1) by (vm_compute; reflexivity).
  assert (Hc : 1%Z <> 0%Z) by discriminate.
  split; [exact H|]. split; [exact Hc|].
  exact (exit_status_one_is_reported
           (Sample.stub Sample.second_install true) ∅ ["demo"] 1 H Hc).
Defined.

(** X11. When the generator exits with status 0 without leaving a
    directory of the project's name, entering it throws: the run ends
    with an uncaught error right after the generator, in the initial
    directory, with no install run and nothing written by the script. *)
Theorem missing_project_directory_is_uncaught (E : env) (t t' : tree)
    (d : string) (rest : list string) :
  d <> "" ->
  command E (generation d) [] t = (Some 0%Z, t') ->
  t' !! [d] = None ->
  run E t (d :: rest) =
  {| ending := Uncaught "ENOENT";
     final := {| cwd := []; files := t'; trace := stranded d |} |}.
Proof.
  intros Hne Hcmd Hnone.
  assert (Hdir : is_dir t' [d] = false) by (unfold is_dir; now rewrite Hnone).
  assert (Hf : falsy (Some d) = false) by (cbn; now apply String.eqb_neq).
  unfold run. rewrite main_unfold.
  change (("node" :: "init.js" :: d :: rest) !! 2%nat) with (Some d).
  cbn [interpolate]. unfold bind at 1. unfold checkProjectName.
  rewrite Hf. cbn [when ret]. unfold bind at 1.
  unfold installAll, bind, printMessage, console_log, executeCommand,
    try_catch, execSync, process_chdir.
  cbn [start emit with_files cwd files trace app].
  fold (generation d). rewrite Hcmd. cbn [emit with_files cwd files trace app].
  change (cwd (start t) ++ [d]) with [d]. rewrite Hdir.
  unfold no_directory. cbn [files]. rewrite Hnone. reflexivity.
Qed.

Lemma missing_project_directory_is_uncaught_witness :
  "other" <> ""
  /\ command (Sample.stub "" true) (generation "other") [] ∅ = (Some 0%Z, ∅)
  /\ (∅ : gmap (list string) node) !! ["other"] = None
  /\ run (Sample.stub "" true) ∅ ["other"] =
     {| ending := Uncaught "ENOENT";
        final := {| cwd := []; files := ∅; trace := stranded "other" |} |}.
Proof.
  assert (H1 : "other" <> "") by discriminate.
  assert (H2 : command (Sample.stub "" true) (generation "other") [] ∅
               = (Some 0%Z, ∅)) by reflexivity.
  assert (H3 : (∅ : gmap (list string) node) !! ["other"] = None)
    by reflexivity.
  split; [exact H1|]. split; [exact H2|]. split; [exact H3|].
  exact (missing_project_directory_is_uncaught
           (Sample.stub "" true) ∅ ∅ "other" [] H1 H2 H3).
Defined.


(* ===================================================================== *)
(** ** The files a successful run leaves *)
(* ===================================================================== *)

Section Sets.

Variable E : env.
Variable d : string.

Lemma sets_bind {A B : Type} fs fs1 fs2 (m : M A) (k : A -> M B) :
  sets d fs m fs1 -> (forall a, sets d fs1 (k a) fs2) -> sets d fs (bind m k) fs2.
Proof. intros Hm Hk. apply (triple_bind _ _ _ _ _ _ _ Hm Hk). Qed.

Lemma sets_ret {A : Type} fs (a : A) : sets d fs (ret a) fs.
Proof. intros st H. exact H. Qed.

Lemma sets_when fs b (m : M unit) : sets d fs m fs -> sets d fs (when b m) fs.
Proof. intros Hm. destruct b; [exact Hm | apply sets_ret]. Qed.

Lemma sets_log fs line : sets d fs (console_log line) fs.
Proof. intros st H. exact H. Qed.

Lemma sets_log_all fs ls : sets d fs (log_all ls) fs.
Proof.
  induction ls as [|l ls IH]; cbn [log_all]; [apply sets_ret|].
  eapply sets_bind; [apply sets_log | intros _; exact IH].
Qed.

Lemma sets_read fs p : sets d fs (fs_readFileSync p) fs.
Proof.
  intros st H. unfold fs_readFileSync.
  destruct (files st !! (cwd st ++ p)) as [[]|]; first [exact H | exact I].
Qed.

Lemma sets_exists fs p : sets d fs (fs_existsSync p) fs.
Proof. intros st H. exact H. Qed.

Lemma sets_parse fs text : sets d fs (JSON_parse_or_throw E text) fs.
Proof.
  intros st H. unfold JSON_parse_or_throw.
  destruct (parse E text); [exact H | exact I].
Qed.

Lemma sets_assign fs target key value : sets d fs (assign target key value) fs.
Proof. intros st H. destruct target; first [exact H | exact I]. Qed.

Lemma sets_member fs target key : sets d fs (member target key) fs.
Proof. intros st H. destruct target; first [exact H | exact I]. Qed.

(** A write adds its file to those that have their texts. *)
Lemma sets_write_add fs p text :
  ~ In p (map fst fs) -> sets d fs (fs_writeFileSync p text) ((p, text) :: fs).
Proof.
  intros Hp st [Hcwd Hfs]. unfold fs_writeFileSync. cbv zeta. rewrite Hcwd.
  assert (Hrest : forall node,
            Forall (fun f => content <$> (<[[d] ++ p := node]> (files st) !! (d :: f.1))
                             = Some (Some f.2)) fs).
  { intros node. rewrite Forall_forall in *. intros f Hf.
    rewrite lookup_insert_ne; [now apply Hfs|].
    intros [= Heq]. apply Hp. apply in_map_iff. exists f.
    split; [now symmetry|]. now apply list_elem_of_In. }
  destruct (is_dir (files st) (parent ([d] ++ p))); [|exact I].
  destruct (files st !! ([d] ++ p)) as [[old mode|]|]; try exact I;
    (split; [exact Hcwd|]); cbn [emit with_files files];
    (constructor; [cbn [fst snd]; now rewrite lookup_insert_eq | apply Hrest]).
Qed.

Lemma sets_write_other fs p text :
  ~ In p (map fst fs) -> sets d fs (fs_writeFileSync p text) fs.
Proof.
  intros Hp. eapply triple_weaken; [apply (sets_write_add fs p text Hp) | ..];
    cbv beta; auto.
  intros _ st [Hcwd H]. split; [exact Hcwd|]. now inversion H.
Qed.

Lemma sets_mkdir fs p : sets d fs (fs_mkdirSync_recursive p) fs.
Proof.
  intros st [Hcwd Hfs]. unfold fs_mkdirSync_recursive. cbv zeta.
  destruct (mkdir_p [] (cwd st ++ p) (files st)) as [t'|] eqn:Hmk; [|exact I].
  split; [exact Hcwd|]. cbn [emit with_files files].
  eapply Forall_impl; [exact Hfs|]. intros f Hf. cbv beta in *.
  destruct (files st !! (d :: f.1)) as [n|] eqn:Hn; [|discriminate].
  now rewrite (mkdir_p_keeps _ _ _ _ _ _ Hmk Hn).
Qed.

(** The permission change, done or refused, changes no text. *)
Lemma sets_chmod_catch fs p mode handler_line :
  sets d fs
    (try_catch (fs_chmodSync E p mode) (fun _ => printWarning handler_line)) fs.
Proof.
  intros st [Hcwd Hfs]. unfold try_catch, fs_chmodSync, printWarning, console_log.
  cbv zeta.
  destruct (files st !! (cwd st ++ p)) as [[text m|]|] eqn:Hl;
    [destruct (chmod_permitted E (cwd st ++ p)) |
     destruct (chmod_permitted E (cwd st ++ p)) |];
    (split; [exact Hcwd|]); cbn [emit with_files files]; try exact Hfs.
  eapply Forall_impl; [exact Hfs|]. intros f Hf. cbv beta in *.
  destruct (decide (d :: f.1 = cwd st ++ p)) as [Heq|Hne].
  - rewrite Heq in *. rewrite lookup_insert_eq. now rewrite Hl in Hf.
  - now rewrite lookup_insert_ne.
Qed.

Ltac sets_side :=
  unfold path_join, file_name; cbn; intuition discriminate.

Ltac sets_steps :=
  repeat lazymatch goal with
    | |- sets _ _ (bind _ _) _ => eapply sets_bind; [|intros ?]
    | |- sets _ _ (when _ _) _ => apply sets_when
    | |- sets _ _ (try_catch _ _) _ => apply sets_chmod_catch
    | |- sets _ _ (console_log _) _ => apply sets_log
    | |- sets _ _ (fs_writeFileSync (file_name "package.json") _) _ =>
        apply sets_write_other; sets_side
    | |- sets _ _ (fs_writeFileSync _ _) _ => apply sets_write_add; sets_side
    | |- sets _ _ (fs_readFileSync _) _ => apply sets_read
    | |- sets _ _ (fs_existsSync _) _ => apply sets_exists
    | |- sets _ _ (fs_mkdirSync_recursive _) _ => apply sets_mkdir
    | |- sets _ _ (JSON_parse_or_throw _ _) _ => apply sets_parse
    | |- sets _ _ (assign _ _ _) _ => apply sets_assign
    | |- sets _ _ (member _ _) _ => apply sets_member
    | |- sets _ _ (log_all _) _ => apply sets_log_all
    | |- sets _ _ (ret _) _ => apply sets_ret
    end.

Lemma writeConfigFiles_sets :
  sets d [] writeConfigFiles
    [ (["eslint.config.js"], eslintConfig);
      ([".prettierignore"], prettierIgnore);
      ([".prettierrc"], JSON_stringify prettierConfig);
      (["src"; "styles.scss"], stylesScss);
      ([".postcssrc.json"], tailwindConfig) ].
Proof. unfold writeConfigFiles, printMessage. sets_steps. Qed.

(** Lines 71-264, when they complete, leave the six fixed files with
    their texts. *)
Lemma configuration_sets :
  sets d [] (configuration E d)
    [ ([".husky"; "pre-commit"], preCommitHook);
      (["eslint.config.js"], eslintConfig);
      ([".prettierignore"], prettierIgnore);
      ([".prettierrc"], JSON_stringify prettierConfig);
      (["src"; "styles.scss"], stylesScss);
      ([".postcssrc.json"], tailwindConfig) ].
Proof.
  unfold configuration, writeConfigFiles, configureLintStaged, setupHuskyHook,
    addNpmScripts, printSummary, printMessage.
  sets_steps.
Qed.

End Sets.

(** A run that completes has got through the installs and then through
    the configuration. *)
Lemma main_next (E : env) (t : tree) (args : list string) (d : string) st :
  args !! 0%nat = Some d -> falsy (Some d) = false ->
  main E ("node" :: "init.js" :: args) (start t) = Next tt st ->
  exists st1,
    cwd st1 = [d] /\ trace st1 = installed d
    /\ configuration E d st1 = Next tt st.
Proof.
  intros Hd Hf H. rewrite main_unfold in H.
  change (("node" :: "init.js" :: args) !! 2%nat) with (args !! 0%nat) in H.
  rewrite Hd in H. cbn [interpolate] in H.
  apply bind_next in H as (u & st0 & H0 & H).
  unfold checkProjectName in H0. rewrite Hf in H0.
  injection H0 as _ Hst. subst st0.
  apply bind_next in H as ([] & st1 & H1 & H).
  pose proof (installAll_outcomes E d (start t) (conj eq_refl eq_refl)) as Hout.
  rewrite H1 in Hout. destruct Hout as [Hcwd Htr]. now exists st1.
Qed.

Lemma success_next (E : env) (t : tree) (args : list string) :
  ending (run E t args) = Exit 0 ->
  exists d st1,
    args !! 0%nat = Some d
    /\ cwd st1 = [d] /\ trace st1 = installed d
    /\ configuration E d st1 = Next tt (final (run E t args)).
Proof.
  intros Hexit.
  destruct (run_cases E t args) as [Hrun | (d & Hd & Hf)];
    [rewrite Hrun in Hexit; discriminate|].
  pose proof (main_shape E t args d Hd Hf) as Hshape.
  pose proof (main_next E t args d) as Hnext.
  unfold run in *.
  destruct (main E _ (start t)) as [[] st|err st|c st]; cbn [finish ending final] in *.
  - destruct (Hnext st Hd Hf eq_refl) as (st1 & H). now exists d, st1.
  - discriminate.
  - destruct Hshape as [-> _]. discriminate.
Qed.

(** X12. After a run that ends with exit status 0, each of the six
    files with a fixed content is there, in the project directory, with
    that content: the Tailwind configuration, the stylesheet, the two
    formatter files, the linter configuration and the pre-commit hook. *)
Theorem fixed_files_after_success (E : env) (t : tree) (args : list string) :
  ending (run E t args) = Exit 0 ->
  exists d,
    args !! 0%nat = Some d
    /\ forall p text, In (p, text) fixed_files ->
         content <$> (files (final (run E t args)) !! (d :: p)) = Some (Some text).
Proof.
  intros Hexit.
  destruct (success_next E t args Hexit) as (d & st1 & Hd & Hcwd & _ & Hconf).
  exists d. split; [exact Hd|]. intros p text Hin.
  pose proof (configuration_sets E d st1 (conj Hcwd (Forall_nil_2 _))) as H.
  rewrite Hconf in H. destruct H as [_ H].
  rewrite Forall_forall in H.
  apply (H (p, text)). apply list_elem_of_In. cbn in Hin |- *. tauto.
Qed.

Lemma fixed_files_after_success_witness :
  ending Sample.smooth = Exit 0
  /\ exists d,
       ["demo"] !! 0%nat = Some d
       /\ forall p text, In (p, text) fixed_files ->
            content <$> (files (final Sample.smooth) !! (d :: p)) = Some (Some text).
Proof.
  assert (H : ending Sample.smooth = Exit 0) by (vm_compute; reflexivity).
  split; [exact H|].
  exact (fixed_files_after_success (Sample.stub "" true) ∅ ["demo"] H).
Defined.


(* ===================================================================== *)
(** ** The manifest updates, whatever the manifest *)
(* ===================================================================== *)

Section Outcomes2.

Variable E : env.

Ltac update_fails Hfile :=
  right;
  unfold configureLintStaged, addNpmScripts, bind;
  rewrite printMessage_decorated;
  unfold console_log, fs_readFileSync, file_name, JSON_parse_or_throw;
  cbn [emit cwd files trace]; rewrite Hfile.

(** The first update completes, on a manifest that is read and is not
    [null], or throws before it has written anything. *)
Lemma configureLintStaged_outcome st :
  (exists text mode v,
     files st !! (cwd st ++ ["package.json"]) = Some (File text mode)
     /\ parse E text = Some v /\ v <> JNull
     /\ is_dir (files st) (cwd st) = true)
  \/ (exists e, configureLintStaged E st =
        Thrown e (emit (Stdout (decorated "Configuring lint-staged...")) st)).
Proof.
  destruct (files st !! (cwd st ++ ["package.json"])) as [[text mode|]|] eqn:Hfile.
  - destruct (parse E text) as [v|] eqn:Hparse.
    + destruct (is_dir (files st) (cwd st)) eqn:Hdir.
      * destruct v eqn:Hv;
          [ update_fails Hfile; rewrite Hparse; eexists; reflexivity
          | left; eexists _, _, _; repeat split; eauto; discriminate .. ].
      * update_fails Hfile. rewrite Hparse. cbn [ret].
        destruct v; unfold assign, ret, throw; try (eexists; reflexivity);
          unfold fs_writeFileSync; cbv zeta; cbn [emit cwd files trace];
          rewrite parent_snoc, Hdir; eexists; reflexivity.
    + update_fails Hfile. rewrite Hparse. eexists. reflexivity.
  - update_fails Hfile. eexists. reflexivity.
  - update_fails Hfile. eexists. reflexivity.
Qed.

Lemma addNpmScripts_outcome st :
  (exists text mode v,
     files st !! (cwd st ++ ["package.json"]) = Some (File text mode)
     /\ parse E text = Some v /\ v <> JNull
     /\ is_dir (files st) (cwd st) = true)
  \/ (exists e, addNpmScripts E st =
        Thrown e (emit (Stdout (decorated "Adding npm scripts...")) st)).
Proof.
  destruct (files st !! (cwd st ++ ["package.json"])) as [[text mode|]|] eqn:Hfile.
  - destruct (parse E text) as [v|] eqn:Hparse.
    + destruct (is_dir (files st) (cwd st)) eqn:Hdir.
      * destruct v eqn:Hv;
          [ update_fails Hfile; rewrite Hparse; eexists; reflexivity
          | left; eexists _, _, _; repeat split; eauto; discriminate .. ].
      * update_fails Hfile. rewrite Hparse. cbn [ret].
        destruct v; unfold member, assign, ret, throw; try (eexists; reflexivity);
          unfold fs_writeFileSync; cbv zeta; cbn [emit cwd files trace];
          rewrite parent_snoc, Hdir; eexists; reflexivity.
    + update_fails Hfile. rewrite Hparse. eexists. reflexivity.
  - update_fails Hfile. eexists. reflexivity.
  - update_fails Hfile. eexists. reflexivity.
Qed.

End Outcomes2.

(** X13. A manifest update that fails leaves the file tree as it was:
    whenever the [lint-staged] update or the scripts update throws, no
    file has been changed, and the process is in the same directory. *)
Theorem failed_manifest_update_changes_nothing (E : env) (st st' : state)
    (e : string) :
  configureLintStaged E st = Thrown e st' \/ addNpmScripts E st = Thrown e st' ->
  files st' = files st /\ cwd st' = cwd st.
Proof.
  intros [H|H].
  - destruct (configureLintStaged_outcome E st)
      as [(text & mode & v & Hfile & Hparse & Hnull & Hdir) | (e' & Hthrown)].
    + rewrite (configureLintStaged_runs E st text mode v Hfile Hparse Hnull Hdir) in H.
      discriminate.
    + rewrite Hthrown in H. injection H as _ <-. now split.
  - destruct (addNpmScripts_outcome E st)
      as [(text & mode & v & Hfile & Hparse & Hnull & Hdir) | (e' & Hthrown)].
    + rewrite (addNpmScripts_runs E st text mode v Hfile Hparse Hnull Hdir) in H.
      discriminate.
    + rewrite Hthrown in H. injection H as _ <-. now split.
Qed.

Lemma failed_manifest_update_changes_nothing_witness :
  (configureLintStaged (Sample.stub "" true) (start ∅) =
     Thrown "ENOENT" (emit (Stdout (decorated "Configuring lint-staged...")) (start ∅))
   \/ addNpmScripts (Sample.stub "" true) (start ∅) =
     Thrown "ENOENT" (emit (Stdout (decorated "Configuring lint-staged...")) (start ∅)))
  /\ files (emit (Stdout (decorated "Configuring lint-staged...")) (start ∅))
     = files (start ∅)
  /\ cwd (emit (Stdout (decorated "Configuring lint-staged...")) (start ∅))
     = cwd (start ∅).
Proof.
  assert (H : configureLintStaged (Sample.stub "" true) (start ∅) =
                Thrown "ENOENT"
                  (emit (Stdout (decorated "Configuring lint-staged...")) (start ∅))
              \/ addNpmScripts (Sample.stub "" true) (start ∅) =
                 Thrown "ENOENT"
                   (emit (Stdout (decorated "Configuring lint-staged...")) (start ∅)))
    by (left; reflexivity).
  split; [exact H|].
  exact (failed_manifest_update_changes_nothing _ _ _ _ H).
Defined.

Section AfterSuccess.

Variable E : env.
Variable d : string.

Lemma write_next p text st st' :
  fs_writeFileSync p text st = Next tt st' ->
  cwd st' = cwd st
  /\ exists mode, files st' = <[cwd st ++ p := File text mode]> (files st).
Proof.
  unfold fs_writeFileSync. cbv zeta.
  destruct (is_dir (files st) (parent (cwd st ++ p))); [|discriminate].
  destruct (files st !! (cwd st ++ p)) as [[old mode|]|]; try discriminate;
    intros [= <-]; (split; [reflexivity|]); eexists; reflexivity.
Qed.

(** The configuration stage, when it completes: the hook set-up completed
    in the project directory; the first update read a value [v0] from the
    manifest and wrote its update; the second read a value [v1] from that
    text, and the manifest is its update, serialised. *)
Lemma configuration_next st1 st :
  cwd st1 = [d] -> configuration E d st1 = Next tt st ->
  exists st3 st4 text0 v0 v1 mode,
    cwd st3 = [d] /\ setupHuskyHook E st3 = Next tt st4
    /\ parse E text0 = Some v0 /\ v0 <> JNull
    /\ parse E (JSON_stringify (with_lint_staged v0)) = Some v1 /\ v1 <> JNull
    /\ cwd st = [d]
    /\ files st = <[ [d; "package.json"] :=
                       File (JSON_stringify (with_scripts v1)) mode ]>
                    (files st4).
Proof.
  intros Hcwd H. unfold configuration in H.
  apply bind_next in H as ([] & st2 & H2 & H).
  apply bind_next in H as ([] & st3 & H3 & H).
  apply bind_next in H as ([] & st4 & H4 & H).
  apply bind_next in H as ([] & st5 & H5 & H).
  rewrite (printSummary_runs d) in H. injection H as <-. cbn [cwd files].
  (* the fixed files *)
  pose proof (writeConfigFiles_sets d st1 (conj Hcwd (Forall_nil_2 _))) as Hw.
  rewrite H2 in Hw. destruct Hw as [Hcwd2 _].
  (* the first update *)
  destruct (configureLintStaged_outcome E st2)
    as [(text & mode & v & Hfile & Hparse & Hnull & Hdir) | (e' & Hthrown)];
    [|rewrite Hthrown in H3; discriminate].
  rewrite (configureLintStaged_runs E st2 text mode v Hfile Hparse Hnull Hdir) in H3.
  injection H3 as <-.
  set (w := with_lint_staged v) in *.
  rewrite Hcwd2 in *. cbn [app] in *.
  match type of H4 with setupHuskyHook E ?s = _ => set (st3 := s) in * end.
  assert (Hd3 : holds d [d] None st3).
  { split; [reflexivity|]. cbn [st3 files].
    rewrite lookup_insert_ne by congruence.
    unfold is_dir in Hdir. now destruct (files st2 !! [d]) as [[]|]. }
  assert (Hm3 : holds d [d; "package.json"] (Some (JSON_stringify w)) st3).
  { split; [reflexivity|]. cbn [st3 files]. now rewrite lookup_insert_eq. }
  (* the hook *)
  pose proof (husky_leaves_directory E d st3 Hd3) as Hd4.
  pose proof (husky_leaves_manifest E d _ st3 Hm3) as Hm4.
  rewrite H4 in Hd4, Hm4.
  apply holds_dir in Hd4 as [Hcwd4 Hd4].
  apply holds_file in Hm4 as (_ & mode4 & Hm4).
  (* the second update *)
  assert (Hfile4 : files st4 !! (cwd st4 ++ ["package.json"])
                   = Some (File (JSON_stringify w) mode4))
    by (now rewrite Hcwd4).
  destruct (addNpmScripts_outcome E st4)
    as [(text' & mode' & v1 & Hfile' & Hparse' & Hnull' & Hdir') | (e' & Hthrown)];
    [|rewrite Hthrown in H5; discriminate].
  rewrite (addNpmScripts_runs E st4 text' mode' v1 Hfile' Hparse' Hnull' Hdir') in H5.
  rewrite Hfile4 in Hfile'. injection Hfile' as <- <-.
  injection H5 as <-. cbn [cwd files]. rewrite Hcwd4. cbn [app].
  exists st3, st4, text, v, v1, mode4. repeat split; assumption.
Qed.

End AfterSuccess.




(* ===================================================================== *)
(** ** The pre-commit hook *)
(* ===================================================================== *)

Section Hook.

Variable E : env.

Lemma when_mkdir_next b p st st' :
  when b (fs_mkdirSync_recursive p) st = Next tt st' -> cwd st' = cwd st.
Proof.
  destruct b; cbn [when]; [|now intros [= <-]].
  unfold fs_mkdirSync_recursive. cbv zeta.
  destruct (mkdir_p [] (cwd st ++ p) (files st)); [|discriminate].
  now intros [= <-].
Qed.

(** The hook set-up, when it completes where the permission change is
    attempted and let through, leaves the hook with its text and with
    mode 755. *)
Lemma setupHuskyHook_next st st' :
  setupHuskyHook E st = Next tt st' ->
  platform E <> "win32" ->
  chmod_permitted E (cwd st ++ [".husky"; "pre-commit"]) = true ->
  cwd st' = cwd st
  /\ files st' !! (cwd st ++ [".husky"; "pre-commit"])
     = Some (File preCommitHook (Some "755")).
Proof.
  intros H Hplat Hperm. unfold setupHuskyHook in H. cbv zeta in H.
  apply bind_next in H as ([] & sa & Ha & H).
  apply bind_next in H as (present & sb & Hb & H).
  apply bind_next in H as ([] & sc & Hc & H).
  apply bind_next in H as ([] & sd & Hd & H).
  injection Ha as <-. injection Hb as _ <-.
  apply when_mkdir_next in Hc. cbn [emit cwd] in Hc.
  apply write_next in Hd as (Hcwd & mode & Hfiles).
  rewrite Hc in *.
  apply String.eqb_neq in Hplat. rewrite Hplat in H. cbn [negb when] in H.
  unfold try_catch, fs_chmodSync, path_join, file_name in *.
  cbv zeta in H. cbn [concat app] in *.
  rewrite Hcwd, Hfiles, lookup_insert_eq, Hperm in H.
  injection H as <-. cbn [emit with_files cwd files].
  split; [exact Hcwd|]. now rewrite lookup_insert_eq.
Qed.

End Hook.

(** X15. After a run that ends with exit status 0 on a platform other
    than [win32], where the permission change is let through, the
    pre-commit hook in the project directory holds the hook text and has
    mode 755. *)
Theorem hook_is_executable_after_success (E : env) (t : tree) (args : list string) :
  ending (run E t args) = Exit 0 ->
  platform E <> "win32" ->
  (forall l, chmod_permitted E l = true) ->
  exists d,
    args !! 0%nat = Some d
    /\ files (final (run E t args)) !! [d; ".husky"; "pre-commit"]
       = Some (File preCommitHook (Some "755")).
Proof.
  intros Hexit Hplat Hperm.
  destruct (success_next E t args Hexit) as (d & st1 & Hd & Hcwd & _ & Hconf).
  destruct (configuration_next E d st1 _ Hcwd Hconf)
    as (st3 & st4 & text0 & v0 & v1 & mode & Hcwd3 & Hhusky & _ & _ & _ & _ & _
        & Hfiles).
  destruct (setupHuskyHook_next E st3 st4 Hhusky Hplat (Hperm _)) as [_ Hhook].
  exists d. split; [exact Hd|].
  rewrite Hfiles, lookup_insert_ne by congruence.
  now rewrite Hcwd3 in Hhook.
Qed.

Lemma hook_is_executable_after_success_witness :
  ending Sample.smooth = Exit 0
  /\ platform (Sample.stub "" true) <> "win32"
  /\ (forall l, chmod_permitted (Sample.stub "" true) l = true)
  /\ exists d,
       ["demo"] !! 0%nat = Some d
       /\ files (final Sample.smooth) !! [d; ".husky"; "pre-commit"]
          = Some (File preCommitHook (Some "755")).
Proof.
  assert (H : ending Sample.smooth = Exit 0) by (vm_compute; reflexivity).
  assert (Hplat : platform (Sample.stub "" true) <> "win32") by discriminate.
  assert (Hperm : forall l : list string,
            chmod_permitted (Sample.stub "" true) l = true)
    by (intros l; reflexivity).
  split; [exact H|]. split; [exact Hplat|]. split; [exact Hperm|].
  exact (hook_is_executable_after_success (Sample.stub "" true) ∅ ["demo"]
           H Hplat Hperm).
Defined.

Section Windows.

Variable E : env.
Hypothesis on_windows : platform E = "win32".

Lemma windows_setupHuskyHook :
  keeps (all_events (fun e => negb (is_chmod e))) (setupHuskyHook E).
Proof using on_windows.
  unfold setupHuskyHook. rewrite on_windows. cbv zeta.
  apply keeps_bind; [apply events_log; reflexivity | intros _].
  apply keeps_bind; [apply keeps_exists | intros present].
  apply keeps_bind; [apply keeps_when, events_mkdir; reflexivity | intros _].
  apply keeps_bind; [apply events_write; reflexivity | intros _].
  apply keeps_ret.
Qed.

Lemma windows_main argv :
  keeps (all_events (fun e => negb (is_chmod e))) (main E argv).
Proof using on_windows.
  unfold main.
  apply keeps_bind; [apply events_checkProjectName; reflexivity | intros _].
  apply keeps_bind; [apply events_installAll; reflexivity | intros _].
  apply keeps_bind; [apply events_writeConfigFiles; reflexivity | intros _].
  apply keeps_bind; [apply events_configureLintStaged; reflexivity | intros _].
  apply keeps_bind; [apply windows_setupHuskyHook | intros _].
  apply keeps_bind; [apply events_addNpmScripts; reflexivity | intros _].
  apply events_printSummary; reflexivity.
Qed.

End Windows.

(** X16. On the platform [win32] the script never attempts to change a
    permission. *)
Theorem no_permission_change_on_windows (E : env) (t : tree) (args : list string) :
  platform E = "win32" ->
  Forall (fun e => is_chmod e = false) (trace (final (run E t args))).
Proof.
  intros Hplat.
  pose proof (windows_main E Hplat ("node" :: "init.js" :: args) (start t)
                (Forall_nil_2 _)) as H.
  unfold run. rewrite final_finish.
  assert (Hall : all_events (fun e => negb (is_chmod e))
                   (state_of (main E ("node" :: "init.js" :: args) (start t)))).
  { destruct (main E _ (start t)); cbn [state_of]; tauto. }
  eapply Forall_impl; [exact Hall|]. intros e He. cbv beta in He.
  now destruct (is_chmod e).
Qed.

Lemma no_permission_change_on_windows_witness :
  platform {| platform := "win32";
              command := command (Sample.stub "" true);
              chmod_permitted := fun _ => true;
              parse := JSON_parse |} = "win32"
  /\ Forall (fun e => is_chmod e = false)
       (trace (final (run {| platform := "win32";
                             command := command (Sample.stub "" true);
                             chmod_permitted := fun _ => true;
              parse := JSON_parse |} ∅ ["demo"]))).
Proof.
  split; [reflexivity|].
  exact (no_permission_change_on_windows
           {| platform := "win32";
              command := command (Sample.stub "" true);
              chmod_permitted := fun _ => true;
              parse := JSON_parse |} ∅ ["demo"] eq_refl).
Defined.

(* ===================================================================== *)
(** ** A project without a source directory *)
(* ===================================================================== *)

(** X17. Where the project directory has no [src] directory, writing the
    configuration files throws at the stylesheet, after the Tailwind
    configuration has been written: that file stays, and no other
    configuration file is written. *)
Theorem missing_src_stops_after_the_first_file (st : state) :
  is_dir (files st) (cwd st) = true ->
  files st !! (cwd st ++ [".postcssrc.json"]) = None ->
  files st !! (cwd st ++ ["src"]) = None ->
  writeConfigFiles st =
  Thrown "ENOENT"
    {| cwd := cwd st;
       files := <[cwd st ++ [".postcssrc.json"] := File tailwindConfig None]> (files st);
       trace := trace st ++
                [ Stdout (decorated "Configuring Tailwind CSS...");
                  WriteFile (cwd st ++ [".postcssrc.json"]) tailwindConfig ] |}.
Proof.
  intros Hdir Hfile Hsrc.
  unfold writeConfigFiles, bind. rewrite printMessage_decorated.
  unfold console_log, fs_writeFileSync at 1, file_name.
  cbv zeta. cbn [emit with_files cwd files trace].
  rewrite parent_snoc, Hdir, Hfile.
  unfold fs_writeFileSync at 1, path_join. cbv zeta.
  cbn [emit with_files cwd files trace concat app].
  change (cwd st ++ ["src"; "styles.scss"])
    with (cwd st ++ ["src"] ++ ["styles.scss"]).
  rewrite (app_assoc (cwd st)), parent_snoc.
  assert (Hne : cwd st ++ [".postcssrc.json"] <> cwd st ++ ["src"])
    by (intros Heq; apply app_inv_head in Heq; discriminate).
  unfold is_dir at 1, no_directory. cbn [files].
  rewrite !lookup_insert_ne, Hsrc by exact Hne.
  unfold emit, with_files. cbn [cwd files trace]. now rewrite <- app_assoc.
Qed.

Lemma missing_src_stops_after_the_first_file_witness :
  is_dir (files {| cwd := ["demo"]; files := {[ ["demo"] := Dir ]}; trace := [] |})
         ["demo"] = true
  /\ ({[ ["demo"] := Dir ]} : gmap (list string) node)
       !! (["demo"] ++ [".postcssrc.json"]) = None
  /\ ({[ ["demo"] := Dir ]} : gmap (list string) node)
       !! (["demo"] ++ ["src"]) = None
  /\ writeConfigFiles {| cwd := ["demo"]; files := {[ ["demo"] := Dir ]}; trace := [] |} =
     Thrown "ENOENT"
       {| cwd := ["demo"];
          files := <[ ["demo"] ++ [".postcssrc.json"] := File tailwindConfig None]>
                     {[ ["demo"] := Dir ]};
          trace := [] ++
                   [ Stdout (decorated "Configuring Tailwind CSS...");
                     WriteFile (["demo"] ++ [".postcssrc.json"]) tailwindConfig ] |}.
Proof.
  assert (H1 : is_dir (files {| cwd := ["demo"]; files := {[ ["demo"] := Dir ]};
                                trace := [] |}) ["demo"] = true)
    by (vm_compute; reflexivity).
  assert (H2 : ({[ ["demo"] := Dir ]} : gmap (list string) node)
                 !! (["demo"] ++ [".postcssrc.json"]) = None)
    by (vm_compute; reflexivity).
  assert (H3 : ({[ ["demo"] := Dir ]} : gmap (list string) node)
                 !! (["demo"] ++ ["src"]) = None)
    by (vm_compute; reflexivity).
  split; [exact H1|]. split; [exact H2|]. split; [exact H3|].
  exact (missing_src_stops_after_the_first_file
           {| cwd := ["demo"]; files := {[ ["demo"] := Dir ]}; trace := [] |}
           H1 H2 H3).
Defined.


(* ===================================================================== *)
(** ** Keys the manifest does not have yet *)
(* ===================================================================== *)

(** X18. On a manifest that [JSON.parse] reads as an object without
    scripts, the scripts update completes and writes the serialisation of
    that object with the key [scripts] added after every other key,
    holding the three scripts of the script and nothing else. *)
Theorem scripts_are_created_when_absent (E : env) (st : state) (ps : props) :
  parsed E st = Some (JObj ps) ->
  obj_get "scripts" ps = None ->
  is_dir (files st) (cwd st) = true ->
  exists st',
    addNpmScripts E st = Next tt st'
    /\ package_text st' =
       Some (JSON_stringify
               (JObj (ps ++ [ ("scripts",
                               JObj [ ("lint", JStr "ng lint");
                                      ("lint:fix", JStr "ng lint --fix");
                                      ("format", JStr formatScript) ]) ]))).
Proof.
  intros Hm Hnone Hdir.
  destruct (scripts_written E st (JObj ps) Hm ltac:(discriminate) Hdir)
    as (st' & Hrun & _ & _ & Hm').
  exists st'. split; [exact Hrun|]. rewrite Hm'. cbn [with_scripts].
  rewrite Hnone. now rewrite obj_set_absent.
Qed.

Lemma scripts_are_created_when_absent_witness :
  parsed (Sample.stub "" true) bare = Some (JObj [ ("name", JStr "demo") ])
  /\ obj_get "scripts" [ ("name", JStr "demo") ] = None
  /\ is_dir (files bare) (cwd bare) = true
  /\ exists st',
       addNpmScripts (Sample.stub "" true) bare = Next tt st'
       /\ package_text st' =
          Some (JSON_stringify
                  (JObj ([ ("name", JStr "demo") ] ++
                         [ ("scripts",
                            JObj [ ("lint", JStr "ng lint");
                                   ("lint:fix", JStr "ng lint --fix");
                                   ("format", JStr formatScript) ]) ]))).
Proof.
  assert (Hm : parsed (Sample.stub "" true) bare
               = Some (JObj [ ("name", JStr "demo") ]))
    by (vm_compute; reflexivity).
  assert (Hs : obj_get "scripts" [ ("name", JStr "demo") ] = None) by reflexivity.
  assert (Hd : is_dir (files bare) (cwd bare) = true) by (vm_compute; reflexivity).
  split; [exact Hm|]. split; [exact Hs|]. split; [exact Hd|].
  exact (scripts_are_created_when_absent (Sample.stub "" true) bare _ Hm Hs Hd).
Defined.

(** X19. On a manifest that [JSON.parse] reads as an object without a
    [lint-staged] key, the first update completes and writes the
    serialisation of that object with the key added after every other
    key, holding the three rules; the keys that were there keep their
    order and their values. *)
Theorem lint_staged_is_appended_when_absent (E : env) (st : state) (ps : props) :
  parsed E st = Some (JObj ps) ->
  obj_get "lint-staged" ps = None ->
  is_dir (files st) (cwd st) = true ->
  exists st',
    configureLintStaged E st = Next tt st'
    /\ package_text st' =
       Some (JSON_stringify (JObj (ps ++ [ ("lint-staged", three_rules) ]))).
Proof.
  intros Hm Hnone Hdir.
  destruct (lint_staged_written E st (JObj ps) Hm ltac:(discriminate) Hdir)
    as (st' & Hrun & _ & _ & Hm').
  exists st'. split; [exact Hrun|]. rewrite Hm'. cbn [with_lint_staged].
  now rewrite obj_set_absent.
Qed.

Lemma lint_staged_is_appended_when_absent_witness :
  parsed (Sample.stub "" true) bare = Some (JObj [ ("name", JStr "demo") ])
  /\ obj_get "lint-staged" [ ("name", JStr "demo") ] = None
  /\ is_dir (files bare) (cwd bare) = true
  /\ exists st',
       configureLintStaged (Sample.stub "" true) bare = Next tt st'
       /\ package_text st' =
          Some (JSON_stringify
                  (JObj ([ ("name", JStr "demo") ]
                         ++ [ ("lint-staged", three_rules) ]))).
Proof.
  assert (Hm : parsed (Sample.stub "" true) bare
               = Some (JObj [ ("name", JStr "demo") ]))
    by (vm_compute; reflexivity).
  assert (Hs : obj_get "lint-staged" [ ("name", JStr "demo") ] = None)
    by reflexivity.
  assert (Hd : is_dir (files bare) (cwd bare) = true) by (vm_compute; reflexivity).
  split; [exact Hm|]. split; [exact Hs|]. split; [exact Hd|].
  exact (lint_staged_is_appended_when_absent (Sample.stub "" true) bare _ Hm Hs Hd).
Defined.

(** X20. The scripts update changes the key [scripts] only: on a manifest
    that [JSON.parse] reads as an object, it completes and writes the
    serialisation of an object in which every other key has the value
    that was parsed, and, where the object had scripts already, the keys
    have the order that was parsed. *)
Theorem scripts_update_leaves_the_other_keys (E : env) (st : state) (ps : props) :
  parsed E st = Some (JObj ps) ->
  is_dir (files st) (cwd st) = true ->
  exists st' ps',
    addNpmScripts E st = Next tt st'
    /\ package_text st' = Some (JSON_stringify (JObj ps'))
    /\ (forall k, k <> "scripts" -> obj_get k ps' = obj_get k ps)
    /\ (has_key "scripts" ps = true -> keys ps' = keys ps).
Proof.
  intros Hm Hdir.
  destruct (scripts_written E st (JObj ps) Hm ltac:(discriminate) Hdir)
    as (st' & Hrun & _ & _ & Hm').
  eexists st', _. split; [exact Hrun|]. split; [exact Hm'|]. split.
  - intros k Hk. now apply obj_get_set_ne.
  - intros Hhas. unfold obj_set. rewrite Hhas. apply keys_replace.
Qed.

Lemma scripts_update_leaves_the_other_keys_witness :
  parsed (Sample.stub "" true) Sample.fresh = Some (JObj Sample.members)
  /\ is_dir (files Sample.fresh) (cwd Sample.fresh) = true
  /\ exists st' ps',
       addNpmScripts (Sample.stub "" true) Sample.fresh = Next tt st'
       /\ package_text st' = Some (JSON_stringify (JObj ps'))
       /\ (forall k, k <> "scripts" -> obj_get k ps' = obj_get k Sample.members)
       /\ (has_key "scripts" Sample.members = true -> keys ps' = keys Sample.members).
Proof.
  assert (Hm : parsed (Sample.stub "" true) Sample.fresh
               = Some (JObj Sample.members))
    by (vm_compute; reflexivity).
  assert (Hd : is_dir (files Sample.fresh) (cwd Sample.fresh) = true)
    by (vm_compute; reflexivity).
  split; [exact Hm|]. split; [exact Hd|].
  exact (scripts_update_leaves_the_other_keys (Sample.stub "" true)
           Sample.fresh _ Hm Hd).
Defined.

(* ===================================================================== *)
(** ** A hook that is there already *)
(* ===================================================================== *)

(** X22. Where the hook directory and a pre-commit hook are there
    already, the hook set-up completes, creates no directory, and
    replaces the text of the hook by its own, whatever the old text was;
    nothing else in the tree changes. *)
Theorem existing_hook_is_replaced (E : env) (st : state) (old : string)
    (mode : option string) :
  is_dir (files st) (cwd st ++ [".husky"]) = true ->
  files st !! (cwd st ++ [".husky"; "pre-commit"]) = Some (File old mode) ->
  exists st' mode',
    setupHuskyHook E st = Next tt st'
    /\ cwd st' = cwd st
    /\ files st' =
       <[cwd st ++ [".husky"; "pre-commit"] := File preCommitHook mode']> (files st)
    /\ Forall (fun e => match e with Mkdir _ => False | _ => True end)
         (drop (length (trace st)) (trace st')).
Proof.
  intros Hdir Hhook.
  assert (Hparent : parent (cwd st ++ [".husky"; "pre-commit"]) = cwd st ++ [".husky"]).
  { change (cwd st ++ [".husky"; "pre-commit"])
      with (cwd st ++ [".husky"] ++ ["pre-commit"]).
    rewrite app_assoc. apply parent_snoc. }
  assert (Hpresent : files st !! (cwd st ++ [".husky"]) = Some Dir).
  { unfold is_dir in Hdir. now destruct (files st !! (cwd st ++ [".husky"])) as [[]|]. }
  unfold setupHuskyHook, bind. rewrite printMessage_decorated.
  unfold console_log, fs_existsSync, path_join, file_name.
  cbn [emit cwd files trace concat app]. rewrite Hpresent. cbn [negb when ret].
  unfold fs_writeFileSync. cbv zeta. cbn [emit with_files cwd files trace].
  rewrite Hparent, Hdir, Hhook.
  destruct (String.eqb (platform E) "win32"); cbn [negb when ret].
  - eexists _, _. split; [reflexivity|]. cbn [emit with_files cwd files trace].
    split; [reflexivity|]. split; [reflexivity|].
    rewrite <- app_assoc, drop_app_length. repeat constructor.
  - unfold try_catch, fs_chmodSync. cbv zeta.
    cbn [emit with_files cwd files trace]. rewrite lookup_insert_eq.
    destruct (chmod_permitted E (cwd st ++ [".husky"; "pre-commit"])).
    + eexists _, _. split; [reflexivity|]. cbn [emit with_files cwd files trace].
      split; [reflexivity|]. split; [apply insert_insert_eq|].
      rewrite <- !app_assoc, drop_app_length. repeat constructor.
    + unfold printWarning, console_log.
      eexists _, _. split; [reflexivity|]. cbn [emit with_files cwd files trace].
      split; [reflexivity|]. split; [reflexivity|].
      rewrite <- !app_assoc, drop_app_length. repeat constructor.
Qed.

Lemma existing_hook_is_replaced_witness :
  is_dir (files hooked) (cwd hooked ++ [".husky"]) = true
  /\ files hooked !! (cwd hooked ++ [".husky"; "pre-commit"])
     = Some (File "npm test" None)
  /\ exists st' mode',
       setupHuskyHook (Sample.stub "" true) hooked = Next tt st'
       /\ cwd st' = cwd hooked
       /\ files st' =
          <[cwd hooked ++ [".husky"; "pre-commit"] := File preCommitHook mode']>
            (files hooked)
       /\ Forall (fun e => match e with Mkdir _ => False | _ => True end)
            (drop (length (trace hooked)) (trace st')).
Proof.
  assert (H1 : is_dir (files hooked) (cwd hooked ++ [".husky"]) = true)
    by (vm_compute; reflexivity).
  assert (H2 : files hooked !! (cwd hooked ++ [".husky"; "pre-commit"])
               = Some (File "npm test" None))
    by (vm_compute; reflexivity).
  split; [exact H1|]. split; [exact H2|].
  exact (existing_hook_is_replaced (Sample.stub "" true) hooked _ _ H1 H2).
Defined.


(* ===================================================================== *)
(** ** The order of the writes *)
(* ===================================================================== *)

Section Writes.

Variable E : env.

Lemma written_app a b : written (a ++ b) = written a ++ written b.
Proof. apply omap_app. Qed.

Lemma writes_bind {A B : Type} (m : M A) (k : A -> M B) ps1 ps2 :
  writes m ps1 -> (forall a, writes (k a) ps2) -> writes (bind m k) (ps1 ++ ps2).
Proof.
  intros Hm Hk st b st' H. apply bind_next in H as (a & st1 & H1 & H2).
  destruct (Hm _ _ _ H1) as [Hc1 Hw1]. destruct (Hk a _ _ _ H2) as [Hc2 Hw2].
  split; [congruence|]. rewrite Hw2, Hw1, Hc1, map_app. now rewrite app_assoc.
Qed.

Lemma writes_ret {A : Type} (a : A) : writes (ret a) [].
Proof. intros st b st' [= _ <-]. split; [reflexivity|]. now rewrite app_nil_r. Qed.

Lemma writes_log line : writes (console_log line) [].
Proof.
  intros st b st' [= _ <-]. split; [reflexivity|].
  cbn [emit trace]. now rewrite written_app.
Qed.

Lemma writes_log_all ls : writes (log_all ls) [].
Proof.
  induction ls as [|l ls IH]; cbn [log_all]; [apply writes_ret|].
  apply (writes_bind _ _ [] []); [apply writes_log | intros _; exact IH].
Qed.

Lemma writes_read p : writes (fs_readFileSync p) [].
Proof.
  intros st b st'. unfold fs_readFileSync.
  destruct (files st !! (cwd st ++ p)) as [[]|]; try discriminate.
  intros [= _ <-]. split; [reflexivity|]. now rewrite app_nil_r.
Qed.

Lemma writes_exists p : writes (fs_existsSync p) [].
Proof. intros st b st' [= _ <-]. split; [reflexivity|]. now rewrite app_nil_r. Qed.

Lemma writes_parse text : writes (JSON_parse_or_throw E text) [].
Proof.
  unfold JSON_parse_or_throw. destruct (parse E text); [apply writes_ret|].
  intros st b st' H. discriminate H.
Qed.

Lemma writes_assign target key value : writes (assign target key value) [].
Proof.
  destruct target; first [apply writes_ret | intros st b st' H; discriminate H].
Qed.

Lemma writes_member target key : writes (member target key) [].
Proof.
  destruct target; first [apply writes_ret | intros st b st' H; discriminate H].
Qed.

Lemma writes_write p text : writes (fs_writeFileSync p text) [p].
Proof.
  intros st b st'. unfold fs_writeFileSync. cbv zeta.
  destruct (is_dir (files st) (parent (cwd st ++ p))); [|discriminate].
  destruct (files st !! (cwd st ++ p)) as [[old mode|]|]; try discriminate;
    intros [= _ <-]; (split; [reflexivity|]);
    cbn [emit with_files trace]; now rewrite written_app.
Qed.

Lemma writes_when_mkdir b p : writes (when b (fs_mkdirSync_recursive p)) [].
Proof.
  destruct b; cbn [when]; [|apply writes_ret].
  intros st u st'. unfold fs_mkdirSync_recursive. cbv zeta.
  destruct (mkdir_p [] (cwd st ++ p) (files st)); [|discriminate].
  intros [= _ <-]. split; [reflexivity|].
  cbn [emit with_files trace]. now rewrite written_app.
Qed.

Lemma writes_when_chmod b p mode line :
  writes (when b (try_catch (fs_chmodSync E p mode) (fun _ => printWarning line))) [].
Proof.
  destruct b; cbn [when]; [|apply writes_ret].
  intros st u st'. unfold try_catch, fs_chmodSync, printWarning, console_log.
  cbv zeta.
  destruct (files st !! (cwd st ++ p)) as [[text m|]|];
    [destruct (chmod_permitted E (cwd st ++ p)) |
     destruct (chmod_permitted E (cwd st ++ p)) |];
    intros [= _ <-]; (split; [reflexivity|]);
    cbn [emit with_files trace]; rewrite !written_app; cbn [written omap list_omap map];
    now rewrite ?app_nil_r.
Qed.

Ltac writes_steps :=
  repeat lazymatch goal with
    | |- writes (bind _ _) _ => eapply writes_bind; [|intros ?]
    | |- writes (when _ (fs_mkdirSync_recursive _)) _ => apply writes_when_mkdir
    | |- writes (when _ (try_catch _ _)) _ => apply writes_when_chmod
    | |- writes (console_log _) _ => apply writes_log
    | |- writes (fs_writeFileSync _ _) _ => apply writes_write
    | |- writes (fs_readFileSync _) _ => apply writes_read
    | |- writes (fs_existsSync _) _ => apply writes_exists
    | |- writes (JSON_parse_or_throw _ _) _ => apply writes_parse
    | |- writes (assign _ _ _) _ => apply writes_assign
    | |- writes (member _ _) _ => apply writes_member
    | |- writes (log_all _) _ => apply writes_log_all
    | |- writes (ret _) _ => apply writes_ret
    end.

Lemma configuration_writes d :
  exists ps, writes (configuration E d) ps /\ ps = write_order.
Proof.
  eexists. split.
  - unfold configuration, writeConfigFiles, configureLintStaged, setupHuskyHook,
      addNpmScripts, printSummary, printMessage.
    cbv zeta. writes_steps.
  - reflexivity.
Qed.

End Writes.

(** X23. In a run that ends with exit status 0 the script has written
    each configuration file once and the manifest twice, in the order of
    the source: the Tailwind configuration, the stylesheet, the two
    formatter files, the linter configuration, the manifest, the hook, the
    manifest. *)
Theorem files_are_written_in_source_order (E : env) (t : tree) (args : list string) :
  ending (run E t args) = Exit 0 ->
  exists d,
    args !! 0%nat = Some d
    /\ written (trace (final (run E t args))) =
       [ [d; ".postcssrc.json"]; [d; "src"; "styles.scss"]; [d; ".prettierrc"];
         [d; ".prettierignore"]; [d; "eslint.config.js"]; [d; "package.json"];
         [d; ".husky"; "pre-commit"]; [d; "package.json"] ].
Proof.
  intros Hexit.
  destruct (success_next E t args Hexit) as (d & st1 & Hd & Hcwd & Htr & Hconf).
  destruct (configuration_writes E d) as (ps & Hps & ->).
  destruct (Hps _ _ _ Hconf) as [_ Hw].
  exists d. split; [exact Hd|]. rewrite Hw, Hcwd, Htr. reflexivity.
Qed.

Lemma files_are_written_in_source_order_witness :
  ending Sample.smooth = Exit 0
  /\ exists d,
       ["demo"] !! 0%nat = Some d
       /\ written (trace (final Sample.smooth)) =
          [ [d; ".postcssrc.json"]; [d; "src"; "styles.scss"]; [d; ".prettierrc"];
            [d; ".prettierignore"]; [d; "eslint.config.js"]; [d; "package.json"];
            [d; ".husky"; "pre-commit"]; [d; "package.json"] ].
Proof.
  assert (H : ending Sample.smooth = Exit 0) by (vm_compute; reflexivity).
  split; [exact H|].
  exact (files_are_written_in_source_order (Sample.stub "" true) ∅ ["demo"] H).
Defined.

(** X24. The project name goes into the generator's command line as it
    is given, without quoting or checking: every run with a non-empty
    name first prints the banner with the name, then runs
    [ng new <name> --routing --style=scss --skip-git] in the initial
    directory. *)
Theorem project_name_is_passed_as_given (E : env) (t : tree) (d : string)
    (others : list string) :
  d <> "" ->
  exists status more,
    trace (final (run E t (d :: others))) =
    Stdout (decorated ("Creating Angular project: " +:+ d))
    :: Exec ("ng new " +:+ d +:+ " --routing --style=scss --skip-git") [] status
    :: more.
Proof.
  intros Hne.
  assert (Hf : falsy (Some d) = false) by (cbn; now apply String.eqb_neq).
  pose proof (main_shape E t (d :: others) d eq_refl Hf) as H.
  unfold run. rewrite final_finish.
  assert (Hinst : forall st, since d (installed d) st ->
            exists status more,
              trace st = Stdout (banner d) :: Exec (generation d) [] status :: more).
  { intros st (_ & more & -> & _). eexists _, _. reflexivity. }
  destruct (main E _ (start t)) as [[] st|err st|c st]; cbn [state_of].
  - now apply Hinst.
  - destruct H as [H | (_ & _ & -> & _)]; [now apply Hinst|].
    eexists _, _. reflexivity.
  - destruct H as (_ & n & status & Hn & _ & ->).
    do 9 (destruct n as [|n]; [eexists _, _; reflexivity|]). lia.
Qed.

Lemma project_name_is_passed_as_given_witness :
  "my app" <> ""
  /\ exists status more,
       trace (final (run (Sample.stub "" true) ∅ ["my app"])) =
       Stdout (decorated ("Creating Angular project: " +:+ "my app"))
       :: Exec ("ng new " +:+ "my app" +:+ " --routing --style=scss --skip-git")
            [] status
       :: more.
Proof.
  assert (H : "my app" <> "") by discriminate.
  split; [exact H|].
  exact (project_name_is_passed_as_given (Sample.stub "" true) ∅ "my app" [] H).
Defined.
